(** * Nakama (Jarvis) retrieval pipeline: a shallow embedding and its properties

    The development follows the Python sources:
    - [utils/text_utils.py]          -> [Module TextUtils]
    - [utils/memory_optimizer.py]    -> [Module MemoryOptimizer]
    - [services/embedding_service.py]-> [Module EmbeddingService]
    - [services/database_service.py] -> [Module DatabaseService]
    - [controllers/rag_controller.py]-> [Module RAGController]

    Python integers are [Z], Python floats are IEEE-754 binary64 ([float]),
    [str] values that are sliced are [list ascii] (code points below 256),
    dictionaries are [gmap string pyval], exceptions are values of [exn]
    and a call that may raise returns an [outcome]. *)

From Stdlib Require Import ZArith List String Ascii Bool Floats Lia Sorted.
From stdpp Require Import gmap strings list pretty.

Set Warnings "-register-all,-inexact-float".
Local Open Scope Z_scope.

(* ===================================================================== *)
(** ** Python runtime: exceptions, outcomes, values, slices, ranges       *)
(* ===================================================================== *)

Module Py.

(** An exception object: its class and [str(e)].  Only subclasses of
    [Exception] are modelled (these are the ones an [except Exception]
    clause intercepts). *)
Record exn := Exn { exn_class : string; exn_str : string }.

Definition RuntimeError (msg : string) : exn := Exn "RuntimeError" msg.
Definition ValueError (msg : string) : exn := Exn "ValueError" msg.
Definition IndexError (msg : string) : exn := Exn "IndexError" msg.
Definition ZeroDivisionError : exn :=
  Exn "ZeroDivisionError" "integer division or modulo by zero".
Definition KeyError (key : string) : exn :=
  Exn "KeyError" ("'" ++ key ++ "'").
Definition NameError (name : string) : exn :=
  Exn "NameError" ("name '" ++ name ++ "' is not defined").
Definition AttributeError (cls attr : string) : exn :=
  Exn "AttributeError"
      ("'" ++ cls ++ "' object has no attribute '" ++ attr ++ "'").

(** The result of running a piece of Python: a value or a raised exception. *)
Inductive outcome (A : Type) : Type :=
| Ret (a : A)
| Raise (e : exn).
Global Arguments Ret {A} a.
Global Arguments Raise {A} e.

(** Stateful code: the state survives a raised exception, as the side
    effects of Python code do. *)
Definition M (S A : Type) : Type := S -> outcome A * S.

Definition ret {S A} (a : A) : M S A := fun s => (Ret a, s).
Definition raise {S A} (e : exn) : M S A := fun s => (Raise e, s).
Definition bind {S A B} (m : M S A) (k : A -> M S B) : M S B :=
  fun s => match m s with
           | (Ret a, s') => k a s'
           | (Raise e, s') => (Raise e, s')
           end.
(** [try: m except Exception as e: h e] *)
Definition try_except {S A} (m : M S A) (h : exn -> M S A) : M S A :=
  fun s => match m s with
           | (Ret a, s') => (Ret a, s')
           | (Raise e, s') => h e s'
           end.
Definition lift {S A} (o : outcome A) : M S A := fun s => (o, s).
Definition get_state {S} : M S S := fun s => (Ret s, s).
Definition put_state {S} (s : S) : M S unit := fun _ => (Ret tt, s).

(** The same operations without state. *)
Definition obind {A B} (o : outcome A) (k : A -> outcome B) : outcome B :=
  match o with Ret a => k a | Raise e => Raise e end.

Fixpoint omap {A B} (f : A -> outcome B) (l : list A) : outcome (list B) :=
  match l with
  | [] => Ret []
  | x :: l' => obind (f x) (fun y => obind (omap f l') (fun ys => Ret (y :: ys)))
  end.

(** Python values that travel through dictionaries. *)
Inductive pyval : Type :=
| PNone
| PBool (b : bool)
| PInt (z : Z)
| PFloat (f : float)
| PStr (s : string)
| PVec (v : list float)
| PList (l : list pyval)
| PDict (d : gmap string pyval).

Abbreviation dict := (gmap string pyval).

(** [d[key]] *)
Definition getitem (d : dict) (key : string) : outcome pyval :=
  match d !! key with
  | Some v => Ret v
  | None => Raise (KeyError key)
  end.

(** [d.get(key)] and [d.get(key, default)] *)
Definition dict_get (d : dict) (key : string) (default : pyval) : pyval :=
  match d !! key with
  | Some v => v
  | None => default
  end.

Definition len {A} (l : list A) : Z := Z.of_nat (length l).

(** Truth value of a sequence: empty is false. *)
Definition truthy {A} (l : list A) : bool :=
  match l with [] => false | _ :: _ => true end.

(** A slice bound [i] of a sequence of length [n], as [PySlice_AdjustIndices]
    normalises it for step 1. *)
Definition adjust_index (n i : Z) : Z :=
  if i <? 0 then Z.max 0 (i + n) else Z.min i n.

(** [l[start:stop]] *)
Definition slice {A} (l : list A) (start stop : Z) : list A :=
  let a := adjust_index (len l) start in
  let b := adjust_index (len l) stop in
  take (Z.to_nat (b - a)) (drop (Z.to_nat a) l).

(** [l[start:]] *)
Definition slice_from {A} (l : list A) (start : Z) : list A :=
  drop (Z.to_nat (adjust_index (len l) start)) l.

(** [l[i]] for [0 <= i]. *)
Definition index {A} (l : list A) (i : nat) : outcome A :=
  match l !! i with
  | Some x => Ret x
  | None => Raise (IndexError "list index out of range")
  end.

(** [range(0, stop, step)]: [ValueError] for a zero step, empty for a
    negative step when [0 <= stop]. *)
Definition range_count (stop step : Z) : nat :=
  if (0 <? step) && (0 <? stop) then Z.to_nat ((stop + step - 1) / step)
  else 0%nat.

Definition range0 (stop step : Z) : outcome (list Z) :=
  if step =? 0 then Raise (ValueError "range() arg 3 must not be zero")
  else Ret (map (fun k => Z.of_nat k * step) (seq 0 (range_count stop step))).

(** [a // b] on integers. *)
Definition floordiv (a b : Z) : outcome Z :=
  if b =? 0 then Raise ZeroDivisionError else Ret (a / b).

End Py.

Import Py.

Declare Scope py_scope.
Delimit Scope py_scope with py.
Notation "'let!' x ':=' m 'in' k" := (bind m (fun x => k))
  (at level 10, x name, m at level 100, k at level 200) : py_scope.
Notation "'let?' x ':=' o 'in' k" := (obind o (fun x => k))
  (at level 10, x name, o at level 100, k at level 200) : py_scope.

(* ===================================================================== *)
(** ** utils/text_utils.py                                                *)
(* ===================================================================== *)

Module TextUtils.

(** A [str] as the sequence of its characters; a character is a code point
    below 256. *)
Abbreviation text := (list ascii).

Definition T (s : string) : text := list_ascii_of_string s.

Definition code (c : ascii) : nat := nat_of_ascii c.

(** [\s], which is also what [str.strip()] removes: tab, LF, VT, FF, CR,
    the four separators 0x1c-0x1f, space, NEL (0x85) and the no-break
    space (0xa0). *)
Definition is_space (c : ascii) : bool :=
  let n := code c in
  ((9 <=? n) && (n <=? 13) || (28 <=? n) && (n <=? 32)
   || (n =? 133) || (n =? 160))%nat.

(** [[A-Z]] and [[a-z]] *)
Definition is_upper (c : ascii) : bool :=
  let n := code c in ((65 <=? n) && (n <=? 90))%nat.
Definition is_lower (c : ascii) : bool :=
  let n := code c in ((97 <=? n) && (n <=? 122))%nat.
Definition is_digit (c : ascii) : bool :=
  let n := code c in ((48 <=? n) && (n <=? 57))%nat.
(** The alphanumeric characters from 0x80 to 0xff: the letters, the
    superscript digits and the fractions. *)
Definition is_latin1_alnum (c : ascii) : bool :=
  let n := code c in
  ((n =? 170) || (n =? 178) || (n =? 179) || (n =? 181) || (n =? 185)
   || (n =? 186) || (188 <=? n) && (n <=? 190)
   || (192 <=? n) && (n <=? 214) || (216 <=? n) && (n <=? 246)
   || (248 <=? n) && (n <=? 255))%nat.
(** [\w]: alphanumeric or underscore. *)
Definition is_word (c : ascii) : bool :=
  is_upper c || is_lower c || is_digit c || (code c =? 95)%nat
  || is_latin1_alnum c.
(** [.] matches anything but a line feed. *)
Definition is_any (c : ascii) : bool := negb (code c =? 10)%nat.
Definition is_dot (c : ascii) : bool := (code c =? 46)%nat.
(** [[.!?]] *)
Definition is_terminator (c : ascii) : bool :=
  let n := code c in ((n =? 46) || (n =? 33) || (n =? 63))%nat.

(** The three look-behinds of the sentence pattern
    [(?<!\w\.\w.)(?<![A-Z][a-z]\.)(?<=[.!?])\s], read on the characters
    before the current position, nearest first. *)
Definition behind_abbrev (behind : text) : bool :=
  match behind with
  | c4 :: c3 :: c2 :: c1 :: _ =>
      is_word c1 && is_dot c2 && is_word c3 && is_any c4
  | _ => false
  end.
Definition behind_title (behind : text) : bool :=
  match behind with
  | c3 :: c2 :: c1 :: _ => is_upper c1 && is_lower c2 && is_dot c3
  | _ => false
  end.
Definition behind_terminator (behind : text) : bool :=
  match behind with
  | c :: _ => is_terminator c
  | [] => false
  end.

(** Does the pattern match the single character [c] here? *)
Definition boundary (behind : text) (c : ascii) : bool :=
  negb (behind_abbrev behind) && negb (behind_title behind)
  && behind_terminator behind && is_space c.

(** [re.split(pattern, text)]: [behind] holds the consumed characters in
    reverse, [piece] the current piece in reverse. *)
Fixpoint re_split (behind piece : text) (rest : text) : list text :=
  match rest with
  | [] => [rev piece]
  | c :: rest' =>
      if boundary behind c
      then rev piece :: re_split (c :: behind) [] rest'
      else re_split (c :: behind) (c :: piece) rest'
  end.

Fixpoint lstrip (s : text) : text :=
  match s with
  | c :: s' => if is_space c then lstrip s' else s
  | [] => []
  end.
Definition rstrip (s : text) : text := rev (lstrip (rev s)).
Definition strip (s : text) : text := rstrip (lstrip s).

(** [[s.strip() for s in sentences if s.strip()]] *)
Definition split_into_sentences (t : text) : list text :=
  let sentences := re_split [] [] t in
  map strip (List.filter (fun s => truthy (strip s)) sentences).

Definition space : text := [" "%char].

(** One iteration of the sentence loop of [chunk_text] on the pair
    [(chunks, current_chunk)]. *)
Definition add_sentence (chunk_size overlap : Z)
    (st : list text * text) (sentence : text) : list text * text :=
  let '(chunks, current_chunk) := st in
  if (len current_chunk + len sentence >? chunk_size) && truthy current_chunk
  then
    let chunks := chunks ++ [strip current_chunk] in
    if (overlap >? 0) && (len current_chunk >? overlap)
    then (chunks, slice_from current_chunk (- overlap) ++ space ++ sentence)
    else (chunks, sentence)
  else
    (chunks,
     if truthy current_chunk then current_chunk ++ space ++ sentence
     else sentence).

Definition sentence_chunks (t : text) (chunk_size overlap : Z) : list text :=
  let '(chunks, current_chunk) :=
    fold_left (add_sentence chunk_size overlap) (split_into_sentences t) ([], [])
  in
  if truthy current_chunk then chunks ++ [strip current_chunk] else chunks.

(** The window start after one iteration of the character loop. *)
Definition next_start (chunk_size overlap start : Z) : Z :=
  let end_ := start + chunk_size in
  if overlap >? 0 then end_ - overlap else end_.

(** The [while start < len(text)] loop; [None] when the fuel runs out. *)
Fixpoint char_loop (fuel : nat) (t : text) (chunk_size overlap : Z)
    (start : Z) (chunks : list text) : option (list text) :=
  match fuel with
  | O => None
  | S fuel' =>
      if start <? len t then
        let end_ := start + chunk_size in
        let chunk := slice t start end_ in
        char_loop fuel' t chunk_size overlap
                  (next_start chunk_size overlap start) (chunks ++ [chunk])
      else Some chunks
  end.

Definition chunk_text (fuel : nat) (t : text) (chunk_size overlap : Z)
    (preserve_sentences : bool) : option (list text) :=
  if negb (truthy t) || (len t <=? chunk_size)
  then Some (if truthy t then [t] else [])
  else
    match (if preserve_sentences
           then Some (sentence_chunks t chunk_size overlap)
           else char_loop fuel t chunk_size overlap 0 [])
    with
    | Some chunks => Some (List.filter (fun chunk => truthy (strip chunk)) chunks)
    | None => None
    end.

(** [re.sub(r'\s+', ' ', text)]: every run of whitespace becomes one space;
    [in_run] tells that the previous character belonged to a run. *)
Fixpoint collapse_spaces (in_run : bool) (t : text) : text :=
  match t with
  | [] => []
  | c :: t' =>
      if is_space c
      then (if in_run then collapse_spaces true t'
            else " "%char :: collapse_spaces true t')
      else c :: collapse_spaces false t'
  end.

Definition normalize_whitespace (t : text) : text :=
  strip (collapse_spaces false t).

(** [[\x20-\x7E]] *)
Definition is_printable (c : ascii) : bool :=
  let n := code c in ((32 <=? n) && (n <=? 126))%nat.

(** [clean_text] on a [str]: whitespace is normalised first, then every
    character outside [\x20-\x7E] is removed. *)
Definition clean_text (t : text) : text :=
  List.filter is_printable (strip (collapse_spaces false t)).

(** [text[:max_length - len(suffix)] + suffix] when the text is too long. *)
Definition truncate_text (t : text) (max_length : Z) (suffix : text) : text :=
  if len t <=? max_length then t
  else slice t 0 (max_length - len suffix) ++ suffix.

(** [re.findall(r'\b\w+\b', text)]: the maximal runs of word characters;
    [cur] is the run being read, in reverse. *)
Definition close_run (cur : text) : list text :=
  if truthy cur then [rev cur] else [].

Fixpoint word_runs (cur : text) (t : text) : list text :=
  match t with
  | [] => close_run cur
  | c :: t' =>
      if is_word c then word_runs (c :: cur) t'
      else close_run cur ++ word_runs [] t'
  end.

Definition count_words (t : text) : Z := len (word_runs [] t).

(** [str.lower()] on a character below 256. *)
Definition lower_char (c : ascii) : ascii :=
  let n := code c in
  if ((65 <=? n) && (n <=? 90)
      || (192 <=? n) && (n <=? 222) && negb (n =? 215))%nat
  then ascii_of_nat (n + 32) else c.

Definition lower (t : text) : text := map lower_char t.

Definition _STOP_WORDS : list text :=
  map T
    ["the"; "and"; "or"; "but"; "in"; "on"; "at"; "to"; "for"; "of"; "with";
     "by"; "from"; "up"; "about"; "into"; "through"; "during"; "before";
     "after"; "above"; "below"; "between"; "among"; "this"; "that"; "these";
     "those"; "you"; "your"; "yours"; "yourself"; "yourselves"; "him"; "his";
     "himself"; "she"; "her"; "hers"; "herself"; "its"; "itself"; "they";
     "them"; "their"; "theirs"; "themselves"; "what"; "which"; "who"; "whom";
     "whose"; "when"; "where"; "why"; "how"; "all"; "any"; "both"; "each";
     "few"; "more"; "most"; "other"; "some"; "such"; "only"; "own"; "same";
     "than"; "too"; "very"; "can"; "will"; "just"; "should"; "now"; "is"; "are";
     "was"; "were"; "be"; "been"; "being"; "have"; "has"; "had"; "do"; "does";
     "did"; "a"; "an"; "not"; "so"; "if"]%string.

Definition text_eqb (a b : text) : bool := bool_decide (a = b).

Definition is_stop_word (w : text) : bool := existsb (text_eqb w) _STOP_WORDS.

(** [word_freq[word] = word_freq.get(word, 0) + 1] on a dictionary that
    keeps its keys in insertion order. *)
Fixpoint bump (word : text) (word_freq : list (text * Z)) : list (text * Z) :=
  match word_freq with
  | [] => [(word, 1)]
  | (k, n) :: rest =>
      if text_eqb k word then (k, n + 1) :: rest
      else (k, n) :: bump word rest
  end.

(** [sorted(items, key=lambda x: x[1], reverse=True)]: a stable sort, so
    items of equal count keep their order. *)
Fixpoint insert_by_count (x : text * Z) (sorted : list (text * Z))
  : list (text * Z) :=
  match sorted with
  | [] => [x]
  | y :: rest =>
      if snd y <? snd x then x :: y :: rest
      else y :: insert_by_count x rest
  end.

Definition sort_by_count (items : list (text * Z)) : list (text * Z) :=
  fold_left (fun sorted x => insert_by_count x sorted) items [].

(** [re.findall(r'\b\w{3,}\b', text.lower())] without the stop words. *)
Definition keyword_candidates (t : text) : list text :=
  List.filter (fun word => negb (is_stop_word word))
    (List.filter (fun word => (3 <=? length word)%nat) (word_runs [] (lower t))).

Definition extract_keywords (t : text) (max_keywords : Z) : list text :=
  let keywords := keyword_candidates t in
  let word_freq := fold_left (fun freq word => bump word freq) keywords [] in
  let sorted_keywords := sort_by_count word_freq in
  map fst (slice sorted_keywords 0 max_keywords).

End TextUtils.

(* ===================================================================== *)
(** ** utils/memory_optimizer.py                                          *)
(* ===================================================================== *)

Module MemoryOptimizer.

Definition class_name : string := "MemoryOptimizer".

(** The attributes the class body defines.  [__init__] stores nothing on
    the instance, so an instance has no attributes beyond these. *)
Definition methods : list string :=
  ["__init__"; "optimize_gc"; "get_memory_stats"; "clear_embedding_cache";
   "clear_all_caches"].

Definition has_attr (name : string) : bool :=
  existsb (String.eqb name) methods.

End MemoryOptimizer.

(* ===================================================================== *)
(** ** services/embedding_service.py                                      *)
(* ===================================================================== *)

Module EmbeddingService.

Abbreviation vector := (list float).

(** One call of [SentenceTransformer.encode] on a list: the texts and the
    [batch_size] keyword. *)
Definition encode_call : Type := list string * Z.

(** The external embedding model: its answer to a call may depend on the
    calls made before. *)
Definition encoder : Type :=
  list encode_call -> encode_call -> outcome (list vector).

(** An object standing where [memory_optimizer] stands, over a cache state
    [C].  A method the object does not have is [None]. *)
Record cache_object (C : Type) := CacheObject {
  obj_class : string;
  get_cached_embedding : option (string -> C -> option vector);
  cache_embedding : option (string -> vector -> C -> C);
  optimize_gc : option (C -> C)
}.
Arguments CacheObject {C}.
Arguments obj_class {C}.
Arguments get_cached_embedding {C}.
Arguments cache_embedding {C}.
Arguments optimize_gc {C}.

(** What the process holds while the service runs: the cache behind
    [memory_optimizer] and the calls made to the model so far. *)
Record env (C : Type) := Env {
  cache : C;
  encode_calls : list encode_call
}.
Arguments Env {C}.
Arguments cache {C}.
Arguments encode_calls {C}.

(** The instance [memory_optimizer = MemoryOptimizer()] of the repository.
    A method is there exactly when the class defines it: [optimize_gc] is,
    and only runs the collector; [get_cached_embedding] and
    [cache_embedding] are not. *)
Definition memory_optimizer : cache_object unit :=
  {| obj_class := MemoryOptimizer.class_name;
     get_cached_embedding :=
       if MemoryOptimizer.has_attr "get_cached_embedding"
       then Some (fun _ _ => None) else None;
     cache_embedding :=
       if MemoryOptimizer.has_attr "cache_embedding"
       then Some (fun _ _ c => c) else None;
     optimize_gc :=
       if MemoryOptimizer.has_attr "optimize_gc"
       then Some (fun c => c) else None |}.

Section Service.
Context {C : Type}.
(** [self.model]: [None] when loading failed. *)
Variable model : option encoder.
Variable mo : cache_object C.

Definition attr {A} (name : string) (a : option A) : M (env C) A :=
  match a with
  | Some x => ret x
  | None => raise (AttributeError (obj_class mo) name)
  end.

(** [self.model.encode(batch_texts, batch_size=n, ...)] followed by
    [tolist()] on each row. *)
Definition encode (m : encoder) (texts : list string) (n : Z)
  : M (env C) (list vector) :=
  fun s =>
    (m (encode_calls s) (texts, n),
     {| cache := cache s; encode_calls := encode_calls s ++ [(texts, n)] |}).

(** [all_embeddings[i] = x] *)
Definition list_assign {A} (l : list A) (i : nat) (x : A) : outcome (list A) :=
  if (i <? length l)%nat then Ret (<[i := x]> l)
  else Raise (IndexError "list assignment index out of range").

(** First loop: split the texts into cached and uncached ones.  The
    accumulator is [(all_embeddings, uncached_texts, uncached_indices)]. *)
Fixpoint probe (i : nat) (texts : list string)
    (acc : list (option vector) * list string * list nat)
  : M (env C) (list (option vector) * list string * list nat) :=
  match texts with
  | [] => ret acc
  | text :: texts' =>
      let '(all_embeddings, uncached_texts, uncached_indices) := acc in
      (let! get := attr "get_cached_embedding" (get_cached_embedding mo) in
       let! s := get_state in
       match get text (cache s) with
       | Some cached_embedding =>
           probe (S i) texts'
                 (all_embeddings ++ [Some cached_embedding],
                  uncached_texts, uncached_indices)
       | None =>
           probe (S i) texts'
                 (all_embeddings ++ [None],
                  uncached_texts ++ [text], uncached_indices ++ [i])
       end)%py
  end.

(** [for j, text in enumerate(batch_texts):
       memory_optimizer.cache_embedding(text, batch_list[j])] *)
Fixpoint cache_batch (j : nat) (batch_texts : list string)
    (batch_list : list vector) : M (env C) unit :=
  match batch_texts with
  | [] => ret tt
  | text :: rest =>
      (let! put := attr "cache_embedding" (cache_embedding mo) in
       let! v := lift (index batch_list j) in
       let! s := get_state in
       let! _ := put_state {| cache := put text v (cache s);
                              encode_calls := encode_calls s |} in
       cache_batch (S j) rest batch_list)%py
  end.

(** Second loop: [for i in range(0, len(uncached_texts), batch_size)]. *)
Fixpoint encode_batches (m : encoder) (starts : list Z)
    (uncached_texts : list string) (batch_size : Z)
    (uncached_embeddings : list vector) : M (env C) (list vector) :=
  match starts with
  | [] => ret uncached_embeddings
  | i :: starts' =>
      let batch_texts := slice uncached_texts i (i + batch_size) in
      (let! batch_list :=
         encode m batch_texts (Z.min batch_size (len batch_texts)) in
       let uncached_embeddings := uncached_embeddings ++ batch_list in
       let! _ := cache_batch 0 batch_texts batch_list in
       encode_batches m starts' uncached_texts batch_size uncached_embeddings)%py
  end.

(** Third loop: [all_embeddings[uncached_indices[i]] = embedding]. *)
Fixpoint fill (i : nat) (uncached_embeddings : list vector)
    (uncached_indices : list nat) (all_embeddings : list (option vector))
  : outcome (list (option vector)) :=
  match uncached_embeddings with
  | [] => Ret all_embeddings
  | embedding :: rest =>
      (let? k := index uncached_indices i in
       let? all_embeddings := list_assign all_embeddings k (Some embedding) in
       fill (S i) rest uncached_indices all_embeddings)%py
  end.

(** The [memory_profile] decorator around the method only measures and
    re-raises; an entry of the result is [None] where a placeholder was
    never filled. *)
Definition generate_embeddings_batch (texts : list string) (batch_size : Z)
  : M (env C) (list (option vector)) :=
  match model with
  | None => raise (RuntimeError "Embedding model not loaded")
  | Some m =>
      try_except
        (let! acc := probe 0 texts ([], [], []) in
         let '(all_embeddings, uncached_texts, uncached_indices) := acc in
         let! all_embeddings :=
           (if truthy uncached_texts then
              let! starts := lift (range0 (len uncached_texts) batch_size) in
              let! uncached_embeddings :=
                encode_batches m starts uncached_texts batch_size [] in
              lift (fill 0 uncached_embeddings uncached_indices all_embeddings)
            else ret all_embeddings) in
         let! _ :=
           (if len texts >? 100 then
              let! gc := attr "optimize_gc" (optimize_gc mo) in
              let! s := get_state in
              put_state {| cache := gc (cache s);
                           encode_calls := encode_calls s |}
            else ret tt) in
         ret all_embeddings)%py
        (fun _ => raise (RuntimeError "Failed to generate batch embeddings"))
  end.

End Service.

(** [self.model.encode(text, ...)] on a single text, followed by
    [tolist()]. *)
Definition text_encoder : Type := string -> outcome vector.

(** The [memory_profile] decorator around the method only measures and
    re-raises; the cache lookups of the method are commented out. *)
Definition generate_embedding (model : option text_encoder) (text : string)
  : outcome vector :=
  match model with
  | None => Raise (RuntimeError "Embedding model not loaded")
  | Some encode_text =>
      match encode_text text with
      | Ret embedding_list => Ret embedding_list
      | Raise _ => Raise (RuntimeError "Failed to generate embedding")
      end
  end.

Local Open Scope float_scope.

(** [np.dot] on two one-dimensional arrays; the products are summed from
    the left. *)
Definition np_dot (a b : vector) : outcome float :=
  if (length a =? length b)%nat
  then Ret (fold_left (fun acc p => acc + fst p * snd p) (combine a b) 0)
  else Raise (ValueError "shapes not aligned").

(** [np.linalg.norm] of a one-dimensional array: [sqrt(x.dot(x))]. *)
Definition np_norm (a : vector) : float :=
  PrimFloat.sqrt (fold_left (fun acc x => acc + x * x) a 0).

Definition calculate_similarity (embedding1 embedding2 : vector)
  : outcome float :=
  match
    (let? dot_product := np_dot embedding1 embedding2 in
     let norm1 := np_norm embedding1 in
     let norm2 := np_norm embedding2 in
     if (norm1 =? 0) || (norm2 =? 0) then Ret 0
     else Ret (dot_product / (norm1 * norm2)))%py
  with
  | Ret similarity => Ret similarity
  | Raise _ => Raise (RuntimeError "Failed to calculate similarity")
  end.

End EmbeddingService.

(* ===================================================================== *)
(** ** services/database_service.py                                       *)
(* ===================================================================== *)

Module DatabaseService.

Abbreviation vector := (list float).

(** The requests the service sends to the Supabase client, each ended by
    [.execute()]. *)
Inductive call : Type :=
| Rpc (fn : string) (params : dict)
| Insert (table : string) (rows : list dict)
| Select (table : string) (columns : string) (limit : Z).

(** A request and what came back: [result.data], or the exception raised.
    An absent [data] ([None]) and an empty one are both [[]]: the code
    only tests [data] for truth before using it. *)
Definition event : Type := call * outcome (list dict).

(** The external store: its answer may depend on everything it was asked
    before. *)
Definition store : Type := list event -> call -> outcome (list dict).

(** The injected embedding service, seen through
    [generate_embeddings_batch(contents)]; its answer may depend on the
    earlier calls. *)
Definition embedder : Type :=
  list (list pyval) -> list pyval -> outcome (list pyval).

Record world := World {
  events : list event;
  embed_calls : list (list pyval)
}.

Definition confirmed (ev : event) : bool :=
  match snd ev with
  | Ret data => truthy data
  | Raise _ => false
  end.

(** The rows the external store holds after some events: those of the
    acknowledged inserts, in order (an insert that comes back without data
    or raises commits nothing, and no request of this service's insert
    path deletes). *)
Definition committed (evs : list event) : list dict :=
  flat_map (fun ev =>
              match ev with
              | (Insert _ rows, Ret data) => if truthy data then rows else []
              | _ => []
              end) evs.

Local Open Scope float_scope.
Definition relaxed_threshold : float := 0.3.
Definition placeholder_similarity : float := 0.5.
Local Close Scope float_scope.

Section Service.
Variable client : store.
(** [self.embedding_service] *)
Variable embedding_service : option embedder.

Definition execute (c : call) : M world (list dict) :=
  fun w =>
    let r := client (events w) c in
    (r, {| events := events w ++ [(c, r)]; embed_calls := embed_calls w |}).

Definition embed (es : embedder) (contents : list pyval)
  : M world (list pyval) :=
  fun w =>
    (es (embed_calls w) contents,
     {| events := events w; embed_calls := embed_calls w ++ [contents] |}).

Definition search_call (query_embedding : vector) (threshold : float)
    (limit : Z) : call :=
  Rpc "search_documents_cosine"
      {[ "query_embedding" := PVec query_embedding;
         "similarity_threshold" := PFloat threshold;
         "max_results" := PInt limit ]}.

Definition fallback_call (limit : Z) : call := Select "documents" "*" limit.

Definition placeholder_row (doc : dict) : outcome dict :=
  (let? id := getitem doc "id" in
   let? content := getitem doc "content" in
   Ret ({[ "id" := id;
           "content" := content;
           "similarity" := PFloat placeholder_similarity;
           "created_at" := dict_get doc "created_at" PNone ]} : dict))%py.

Definition _fallback_search (limit : Z) : M world (list dict) :=
  try_except
    (let! data := execute (fallback_call limit) in
     if truthy data then lift (omap placeholder_row data) else ret [])%py
    (fun _ => ret []).

Definition search_similar_documents (query_embedding : vector)
    (limit : Z) (similarity_threshold : float) : M world (list dict) :=
  try_except
    (let! data :=
       execute (search_call query_embedding similarity_threshold limit) in
     if truthy data then ret data
     else
       let! data :=
         execute (search_call query_embedding relaxed_threshold limit) in
       ret (if truthy data then data else []))%py
    (fun _ => _fallback_search limit).

(** [{'content': doc['content'], 'embedding': embeddings[j],
     'metadata': doc.get('metadata', {})}] *)
Definition prepare_row (embeddings : list pyval) (j : nat) (doc : dict)
  : outcome dict :=
  (let? content := getitem doc "content" in
   let? embedding := index embeddings j in
   Ret ({[ "content" := content;
           "embedding" := embedding;
           "metadata" := dict_get doc "metadata" (PDict ∅) ]} : dict))%py.

Fixpoint prepare_rows (embeddings : list pyval) (j : nat)
    (batch_docs : list dict) : outcome (list dict) :=
  match batch_docs with
  | [] => Ret []
  | doc :: rest =>
      (let? row := prepare_row embeddings j doc in
       let? rows := prepare_rows embeddings (S j) rest in
       Ret (row :: rows))%py
  end.

(** The [for i in range(0, total_docs, batch_size)] loop; [Ret false]
    is the early [return False]. *)
Fixpoint insert_batches (es : embedder) (starts : list Z)
    (documents : list dict) (batch_size : Z) : M world bool :=
  match starts with
  | [] => ret true
  | i :: starts' =>
      let batch_docs := slice documents i (i + batch_size) in
      (let! contents :=
         lift (omap (fun doc => getitem doc "content") batch_docs) in
       let! embeddings := embed es contents in
       let! docs_to_insert := lift (prepare_rows embeddings 0 batch_docs) in
       let! data := execute (Insert "documents" docs_to_insert) in
       if negb (truthy data) then ret false
       else insert_batches es starts' documents batch_size)%py
  end.

Definition batch_insert_documents (documents : list dict) (batch_size : Z)
  : M world bool :=
  match embedding_service with
  | None => raise (ValueError "Embedding service is not initialized. It must be provided during DatabaseService instantiation.")
  | Some es =>
      let total_docs := len documents in
      (let! num_batches :=
         lift (floordiv (total_docs + batch_size - 1) batch_size) in
       try_except
         (let! starts := lift (range0 total_docs batch_size) in
          insert_batches es starts documents batch_size)
         (fun _ => ret false))%py
  end.

End Service.

Section Documents.
Variable client : store.
(** [self.embedding_service.generate_embedding] *)
Variable generate_embedding : string -> outcome vector.

(** [{'content': content, 'embedding': embedding,
     'metadata': metadata or {}}] *)
Definition document_row (content : string) (embedding : vector)
    (metadata : option dict) : dict :=
  {[ "content" := PStr content;
     "embedding" := PVec embedding;
     "metadata" := PDict (default ∅ metadata) ]}.

(** The dictionary handed to [insert] is the one row of the request. *)
Definition insert_document (content : string) (metadata : option dict)
  : M world (option dict) :=
  try_except
    (let! embedding := lift (generate_embedding content) in
     let data := document_row content embedding metadata in
     let! result := execute client (Insert "documents" [data]) in
     if truthy result then
       let! first := lift (index result 0) in
       ret (Some first)
     else ret None)%py
    (fun _ => ret None).

End Documents.

End DatabaseService.

(* ===================================================================== *)
(** ** utils/file_utils.py                                                *)
(* ===================================================================== *)

Module FileUtils.
Import TextUtils.

(** A file as the readers of this module see it: the text that
    [open(...).read()] decodes from it, and the text [pypdf] extracts from
    its pages; [None] where that fails (for a PDF also when it is
    encrypted). *)
Record file := File {
  as_text : option text;
  as_pdf : option text
}.

(** The files by path. *)
Abbreviation file_system := (gmap string file).

(** Any error of [open] or [read] gives [None]. *)
Definition read_text_file (files : file_system) (file_path : string)
  : option text :=
  match files !! file_path with
  | Some f => as_text f
  | None => None
  end.

Definition read_pdf_file (files : file_system) (file_path : string)
  : option text :=
  match files !! file_path with
  | Some f => as_pdf f
  | None => None
  end.

(** The characters of the class of [sanitize_filename]: the two angle
    brackets, the colon, the double quote, the slash, the backslash, the
    bar, the question mark and the star. *)
Definition is_invalid (c : ascii) : bool :=
  existsb (Nat.eqb (code c)) [60; 62; 58; 34; 47; 92; 124; 63; 42]%nat.

(** [re.sub(pattern, '_', filename)] *)
Definition replace_invalid (filename : text) : text :=
  map (fun c => if is_invalid c then "_"%char else c) filename.

(** [filename.strip(' .')] *)
Definition is_space_or_dot (c : ascii) : bool :=
  let n := code c in ((n =? 32) || (n =? 46))%nat.

Fixpoint lstrip_chars (s : text) : text :=
  match s with
  | c :: s' => if is_space_or_dot c then lstrip_chars s' else s
  | [] => []
  end.
Definition rstrip_chars (s : text) : text := rev (lstrip_chars (rev s)).
Definition strip_chars (s : text) : text := rstrip_chars (lstrip_chars s).

(** [p.rfind(c)]: the last index of [c], or -1; [i] is the index of the
    head of [p] and [found] the last index seen so far. *)
Fixpoint rfind_from (i : Z) (c : ascii) (p : text) (found : Z) : Z :=
  match p with
  | [] => found
  | x :: p' => rfind_from (i + 1) c p' (if Ascii.eqb x c then i else found)
  end.
Definition rfind (c : ascii) (p : text) : Z := rfind_from 0 c p (-1).

(** [os.path.splitext] of [posixpath]: the extension starts at the last
    dot, when that dot comes after the last slash and after a character of
    the last component that is no dot. *)
Definition splitext (p : text) : text * text :=
  let sepIndex := rfind "/"%char p in
  let dotIndex := rfind "."%char p in
  if (dotIndex >? sepIndex)
     && existsb (fun c => negb (Ascii.eqb c "."%char))
                (slice p (sepIndex + 1) dotIndex)
  then (slice p 0 dotIndex, slice_from p dotIndex)
  else (p, []).

(** The first three steps of [sanitize_filename]: the replacement, the
    stripping and the default name. *)
Definition clean_name (filename : text) : text :=
  let filename := replace_invalid filename in
  let filename := strip_chars filename in
  if truthy filename then filename else T "untitled".

Definition sanitize_filename (filename : text) : text :=
  let filename := clean_name filename in
  if len filename >? 255 then
    let '(name, ext) := splitext filename in
    let max_name_length := 255 - len ext in
    slice name 0 max_name_length ++ ext
  else filename.

End FileUtils.

(* ===================================================================== *)
(** ** controllers/rag_controller.py                                      *)
(* ===================================================================== *)

Module RAGController.

Abbreviation vector := (list float).

(** [self.conversation_history] *)
Abbreviation history := (list dict).

Definition user_turn (question : string) : dict :=
  {[ "role" := PStr "user"; "content" := PStr question ]}.
Definition assistant_turn (response : string) : dict :=
  {[ "role" := PStr "assistant"; "content" := PStr response ]}.

(** What iterating a generator to its end gives the consumer: the
    fragments yielded, then either exhaustion ([None]) or an exception
    escaping from the generator. *)
Definition stream : Type := list string * option exn.

Definition history_cap : Z := 20.

Definition _update_conversation_history (question response : string)
  : M history unit :=
  fun h =>
    let h := h ++ [user_turn question] in
    let h := h ++ [assistant_turn response] in
    (Ret tt, if len h >? history_cap then slice_from h (- history_cap) else h).

(** The names bound where the body of [stream_response] runs: its
    parameters and locals, then the globals of the module (no builtin is
    called [error_message]). *)
Definition stream_response_names : list string :=
  ["self"; "question"; "use_context"; "similarity_threshold";
   "max_context_docs"; "context_docs"; "query_embedding";
   "response_generator"; "full_response"; "e";
   "List"; "Dict"; "Any"; "Optional"; "Tuple"; "logging"; "os"; "time";
   "EmbeddingService"; "DatabaseService"; "LLMService"; "read_text_file";
   "read_pdf_file"; "chunk_text"; "logger"; "RAGController"].

(** Reading a name that is bound nowhere raises [NameError]. *)
Definition load_name {A} (name : string) (value : A) : outcome A :=
  if existsb (String.eqb name) stream_response_names then Ret value
  else Raise (NameError name).

Section Controller.
(** The three injected services, as the controller calls them. *)
Variable generate_embedding : string -> outcome vector.
Variable search_similar_documents :
  vector -> Z -> float -> outcome (list dict).
Variable generate_response :
  string -> list dict -> history -> outcome string.
Variable llm_stream_response : string -> list dict -> history -> stream.

Definition retrieve_context (question : string) (use_context : bool)
    (similarity_threshold : float) (max_context_docs : Z)
  : M history (list dict) :=
  if use_context then
    (let! query_embedding := lift (generate_embedding question) in
     lift (search_similar_documents query_embedding max_context_docs
                                    similarity_threshold))%py
  else ret [].

Definition error_text (e : exn) : string :=
  "I encountered an error: " ++ exn_str e.

Definition ask_question (question : string) (use_context : bool)
    (similarity_threshold : float) (max_context_docs : Z)
  : M history dict :=
  try_except
    (let! context_docs :=
       retrieve_context question use_context similarity_threshold
                        max_context_docs in
     let! h := get_state in
     let! response := lift (generate_response question context_docs h) in
     let! _ := _update_conversation_history question response in
     ret ({[ "response" := PStr response;
             "context_used" := PBool (len context_docs >? 0);
             "context_docs" := PList (map PDict context_docs) ]} : dict))%py
    (fun e => ret ({[ "response" := PStr (error_text e);
                      "error" := PStr (exn_str e) ]} : dict)).

(** [list(response_generator)]: the fragments, unless the generator
    raised. *)
Definition consume (g : stream) : outcome (list string) :=
  match g with
  | (fragments, None) => Ret fragments
  | (_, Some e) => Raise e
  end.

(** The [try] body of [stream_response] up to its [yield]. *)
Definition stream_body (question : string) (use_context : bool)
    (similarity_threshold : float) (max_context_docs : Z)
  : M history string :=
  (let! context_docs :=
     retrieve_context question use_context similarity_threshold
                      max_context_docs in
   let! h := get_state in
   let! fragments :=
     lift (consume (llm_stream_response question context_docs h)) in
   let full_response := String.concat "" fragments in
   let! _ := _update_conversation_history question full_response in
   ret full_response)%py.

(** The generator [stream_response], run to its end by its consumer.
    The handler yields the error text and then evaluates
    [yield error_message]. *)
Definition stream_response (question : string) (use_context : bool)
    (similarity_threshold : float) (max_context_docs : Z)
  : history -> stream * history :=
  fun h =>
    match stream_body question use_context similarity_threshold
                      max_context_docs h with
    | (Ret full_response, h') => (([full_response], None), h')
    | (Raise e, h') =>
        match load_name "error_message" "" with
        | Ret error_message => (([error_text e; error_message], None), h')
        | Raise e' => (([error_text e], Some e'), h')
        end
    end.

End Controller.

Definition clear_conversation_history : M history unit :=
  fun _ => (Ret tt, []).

(** [self.conversation_history.copy()] *)
Definition get_conversation_history : M history history :=
  fun h => (Ret h, h).

Section Knowledge.
(** The state the database service works on. *)
Context {W : Type}.
(** The two methods of the database service the controller calls;
    [batch_insert_documents] is called with its default [batch_size]. *)
Variable insert_document : string -> option dict -> M W (option dict).
Variable batch_insert_documents : list dict -> M W bool.

(** Truth value of an [Optional[Dict]]: [None] and the empty dictionary
    are false. *)
Definition truthy_row (result : option dict) : bool :=
  match result with
  | Some row => negb (bool_decide (row = ∅))
  | None => false
  end.

Definition add_knowledge (content : string) (metadata : option dict)
  : M W (bool * Z) :=
  try_except
    (let! result := insert_document content metadata in
     if truthy_row result then ret (true, 1) else ret (false, 0))%py
    (fun _ => ret (false, 0)).

Definition batch_add_knowledge (documents : list dict) : M W (bool * Z) :=
  if negb (truthy documents) then ret (true, 0)
  else
    try_except
      (let! success := batch_insert_documents documents in
       if success then ret (true, len documents) else ret (false, 0))%py
      (fun _ => ret (false, 0)).

End Knowledge.

(** [str.endswith] *)
Definition endswith (s suffix : string) : bool :=
  let n := String.length s in
  let k := String.length suffix in
  (k <=? n)%nat && String.eqb (String.substring (n - k) k s) suffix.

(** [os.path.basename] of [posixpath]: what follows the last slash;
    [tail] is what follows the last slash seen so far. *)
Fixpoint basename_from (tail p : string) : string :=
  match p with
  | EmptyString => tail
  | String c rest =>
      if Ascii.eqb c "/"%char then basename_from rest rest
      else basename_from tail rest
  end.
Definition basename (p : string) : string := basename_from p p.

(** [[{"content": chunk, "metadata": {"source": source_name}}
      for chunk in chunks]] *)
Definition file_documents (chunks : list (list ascii)) (source_name : string)
  : list dict :=
  map (fun chunk =>
         ({[ "content" := PStr (string_of_list_ascii chunk);
             "metadata" := PDict {[ "source" := PStr source_name ]} ]} : dict))
      chunks.

(** What [add_file_knowledge] works on: the state of the database service
    and the files. *)
Record system (W : Type) := System {
  database : W;
  files : FileUtils.file_system
}.
Arguments System {W}.
Arguments database {W}.
Arguments files {W}.

Section FileKnowledge.
Context {W : Type}.
Variable batch_insert_documents : list dict -> M W bool.
(** The exception [os.remove] raises on a path, if it does. *)
Variable remove_error : string -> option exn.

Definition on_database {A} (m : M W A) : M (system W) A :=
  fun s =>
    let '(r, w) := m (database s) in
    (r, {| database := w; files := files s |}).

(** [if os.path.exists(file_path): os.remove(file_path)] *)
Definition remove_if_exists (file_path : string) : M (system W) unit :=
  fun s =>
    match files s !! file_path with
    | Some _ =>
        match remove_error file_path with
        | Some e => (Raise e, s)
        | None =>
            (Ret tt, {| database := database s;
                        files := delete file_path (files s) |})
        end
    | None => (Ret tt, s)
    end.

(** The [finally] clause: a failure of the removal is logged and
    dropped. *)
Definition cleanup (file_path : string) : M (system W) unit :=
  try_except (remove_if_exists file_path) (fun _ => ret tt).

(** The outer [option] is [None] when the fuel of [chunk_text] runs out.
    The value computed by the [try] block is returned once the [finally]
    clause has run. *)
Definition add_file_knowledge (fuel : nat) (file_path : string)
  : system W -> option (outcome (bool * Z) * system W) :=
  fun s =>
    let finally (r : outcome (bool * Z) * system W) :=
      let '(result, s1) := r in (result, snd (cleanup file_path s1)) in
    let read :=
      if endswith file_path ".txt" || endswith file_path ".md"
      then Some (FileUtils.read_text_file (files s) file_path)
      else if endswith file_path ".pdf"
      then Some (FileUtils.read_pdf_file (files s) file_path)
      else None in
    match read with
    | None => Some (finally (Ret (false, 0), s))
    | Some None | Some (Some []) => Some (finally (Ret (false, 0), s))
    | Some (Some content) =>
        match TextUtils.chunk_text fuel content 1000 100 true with
        | None => None
        | Some chunks =>
            let source_name := basename file_path in
            let documents := file_documents chunks source_name in
            Some (finally
                    (try_except
                       (on_database
                          (batch_add_knowledge batch_insert_documents
                                               documents))
                       (fun _ => ret (false, 0)) s))
        end
    end.

End FileKnowledge.

End RAGController.

(* ===================================================================== *)
(** ** config/performance_config.py                                       *)
(* ===================================================================== *)

Module PerformanceConfig.

(** The attributes the body of the class [PerformanceConfig] binds.
    [get_ollama_options] and [get_system_info] are functions of the module,
    not of the class. *)
Definition class_attributes : list string :=
  ["CPU_PHYSICAL_CORES"; "OMP_NUM_THREADS"; "MKL_NUM_THREADS"].

(** [PerformanceConfig.<name>]; [value] is what the attribute holds where
    the class has it. *)
Definition getattr {A} (name : string) (value : A) : outcome A :=
  if existsb (String.eqb name) class_attributes then Ret value
  else Raise (Exn "AttributeError"
                  ("type object 'PerformanceConfig' has no attribute '"
                   ++ name ++ "'")).

End PerformanceConfig.

(* ===================================================================== *)
(** ** services/llm_service.py                                            *)
(* ===================================================================== *)

Module LLMService.

Definition class_name : string := "LLMService".

(** The attributes of an instance: those [__init__] stores and the methods
    of the class. *)
Definition attributes : list string :=
  ["model_name"; "host"; "client"; "system_prompt";
   "__init__"; "_get_system_prompt"; "_get_client"; "generate_response";
   "_build_messages"; "stream_response"; "get_model_info"].

(** [self.<name>]; [value] is what the attribute holds where the instance
    has it. *)
Definition getattr {A} (name : string) (value : A) : outcome A :=
  if existsb (String.eqb name) attributes then Ret value
  else Raise (AttributeError class_name name).

(** What the service asks of the [ollama] library. *)
Inductive request : Type :=
| NewClient (host : string)
| ListModels
| Chat (model : string) (messages : list dict) (stream : bool)
       (options : dict).

(** The library and the server behind it; an answer may depend on the
    requests made before.  [list_models] is [client.list()['models']],
    [chat] is [response['message']['content']] of a chat without streaming,
    and [chat_stream] gives, for each chunk of a streamed chat, the
    [content] of its message where it has one, and the exception that ended
    the stream, if any. *)
Record ollama := Ollama {
  new_client : list request -> string -> outcome unit;
  list_models : list request -> outcome (list dict);
  chat : list request -> string -> list dict -> dict -> outcome string;
  chat_stream : list request -> string -> list dict -> dict
                -> list (option string) * option exn
}.

(** [self.client] ([None] until the first successful use) and the requests
    made so far. *)
Record service := Service {
  client : option unit;
  requests : list request
}.

Definition ConnectionError (msg : string) : exn := Exn "ConnectionError" msg.

Definition newline : string := String (ascii_of_nat 10) EmptyString.

Definition system_turn (system_prompt : string) : dict :=
  {[ "role" := PStr "system"; "content" := PStr system_prompt ]}.
Definition user_turn (content : string) : dict :=
  {[ "role" := PStr "user"; "content" := PStr content ]}.

Definition apology (e : exn) : string :=
  "I apologize, but I encountered an error: " ++ exn_str e.
Definition stream_error (e : exn) : string := "Error: " ++ exn_str e.
Definition not_connected : string :=
  "Error: Could not connect to the LLM service.".

(** The fragments a stream of chunks yields:
    [if 'content' in chunk['message']: yield chunk['message']['content']]. *)
Fixpoint fragments_of (chunks : list (option string)) : list string :=
  match chunks with
  | [] => []
  | Some content :: rest => content :: fragments_of rest
  | None :: rest => fragments_of rest
  end.

Section Service.
Variable server : ollama.
(** [self.model_name], [self.host], [self.system_prompt] *)
Variable model_name host system_prompt : string.
(** The formatting of the runtime: [f"{similarity:.3f}"], which fails on a
    value that is no number, and [f"{content}"]. *)
Variable format_3f : pyval -> outcome string.
Variable str : pyval -> string.
(** What the attributes that the code reads but no class defines would
    hold, were they there. *)
Variable _build_prompt : string -> list dict -> list dict -> outcome string.
Variable MAX_CONVERSATION_HISTORY : Z.
Variable get_ollama_options : bool -> outcome dict.

Definition send {A} (r : request) (answer : list request -> A)
  : service -> A * service :=
  fun s =>
    (answer (requests s),
     {| client := client s; requests := requests s ++ [r] |}).

Definition set_client (c : option unit) : M service unit :=
  fun s => (Ret tt, {| client := c; requests := requests s |}).

(** [[m['name'] for m in self.client.list()['models']]] *)
Definition model_names : M service (list pyval) :=
  (let! models := send ListModels (list_models server) in
   lift (omap (fun m => getitem m "name") models))%py.

(** The list of models is asked for twice on the first use: once for the
    check and once for the log line. *)
Definition _get_client : M service (option unit) :=
  (let! s := get_state in
   let! _ :=
     match client s with
     | Some _ => ret tt
     | None =>
         try_except
           (let! _ := send (NewClient host)
                           (fun past => new_client server past host) in
            let! _ := set_client (Some tt) in
            let! available_models := model_names in
            let! _ := model_names in
            ret tt)
           (fun _ =>
              let! _ := set_client None in
              raise (ConnectionError
                       ("Failed to connect to Ollama at " ++ host)))
     end in
   let! s := get_state in
   ret (client s))%py.

(** [f"{i}. (Similarity: {similarity:.3f}) {content}\n"] *)
Definition context_line (i : nat) (doc : dict) : outcome string :=
  let content := dict_get doc "content" (PStr "") in
  let similarity := dict_get doc "similarity" (PInt 0) in
  (let? shown := format_3f similarity in
   Ret (pretty i ++ ". (Similarity: " ++ shown ++ ") " ++ str content
        ++ newline)%string)%py.

(** [for i, doc in enumerate(context, 1): context_str += ...] *)
Fixpoint context_lines (i : nat) (context : list dict) (context_str : string)
  : outcome string :=
  match context with
  | [] => Ret context_str
  | doc :: rest =>
      (let? line := context_line i doc in
       context_lines (S i) rest (context_str ++ line)%string)%py
  end.

Definition _build_messages (user_message : string)
    (context conversation_history : list dict) : outcome (list dict) :=
  let messages := [system_turn system_prompt] in
  let messages :=
    if truthy conversation_history
    then messages ++ slice_from conversation_history (- 6)
    else messages in
  (let? user_prompt :=
     if truthy context then
       let? context_str :=
         context_lines 1 context
           (newline ++ "--- Relevant Information from Knowledge Base ---"
            ++ newline)%string in
       let context_str :=
         (context_str ++ "--- End of Relevant Information ---"
          ++ newline)%string in
       Ret (context_str ++ newline ++ "User question: " ++ user_message)%string
     else Ret user_message in
   Ret (messages ++ [user_turn user_prompt]))%py.

(** [temperature] and [max_tokens] are not read by the body. *)
Definition generate_response (user_message : string)
    (context conversation_history : list dict) : M service string :=
  try_except
    (let! build := lift (getattr "_build_prompt" _build_prompt) in
     let! prompt := lift (build user_message context conversation_history) in
     let messages := [system_turn system_prompt] in
     let! messages :=
       (if truthy conversation_history then
          let! n := lift (PerformanceConfig.getattr
                            "MAX_CONVERSATION_HISTORY"
                            MAX_CONVERSATION_HISTORY) in
          ret (messages ++ slice_from conversation_history (- n))
        else ret messages) in
     let messages := messages ++ [user_turn prompt] in
     let! c := _get_client in
     match c with
     | None => ret not_connected
     | Some _ =>
         let! options_of :=
           lift (PerformanceConfig.getattr "get_ollama_options"
                                           get_ollama_options) in
         let! options := lift (options_of false) in
         send (Chat model_name messages false options)
              (fun past => chat server past model_name messages options)
     end)%py
    (fun e => ret (apology e)).

(** The [try] body of [stream_response]: the fragments yielded and the
    exception that ended it, if any. *)
Definition stream_body (user_message : string)
    (context conversation_history : list dict)
  : service -> (list string * option exn) * service :=
  fun s =>
    match (let! messages :=
             lift (_build_messages user_message context
                                   conversation_history) in
           let! c := _get_client in
           ret (messages, c))%py s with
    | (Raise e, s') => (([], Some e), s')
    | (Ret (_, None), s') => (([not_connected], None), s')
    | (Ret (messages, Some _), s') =>
        match (let? options_of :=
                 PerformanceConfig.getattr "get_ollama_options"
                                           get_ollama_options in
               options_of true)%py with
        | Raise e => (([], Some e), s')
        | Ret options =>
            let '((chunks, failure), s'') :=
              send (Chat model_name messages true options)
                   (fun past => chat_stream server past model_name messages
                                            options) s' in
            ((fragments_of chunks, failure), s'')
        end
    end.

(** The generator run to its end: the handler yields the error text after
    whatever was yielded before. *)
Definition stream_response (user_message : string)
    (context conversation_history : list dict)
  : service -> (list string * option exn) * service :=
  fun s =>
    match stream_body user_message context conversation_history s with
    | ((fragments, None), s') => ((fragments, None), s')
    | ((fragments, Some e), s') =>
        ((fragments ++ [stream_error e], None), s')
    end.

End Service.

End LLMService.

(* ===================================================================== *)
(** ** utils/api_optimizer.py                                             *)
(* ===================================================================== *)

Module ApiOptimizer.

(** One cached item: [{"response": response, "timestamp": time.time()}],
    over the type [R] of what the endpoints hand in. *)
Record item (R : Type) := Item {
  response : R;
  timestamp : float
}.
Arguments Item {R}.
Arguments response {R}.
Arguments timestamp {R}.

(** [ResponseCache]: [self.cache], [self.max_size] and [self.ttl]; the
    [ttl], an [int] of seconds in the source, is held as the float it is
    compared with. *)
Record response_cache (R : Type) := ResponseCache {
  cache : gmap string (item R);
  max_size : Z;
  ttl : float
}.
Arguments ResponseCache {R}.
Arguments cache {R}.
Arguments max_size {R}.
Arguments ttl {R}.

(** The part of a request the cache key is made of. *)
Record request := Request {
  method : string;
  path : string;
  query : string
}.

Definition get_cache_key (r : request) : string :=
  (method r ++ ":" ++ path r ++ ":" ++ query r)%string.

Section Cache.
Context {R : Type}.

(** [time.time() - cached_item["timestamp"] < self.ttl] *)
Definition fresh (c : response_cache R) (now : float) (cached_item : item R)
  : bool :=
  (now - timestamp cached_item <? ttl c)%float.

(** [current_time - value.get("timestamp", 0) >= self.ttl] *)
Definition expired (c : response_cache R) (current_time : float)
    (value : item R) : bool :=
  (ttl c <=? current_time - timestamp value)%float.

(** [now] is the reading of the clock. *)
Definition get (now : float) (key : string) (c : response_cache R)
  : option R * response_cache R :=
  match cache c !! key with
  | Some cached_item =>
      if fresh c now cached_item then (Some (response cached_item), c)
      else (None, {| cache := delete key (cache c);
                     max_size := max_size c; ttl := ttl c |})
  | None => (None, c)
  end.

(** Every expired key is popped. *)
Definition _cleanup_expired (current_time : float) (c : response_cache R)
  : response_cache R :=
  {| cache := filter (fun kv => expired c current_time (snd kv) = false)
                     (cache c);
     max_size := max_size c; ttl := ttl c |}.

(** The clock is read by the cleanup, when that runs, and then for the
    timestamp. *)
Definition set (cleanup_time now : float) (key : string) (response : R)
    (c : response_cache R) : response_cache R :=
  let c := if Z.of_nat (size (cache c)) >=? max_size c
           then _cleanup_expired cleanup_time c else c in
  {| cache := <[key := Item response now]> (cache c);
     max_size := max_size c; ttl := ttl c |}.

(** [APIOptimizer]: the cache and the two counters of [self.metrics] the
    cache operations write. *)
Record api_optimizer := APIOptimizer {
  response_cache_of : response_cache R;
  cache_hits : Z;
  cache_misses : Z
}.

(** The truth value of a cached response. *)
Variable truth : R -> bool.

Definition cache_get (now : float) (r : request) (o : api_optimizer)
  : option R * api_optimizer :=
  let cache_key := get_cache_key r in
  let '(cached_response, rc) := get now cache_key (response_cache_of o) in
  match cached_response with
  | Some found =>
      if truth found
      then (Some found,
            {| response_cache_of := rc;
               cache_hits := cache_hits o + 1;
               cache_misses := cache_misses o |})
      else (None,
            {| response_cache_of := rc;
               cache_hits := cache_hits o;
               cache_misses := cache_misses o + 1 |})
  | None =>
      (None,
       {| response_cache_of := rc;
          cache_hits := cache_hits o;
          cache_misses := cache_misses o + 1 |})
  end.

Definition cache_set (cleanup_time now : float) (r : request) (response : R)
    (o : api_optimizer) : api_optimizer :=
  let cache_key := get_cache_key r in
  {| response_cache_of :=
       set cleanup_time now cache_key response (response_cache_of o);
     cache_hits := cache_hits o;
     cache_misses := cache_misses o |}.

End Cache.

End ApiOptimizer.

(* ===================================================================== *)
(** ** Vocabulary of the statements                                       *)
(* ===================================================================== *)

(** The last [n] elements of a list. *)
Definition lastn {A} (n : nat) (l : list A) : list A := drop (length l - n) l.

(** The length of the longest sentence of a list. *)
Definition longest (sentences : list (list ascii)) : Z :=
  fold_right (fun s m => Z.max (len s) m) 0 sentences.

(** The length no chunk of the sentence loop exceeds: [chunk_size] and the
    joining space, or the overlap, the space and the longest sentence. *)
Definition chunk_bound (chunk_size overlap : Z) (sentences : list (list ascii)) : Z :=
  Z.max (chunk_size + 1) (Z.max overlap 0 + 1 + longest sentences).

(** A window of the character loop: a contiguous piece of the text of at
    least one and at most [chunk_size] characters. *)
Definition is_window (t : list ascii) (chunk_size : Z) (c : list ascii) : Prop :=
  0 < len c <= chunk_size /\ exists pre post, t = pre ++ c ++ post.

(** No whitespace other than single spaces; [prev_space] tells that the
    character before was a space. *)
Fixpoint single_spaced (prev_space : bool) (t : list ascii) : bool :=
  match t with
  | [] => true
  | c :: t' =>
      if TextUtils.is_space c
      then bool_decide (c = " "%char) && negb prev_space && single_spaced true t'
      else single_spaced false t'
  end.

(** How often [w] occurs in a list of words. *)
Definition occurrences (w : list ascii) (words : list (list ascii)) : Z :=
  len (List.filter (TextUtils.text_eqb w) words).

Definition batch_failure : exn :=
  RuntimeError "Failed to generate batch embeddings".

Module CacheModel.
Import EmbeddingService.

(** An object that does have the two cache methods the batch operation
    calls: a dictionary from text to vector, never evicted. *)
Definition dict_cache : cache_object (gmap string vector) :=
  {| obj_class := "DictCache";
     get_cached_embedding := Some (fun text c => c !! text);
     cache_embedding := Some (fun text v c => <[text := v]> c);
     optimize_gc := Some (fun c => c) |}.

(** A model that embeds every text on its own, by [f]. *)
Definition pointwise (f : string -> vector) : encoder :=
  fun _ call => Ret (map f (fst call)).

(** The texts a cache [c] misses, and their positions counted from [i]. *)
Fixpoint uncached_texts (c : gmap string vector) (texts : list string)
  : list string :=
  match texts with
  | [] => []
  | t :: rest =>
      match c !! t with
      | Some _ => uncached_texts c rest
      | None => t :: uncached_texts c rest
      end
  end.

Fixpoint uncached_indices (c : gmap string vector) (i : nat)
    (texts : list string) : list nat :=
  match texts with
  | [] => []
  | t :: rest =>
      match c !! t with
      | Some _ => uncached_indices c (S i) rest
      | None => i :: uncached_indices c (S i) rest
      end
  end.

(** The vector a call must give for [t]: the cached one, or a fresh one. *)
Definition embedding_of (c : gmap string vector) (f : string -> vector)
    (t : string) : vector :=
  match c !! t with
  | Some v => v
  | None => f t
  end.

(** The cache after the fresh vectors of [texts] were written to it. *)
Definition store_all (f : string -> vector) (c : gmap string vector)
    (texts : list string) : gmap string vector :=
  fold_left (fun c t => <[t := f t]> c) texts c.

End CacheModel.

Module StoreTrace.
Import DatabaseService.


Definition is_rpc (c : call) : bool :=
  match c with Rpc _ _ => true | _ => false end.




(** The index at which each batch starts, and the batches themselves. *)
Definition batch_starts (total batch_size : Z) : list Z :=
  map (fun k => Z.of_nat k * batch_size) (seq 0 (range_count total batch_size)).

Definition batches {A} (l : list A) (batch_size : Z) : list (list A) :=
  map (fun i => slice l i (i + batch_size)) (batch_starts (len l) batch_size).

Definition inserted_rows (ev : event) : list dict :=
  match fst ev with
  | Insert _ rows => rows
  | _ => []
  end.

(** [row] is the row sent to the store for the document [doc]. *)
Definition row_of (row doc : dict) : Prop :=
  is_Some (row !! "content")
  /\ row !! "content" = doc !! "content"
  /\ is_Some (row !! "embedding")
  /\ row !! "metadata" = Some (dict_get doc "metadata" (PDict ∅)).

(** [ev] is the insert of the batch [batch] into the table [documents]. *)
Definition inserts_batch (ev : event) (batch : list dict) : Prop :=
  exists rows, fst ev = Insert "documents" rows /\ Forall2 row_of rows batch.






(** Stores used to exercise the statements. *)
Definition doc1 : dict :=
  {[ "id" := PInt 1; "content" := PStr "alpha";
     "created_at" := PStr "2024-01-01" ]}.
Definition doc2 : dict := {[ "id" := PInt 2; "content" := PStr "beta" ]}.

Definition api_error : exn := Exn "APIError" "function not found".



(** Ranked search answers the first request with nothing and raises on
    every later one; the table holds two documents. *)
Definition retry_down_store : store :=
  fun evs c =>
    match c with
    | Rpc _ _ => if truthy evs then Raise api_error else Ret []
    | Select _ _ limit => Ret (take (Z.to_nat limit) [doc1; doc2])
    | Insert _ rows => Ret rows
    end.

Definition is_insert (c : call) : bool :=
  match c with Insert _ _ => true | _ => false end.

(** Every insert is acknowledged except the second one, which comes back
    without data. *)
Definition second_insert_unconfirmed : store :=
  fun evs c =>
    match c with
    | Insert _ rows =>
        if (length (List.filter is_insert (map fst evs)) =? 1)%nat
        then Ret [] else Ret rows
    | _ => Ret []
    end.

(** Every request is acknowledged. *)
Definition accepting_store : store :=
  fun _ c => match c with Insert _ rows => Ret rows | _ => Ret [] end.

(** An embedding service that answers every content with a unit vector. *)
Definition unit_embedder : embedder :=
  fun _ contents => Ret (map (fun _ => PVec [1%float]) contents).

(** The text of a content value. *)
Definition text_of (v : pyval) : string :=
  match v with PStr s => s | _ => "" end.

(** The wiring of [api.py]: the [DatabaseService] is given the repository's
    [EmbeddingService], whose batch operation runs with its default
    [batch_size] of 32 on the contents. *)
Definition repository_embedder (m : EmbeddingService.encoder) : embedder :=
  fun calls contents =>
    match fst (EmbeddingService.generate_embeddings_batch
                 (Some m) EmbeddingService.memory_optimizer
                 (map text_of contents) 32
                 (EmbeddingService.Env tt [])) with
    | Ret vectors =>
        Ret (map (fun v => match v with Some x => PVec x | None => PNone end)
                 vectors)
    | Raise e => Raise e
    end.

Definition numbered_documents (n : nat) : list dict :=
  map (fun k => ({[ "content" := PStr ("doc" ++ pretty k) ]} : dict)) (seq 0 n).

End StoreTrace.

Module ControllerRuns.
Import RAGController.

(** The arguments of one [ask_question] call. *)
Record ask_args := Ask {
  ask_text : string;
  ask_use_context : bool;
  ask_threshold : float;
  ask_max_docs : Z
}.

(** The turns of a list of (question, response) exchanges, in order. *)
Definition transcript (exchanges : list (string * string)) : history :=
  flat_map (fun x => [user_turn (fst x); assistant_turn (snd x)]) exchanges.

(** A returned dictionary reports success when it carries no ["error"]
    key; the exchange is then the question with the ["response"] text. *)
Definition exchange_of (question : string) (result : dict)
  : option (string * string) :=
  match result !! "error", result !! "response" with
  | None, Some (PStr response) => Some (question, response)
  | _, _ => None
  end.

(** The dictionary of a successful call and that of a failed one. *)
Definition answer_of (response : string) (context_docs : list dict) : dict :=
  {[ "response" := PStr response;
     "context_used" := PBool (len context_docs >? 0);
     "context_docs" := PList (map PDict context_docs) ]}.

Definition error_of (e : exn) : dict :=
  {[ "response" := PStr ("I encountered an error: " ++ exn_str e);
     "error" := PStr (exn_str e) ]}.

Section Runs.
Variable generate_embedding : string -> outcome vector.
Variable search_similar_documents :
  vector -> Z -> float -> outcome (list dict).
Variable generate_response :
  string -> list dict -> history -> outcome string.

(** What the two retrieval services give for a call: the documents found
    for the embedding of the question, or the exception one of them
    raised; without [use_context] neither is asked. *)
Definition retrieved (a : ask_args) : outcome (list dict) :=
  if ask_use_context a then
    match generate_embedding (ask_text a) with
    | Ret query_embedding =>
        search_similar_documents query_embedding (ask_max_docs a)
                                 (ask_threshold a)
    | Raise e => Raise e
    end
  else Ret [].


Definition ask (a : ask_args) : M history dict :=
  ask_question generate_embedding search_similar_documents
               generate_response
               (ask_text a) (ask_use_context a) (ask_threshold a)
               (ask_max_docs a).

(** A sequence of [ask_question] calls on one controller: the successful
    exchanges, in order, and the final history. *)
Fixpoint run_asks (calls : list ask_args) (h : history)
  : list (string * string) * history :=
  match calls with
  | [] => ([], h)
  | a :: rest =>
      match ask a h with
      | (Ret result, h') =>
          let '(done, h'') := run_asks rest h' in
          (match exchange_of (ask_text a) result with
           | Some x => x :: done
           | None => done
           end, h'')
      | (Raise _, h') => run_asks rest h'
      end
  end.
End Runs.
End ControllerRuns.

Module KnowledgeRuns.
Import DatabaseService.

(** [self.database_service.batch_insert_documents(documents)]: the batch
    size is left at its default of 50. *)
Definition batch_insert_default (client : store) (es : embedder)
  : list dict -> M world bool :=
  fun documents => batch_insert_documents client (Some es) documents 50.

(** A store that acknowledges every insert with a single empty row. *)
Definition empty_row_store : store :=
  fun _ c => match c with Insert _ _ => Ret [∅] | _ => Ret [] end.

Definition source_metadata (source : string) : dict :=
  {[ "source" := PStr source ]}.

End KnowledgeRuns.

Module LLMRuns.
Import LLMService.

Definition is_chat (r : request) : bool :=
  match r with Chat _ _ _ _ => true | _ => false end.

(** The requests a call added. *)
Definition new_requests (s s' : service) : list request :=
  drop (length (requests s)) (requests s').

Definition missing_build_prompt : exn :=
  AttributeError class_name "_build_prompt".

Definition missing_get_ollama_options : exn :=
  Exn "AttributeError"
      "type object 'PerformanceConfig' has no attribute 'get_ollama_options'".

Definition connection_failure (host : string) : exn :=
  ConnectionError ("Failed to connect to Ollama at " ++ host).

(** A server that is up and holds the configured model. *)
Definition local_server : ollama :=
  {| new_client := fun _ _ => Ret tt;
     list_models := fun _ => Ret [({[ "name" := PStr "llama3.2:3b" ]} : dict)];
     chat := fun _ _ _ _ => Ret "Hello.";
     chat_stream := fun _ _ _ _ => ([Some "Hel"; None; Some "lo."], None) |}.

End LLMRuns.

Module ControllerOps.
Import RAGController ControllerRuns.

(** What a client of the controller can do to its conversation. *)
Inductive op : Type :=
| AskOp (a : ask_args)
| StreamOp (a : ask_args)
| ClearOp
| ReadOp.

Section Ops.
Variable generate_embedding : string -> outcome vector.
Variable search_similar_documents :
  vector -> Z -> float -> outcome (list dict).
Variable generate_response :
  string -> list dict -> history -> outcome string.
Variable llm_stream_response : string -> list dict -> history -> stream.

(** The history after one operation; a stream is run to its end. *)
Definition run_op (h : history) (o : op) : history :=
  match o with
  | AskOp a =>
      snd (ask_question generate_embedding search_similar_documents
             generate_response (ask_text a) (ask_use_context a)
             (ask_threshold a) (ask_max_docs a) h)
  | StreamOp a =>
      snd (stream_response generate_embedding search_similar_documents
             llm_stream_response (ask_text a) (ask_use_context a)
             (ask_threshold a) (ask_max_docs a) h)
  | ClearOp => snd (clear_conversation_history h)
  | ReadOp => snd (get_conversation_history h)
  end.

Definition run_ops (ops : list op) (h : history) : history :=
  fold_left run_op ops h.
End Ops.

(** A history made of whole exchanges, at most ten of them. *)
Definition whole_exchanges (h : history) : Prop :=
  exists exchanges, h = transcript exchanges /\ (length exchanges <= 10)%nat.

End ControllerOps.

(* ===================================================================== *)
(** ** Properties of [chunk_text]                                         *)
(* ===================================================================== *)

Section ChunkText.
Import TextUtils.

Lemma next_start_step (chunk_size overlap start : Z) :
  0 <= overlap ->
  next_start chunk_size overlap start = start + (chunk_size - overlap).
Proof.
  intros Hov. unfold next_start.
  destruct (overlap >? 0) eqn:E; lia.
Qed.

Lemma char_loop_enough_fuel (t : text) (chunk_size overlap : Z) :
  0 <= overlap < chunk_size ->
  forall fuel start chunks,
    0 <= start ->
    (Z.to_nat (len t - start) < fuel)%nat ->
    exists r, char_loop fuel t chunk_size overlap start chunks = Some r.
Proof.
  intros Hov fuel. induction fuel as [|fuel IH]; intros start chunks Hs Hf.
  - lia.
  - simpl. destruct (start <? len t) eqn:E.
    + apply IH.
      * rewrite next_start_step by lia. lia.
      * rewrite next_start_step by lia.
        apply Z.ltb_lt in E. lia.
    + eauto.
Qed.

Lemma char_loop_more_fuel (t : text) (chunk_size overlap : Z) :
  forall fuel start chunks r,
    char_loop fuel t chunk_size overlap start chunks = Some r ->
    forall fuel', (fuel <= fuel')%nat ->
      char_loop fuel' t chunk_size overlap start chunks = Some r.
Proof.
  induction fuel as [|fuel IH]; intros start chunks r H fuel' Hle.
  - discriminate.
  - destruct fuel' as [|fuel']; [lia|].
    simpl in *. destruct (start <? len t).
    + eapply IH; [eassumption | lia].
    + assumption.
Qed.

Lemma char_loop_stuck (t : text) (chunk_size overlap : Z) :
  0 <= overlap -> chunk_size <= overlap ->
  forall fuel start chunks,
    start < len t -> start <= 0 ->
    char_loop fuel t chunk_size overlap start chunks = None.
Proof.
  intros Hov Hle fuel. induction fuel as [|fuel IH]; intros start chunks Hlt H0.
  - reflexivity.
  - simpl. apply Z.ltb_lt in Hlt as E. rewrite E.
    apply IH; rewrite next_start_step by lia; lia.
Qed.

(** C10.  With [preserve_sentences] false and [0 <= overlap < chunk_size],
    every iteration of the character loop moves the window start forward
    by [chunk_size - overlap > 0], and [chunk_text] returns: any fuel above
    the length of the text gives the same list of chunks.  The bound on
    [overlap] is needed: with [chunk_size <= overlap] the start never
    moves forward and the loop runs for ever on any text that reaches it. *)
Theorem chunk_text_chars_terminates (t : text) (chunk_size overlap : Z) :
  0 <= overlap ->
  (overlap < chunk_size ->
     (forall start,
         next_start chunk_size overlap start = start + (chunk_size - overlap)
         /\ start < next_start chunk_size overlap start)
     /\ exists chunks, forall fuel,
          (length t < fuel)%nat ->
          chunk_text fuel t chunk_size overlap false = Some chunks)
  /\ (chunk_size <= overlap ->
        (forall start, next_start chunk_size overlap start <= start)
        /\ (t <> [] -> chunk_size < len t ->
            forall fuel, chunk_text fuel t chunk_size overlap false = None)).
Proof.
  intros Hov. split.
  - intros Hlt. split.
    + intros start. rewrite next_start_step by lia. lia.
    + destruct (char_loop_enough_fuel t chunk_size overlap (conj Hov Hlt)
                  (S (length t)) 0 []) as [r Hr]; [lia | unfold len; lia |].
      exists (if negb (truthy t) || (len t <=? chunk_size)
              then (if truthy t then [t] else [])
              else List.filter (fun chunk => truthy (strip chunk)) r).
      intros fuel Hf. unfold chunk_text.
      destruct (negb (truthy t) || (len t <=? chunk_size)); [reflexivity|].
      rewrite (char_loop_more_fuel _ _ _ _ _ _ _ Hr fuel) by lia.
      reflexivity.
  - intros Hle. split.
    + intros start. rewrite next_start_step by lia. lia.
    + intros Hne Hlen fuel. unfold chunk_text.
      destruct t as [|c t']; [congruence|].
      simpl truthy. simpl negb. rewrite orb_false_l.
      apply Z.leb_gt in Hlen as E. rewrite E.
      rewrite char_loop_stuck; [reflexivity | lia | lia | | lia].
      unfold len. simpl. lia.
Qed.

Lemma chunk_text_chars_terminates_witness :
  (exists chunks, forall fuel,
      (length (T "abcdefghijklmnopqrstuvwxyz") < fuel)%nat ->
      chunk_text fuel (T "abcdefghijklmnopqrstuvwxyz") 10 3 false = Some chunks)
  /\ (forall fuel, chunk_text fuel (T "abcdefghijklmnopqrstuvwxyz") 10 10 false = None).
Proof.
  split.
  - apply (chunk_text_chars_terminates (T "abcdefghijklmnopqrstuvwxyz") 10 3);
      lia.
  - apply (chunk_text_chars_terminates (T "abcdefghijklmnopqrstuvwxyz") 10 10).
    + lia.
    + lia.
    + discriminate.
    + vm_compute. reflexivity.
Defined.

Example chunk_text_chars_example :
  chunk_text 27 (T "abcdefghijklmnopqrstuvwxyz") 10 3 false
  = Some [T "abcdefghij"; T "hijklmnopq"; T "opqrstuvwx"; T "vwxyz"].
Proof. vm_compute. reflexivity. Qed.

(** C5.  On ["aaaa. bbbb. cccccc."] with [chunk_size = 10] and no overlap
    the sentences are 5, 5 and 7 characters long, none above [chunk_size],
    yet the first chunk returned has 11 characters: the test
    [len(current_chunk) + len(sentence) > chunk_size] leaves out the space
    that joins the two sentences. *)
Theorem chunk_text_sentences_exceed_chunk_size :
  split_into_sentences (T "aaaa. bbbb. cccccc.")
    = [T "aaaa."; T "bbbb."; T "cccccc."]
  /\ (forall fuel,
        chunk_text fuel (T "aaaa. bbbb. cccccc.") 10 0 true
        = Some [T "aaaa. bbbb."; T "cccccc."])
  /\ len (T "aaaa. bbbb.") = 11.
Proof.
  split; [vm_compute; reflexivity|].
  split; [intros fuel; vm_compute; reflexivity|].
  reflexivity.
Qed.

(** With an overlap the seeded chunk is longer still: 3 characters of the
    closed chunk, a space and the 9 characters of the next sentence. *)
Example chunk_text_overlap_example :
  chunk_text 0 (T "aaaaaaaa. bbbbbbbb.") 10 3 true
  = Some [T "aaaaaaaa."; T "aa. bbbbbbbb."].
Proof. vm_compute. reflexivity. Qed.

(** The degenerate case of the spec: one sentence longer than
    [chunk_size] comes back whole. *)
Example chunk_text_long_sentence_example :
  chunk_text 0 (T "abcdefghijklmnopqrstuvwxyz") 10 3 true
  = Some [T "abcdefghijklmnopqrstuvwxyz"].
Proof. vm_compute. reflexivity. Qed.

Lemma lstrip_length (s : text) : (length (lstrip s) <= length s)%nat.
Proof.
  induction s as [|c s IH]; simpl; [lia|].
  destruct (is_space c); simpl; lia.
Qed.

Lemma strip_length (s : text) : len (strip s) <= len s.
Proof.
  unfold strip, rstrip, len. rewrite length_rev.
  pose proof (lstrip_length (rev (lstrip s))) as H1.
  pose proof (lstrip_length s) as H2.
  rewrite length_rev in H1. lia.
Qed.

Lemma longest_nonneg (sentences : list text) : 0 <= longest sentences.
Proof. induction sentences as [|s l IH]; simpl; lia. Qed.

Lemma longest_bound (sentences : list text) :
  Forall (fun s => len s <= longest sentences) sentences.
Proof.
  induction sentences as [|s l IH]; constructor; simpl.
  - lia.
  - eapply Forall_impl; [exact IH|]. simpl. intros x Hx. lia.
Qed.

Lemma add_sentence_bound (chunk_size overlap L : Z) (chunks : list text)
    (current sentence : text) :
  let B := Z.max (chunk_size + 1) (Z.max overlap 0 + 1 + L) in
  len sentence <= L ->
  Forall (fun c => len c <= B) chunks ->
  len current <= B ->
  let st := add_sentence chunk_size overlap (chunks, current) sentence in
  Forall (fun c => len c <= B) (fst st) /\ len (snd st) <= B.
Proof.
  intros B Hs Hc Hcur. unfold add_sentence.
  assert (Hlen0 : 0 <= len sentence) by (unfold len; lia).
  destruct ((len current + len sentence >? chunk_size) && truthy current) eqn:E.
  - assert (Hchunks : Forall (fun c => len c <= B) (chunks ++ [strip current])).
    { apply Forall_app. split; [exact Hc|]. constructor; [|constructor].
      pose proof (strip_length current). lia. }
    destruct ((overlap >? 0) && (len current >? overlap)) eqn:E2; simpl.
    + split; [exact Hchunks|].
      apply andb_true_iff in E2. destruct E2 as [E2 E3].
      apply Z.gtb_lt in E2. apply Z.gtb_lt in E3.
      unfold slice_from, adjust_index, space, len in *.
      destruct (- overlap <? 0) eqn:E4; [|apply Z.ltb_ge in E4; lia].
      rewrite !length_app, length_drop. simpl. lia.
    + split; [exact Hchunks|]. lia.
  - simpl. split; [exact Hc|].
    destruct current as [|c current']; simpl truthy; cbv iota; [lia|].
    rewrite andb_true_r in E. rewrite Z.gtb_ltb in E. apply Z.ltb_ge in E.
    unfold space, len in *. rewrite !length_app. simpl length in *. lia.
Qed.

Lemma fold_add_sentence_bound (chunk_size overlap L : Z) :
  let B := Z.max (chunk_size + 1) (Z.max overlap 0 + 1 + L) in
  forall (sentences chunks : list text) (current : text),
    Forall (fun s => len s <= L) sentences ->
    Forall (fun c => len c <= B) chunks ->
    len current <= B ->
    let st := fold_left (add_sentence chunk_size overlap) sentences
                        (chunks, current) in
    Forall (fun c => len c <= B) (fst st) /\ len (snd st) <= B.
Proof.
  intros B sentences.
  induction sentences as [|s l IH]; intros chunks current Hs Hc Hcur.
  - simpl. split; assumption.
  - inversion Hs as [|? ? Hs1 Hs2]; subst. cbn [fold_left].
    destruct (add_sentence_bound chunk_size overlap L chunks current s
                Hs1 Hc Hcur) as [H1 H2].
    destruct (add_sentence chunk_size overlap (chunks, current) s)
      as [chunks' current'].
    apply IH; assumption.
Qed.

(** What does hold of the sentence loop: no chunk is longer than
    [chunk_bound], that is [chunk_size + 1], or the overlap, a space and the
    longest sentence. *)
Lemma chunk_text_sentences_length_bound (fuel : nat) (t : text)
    (chunk_size overlap : Z) (chunks : list text) :
  chunk_text fuel t chunk_size overlap true = Some chunks ->
  Forall (fun c => len c <= chunk_bound chunk_size overlap
                                        (split_into_sentences t)) chunks.
Proof.
  unfold chunk_text, chunk_bound.
  destruct (negb (truthy t) || (len t <=? chunk_size)) eqn:E.
  - intros H. inversion H; subst chunks. destruct t as [|c t']; simpl truthy.
    + constructor.
    + simpl in E. apply Z.leb_le in E. constructor; [lia | constructor].
  - intros H. inversion H; subst chunks. clear H.
    unfold sentence_chunks.
    assert (Hempty : len (@nil ascii)
                     <= Z.max (chunk_size + 1)
                          (Z.max overlap 0 + 1
                           + longest (split_into_sentences t))).
    { pose proof (longest_nonneg (split_into_sentences t)).
      unfold len. simpl. lia. }
    pose proof (fold_add_sentence_bound chunk_size overlap
                  (longest (split_into_sentences t))
                  (split_into_sentences t) [] []
                  (longest_bound _) (List.Forall_nil _) Hempty) as Hf.
    cbv zeta in Hf.
    destruct (fold_left (add_sentence chunk_size overlap)
                        (split_into_sentences t) ([], [])) as [cs cur].
    destruct Hf as [H1 H2].
    cbn [fst snd] in H1, H2.
    apply Forall_forall. intros c Hc.
    apply list_elem_of_In, filter_In in Hc. destruct Hc as [Hc _].
    destruct (truthy cur).
    + apply in_app_or in Hc. destruct Hc as [Hc|[<-|[]]].
      * rewrite Forall_forall in H1. apply H1. apply list_elem_of_In. exact Hc.
      * pose proof (strip_length cur). lia.
    + rewrite Forall_forall in H1. apply H1. apply list_elem_of_In. exact Hc.
Qed.

Example chunk_text_small_input : chunk_text 0 (T "short") 500 50 true = Some [T "short"].
Proof. vm_compute. reflexivity. Qed.

End ChunkText.

(* ===================================================================== *)
(** ** Consecutive batches of a list                                      *)
(* ===================================================================== *)

Section Batches.
Import StoreTrace.
Context {A : Type}.

Lemma slice_batch (l : list A) (k : nat) (batch_size : Z) :
  0 < batch_size ->
  slice l (Z.of_nat k * batch_size) (Z.of_nat k * batch_size + batch_size)
  = take (Z.to_nat batch_size) (drop (k * Z.to_nat batch_size) l).
Proof.
  intros Hb. unfold slice, adjust_index, len.
  set (n := length l).
  assert (Hk : 0 <= Z.of_nat k * batch_size) by nia.
  destruct (Z.of_nat k * batch_size <? 0) eqn:E1; [lia|].
  destruct (Z.of_nat k * batch_size + batch_size <? 0) eqn:E2; [lia|].
  destruct (Z_lt_le_dec (Z.of_nat k * batch_size) (Z.of_nat n)) as [Hlt|Hge].
  - replace (Z.to_nat (Z.min (Z.of_nat k * batch_size) (Z.of_nat n)))
      with (k * Z.to_nat batch_size)%nat by nia.
    destruct (Z_le_gt_dec (Z.of_nat k * batch_size + batch_size) (Z.of_nat n))
      as [Hfull|Hshort].
    + f_equal. nia.
    + rewrite !take_ge; [reflexivity | |]; rewrite length_drop; fold n; nia.
  - rewrite !drop_ge by (fold n; nia).
    rewrite !take_nil. reflexivity.
Qed.

Lemma concat_consecutive (b : nat) :
  forall (n : nat) (l : list A),
    (length l <= n * b)%nat ->
    concat (map (fun k => take b (drop (k * b) l)) (seq 0 n)) = l.
Proof.
  induction n as [|n IH]; intros l Hl.
  - destruct l; [reflexivity | simpl in Hl; lia].
  - cbn [seq]. rewrite <- seq_shift. cbn [map concat].
    rewrite List.map_map. rewrite Nat.mul_0_l, drop_0.
    rewrite (map_ext _ (fun k => take b (drop (k * b) (drop b l)))).
    + rewrite IH; [apply take_drop|]. rewrite length_drop. lia.
    + intros k. rewrite drop_drop. repeat f_equal; lia.
Qed.

(** The batches are consecutive, in order, cover the list, and each holds
    between one and [batch_size] elements. *)
Lemma batches_partition (l : list A) (batch_size : Z) :
  0 < batch_size ->
  concat (batches l batch_size) = l
  /\ Forall (fun batch => 0 < len batch <= batch_size) (batches l batch_size).
Proof.
  intros Hb. unfold batches, batch_starts. rewrite map_map.
  set (n := range_count (len l) batch_size).
  assert (Hn : (length l <= n * Z.to_nat batch_size)%nat
               /\ forall k, (k < n)%nat -> (k * Z.to_nat batch_size < length l)%nat).
  { subst n. unfold range_count, len.
    destruct (0 <? batch_size) eqn:E1; [|lia].
    destruct (0 <? Z.of_nat (length l)) eqn:E2; simpl.
    - pose proof (Z.div_mod (Z.of_nat (length l) + batch_size - 1) batch_size
                    ltac:(lia)) as Hd.
      pose proof (Z.mod_pos_bound (Z.of_nat (length l) + batch_size - 1)
                    batch_size Hb) as Hm.
      assert (0 <= (Z.of_nat (length l) + batch_size - 1) / batch_size)
        by (apply Z.div_pos; lia).
      split; [nia|]. intros k Hk. nia.
    - split; [lia|]. intros k Hk. lia. }
  destruct Hn as [Hcover Hin].
  split.
  - rewrite (map_ext_in _ (fun k => take (Z.to_nat batch_size)
                                        (drop (k * Z.to_nat batch_size) l))).
    + apply concat_consecutive. exact Hcover.
    + intros k _. apply slice_batch. exact Hb.
  - apply Forall_forall. intros batch Hin'.
    apply list_elem_of_In, in_map_iff in Hin'.
    destruct Hin' as (k & <- & Hk). apply in_seq in Hk.
    rewrite slice_batch by exact Hb. unfold len.
    rewrite length_take, length_drop.
    specialize (Hin k ltac:(lia)). lia.
Qed.

End Batches.

(* ===================================================================== *)
(** ** Properties of the embedding service                                *)
(* ===================================================================== *)

Section EmbeddingBatch.
Import EmbeddingService.

Lemma memory_optimizer_has_no_cache_methods :
  MemoryOptimizer.has_attr "get_cached_embedding" = false
  /\ MemoryOptimizer.has_attr "cache_embedding" = false
  /\ get_cached_embedding memory_optimizer = None
  /\ cache_embedding memory_optimizer = None.
Proof. repeat split; reflexivity. Qed.

(** With the repository's [memory_optimizer] the first probe of the cache
    already fails: any non-empty batch raises, whatever the model is, and
    neither the model nor the cache is touched. *)
Lemma generate_embeddings_batch_raises (m : encoder) (text : string)
    (texts : list string) (batch_size : Z) (s : env unit) :
  generate_embeddings_batch (Some m) memory_optimizer (text :: texts)
                            batch_size s
  = (Raise batch_failure, s).
Proof. reflexivity. Qed.

(** C1.  Two calls in a row on the same non-empty list of texts both raise
    [RuntimeError("Failed to generate batch embeddings")] and leave the
    process as it was: no vector is returned by either call and nothing is
    ever written to a cache. *)
Theorem generate_embeddings_batch_twice (m : encoder) (text : string)
    (texts : list string) (batch_size : Z) (s : env unit) :
  let first := generate_embeddings_batch (Some m) memory_optimizer
                 (text :: texts) batch_size s in
  let second := generate_embeddings_batch (Some m) memory_optimizer
                  (text :: texts) batch_size (snd first) in
  fst first = Raise batch_failure
  /\ fst second = Raise batch_failure
  /\ snd second = s.
Proof. repeat split; reflexivity. Qed.

(** C2.  On a non-empty list of texts the call returns no sequence of
    vectors at all, for any model, batch size and state. *)
Theorem generate_embeddings_batch_returns_nothing (m : encoder)
    (text : string) (texts : list string) (batch_size : Z) (s : env unit) :
  forall vectors,
    fst (generate_embeddings_batch (Some m) memory_optimizer (text :: texts)
                                   batch_size s)
    <> Ret vectors.
Proof. intros vectors. rewrite generate_embeddings_batch_raises. discriminate. Qed.

Example generate_embeddings_batch_hello :
  fst (generate_embeddings_batch
         (Some (fun _ c => Ret (map (fun _ => [1%float]) (fst c))))
         memory_optimizer ["hello"%string] 32 (Env tt []))
  = Raise batch_failure.
Proof. reflexivity. Qed.

Example generate_embeddings_batch_empty (m : encoder) (s : env unit) :
  generate_embeddings_batch (Some m) memory_optimizer [] 32 s = (Ret [], s).
Proof. reflexivity. Qed.

End EmbeddingBatch.

(** *** The batch operation over an object that has the cache methods *)

Section WithCache.
Import EmbeddingService CacheModel StoreTrace.
Variable f : string -> vector.

Lemma probe_dict_cache :
  forall (texts : list string) (i : nat) (all_embeddings : list (option vector))
         (ut : list string) (ui : list nat) (s : env (gmap string vector)),
    probe dict_cache i texts (all_embeddings, ut, ui) s
    = (Ret (all_embeddings ++ map (fun t => cache s !! t) texts,
            ut ++ uncached_texts (cache s) texts,
            ui ++ uncached_indices (cache s) i texts), s).
Proof.
  induction texts as [|t texts IH]; intros i all_embeddings ut ui s.
  - simpl. rewrite !app_nil_r. reflexivity.
  - cbn [probe uncached_texts uncached_indices map].
    unfold bind at 1. cbn [attr dict_cache get_cached_embedding ret].
    unfold bind at 1, get_state.
    destruct (cache s !! t) as [v|] eqn:E.
    + rewrite IH, <- app_assoc. reflexivity.
    + rewrite IH, <- !app_assoc. reflexivity.
Qed.

Lemma store_all_app (c : gmap string vector) (l1 l2 : list string) :
  store_all f c (l1 ++ l2) = store_all f (store_all f c l1) l2.
Proof. unfold store_all. apply fold_left_app. Qed.

Lemma store_all_lookup (texts : list string) :
  forall (c : gmap string vector) (t : string),
    store_all f c texts !! t
    = if bool_decide (t ∈ texts) then Some (f t) else c !! t.
Proof.
  induction texts as [|x texts IH]; intros c t.
  - reflexivity.
  - cbn [store_all fold_left]. fold (store_all f (<[x := f x]> c) texts).
    rewrite IH.
    destruct (bool_decide (t ∈ texts)) eqn:E1.
    + apply bool_decide_eq_true in E1.
      rewrite bool_decide_eq_true_2; [reflexivity|].
      apply elem_of_cons. right. exact E1.
    + apply bool_decide_eq_false in E1.
      destruct (decide (x = t)) as [->|Hne].
      * rewrite lookup_insert_eq.
        rewrite bool_decide_eq_true_2; [reflexivity|].
        apply elem_of_cons. left. reflexivity.
      * rewrite lookup_insert_ne by exact Hne.
        rewrite bool_decide_eq_false_2; [reflexivity|].
        apply not_elem_of_cons. split; [congruence | exact E1].
Qed.

Lemma cache_batch_dict_cache :
  forall (rest : list string) (j : nat) (batch : list string)
         (s : env (gmap string vector)),
    drop j batch = rest ->
    cache_batch dict_cache j rest (map f batch) s
    = (Ret tt, {| cache := store_all f (cache s) rest;
                  encode_calls := encode_calls s |}).
Proof.
  induction rest as [|t rest IH]; intros j batch s Hd.
  - destruct s; reflexivity.
  - cbn [cache_batch]. unfold bind at 1. cbn [attr dict_cache cache_embedding ret].
    assert (Hj : batch !! j = Some t).
    { rewrite <- (Nat.add_0_r j), <- lookup_drop, Hd. reflexivity. }
    unfold bind at 1, lift, index.
    rewrite list_lookup_fmap_Some_2 with (x := t) by exact Hj.
    unfold bind at 1, get_state. unfold bind at 1, put_state.
    rewrite (IH (S j) batch).
    + reflexivity.
    + replace (S j) with (j + 1)%nat by lia.
      rewrite <- drop_drop, Hd. reflexivity.
Qed.

Lemma encode_batches_dict_cache (ut : list string) (batch_size : Z) :
  forall (starts : list Z) (acc : list vector) (s : env (gmap string vector)),
    encode_batches dict_cache (pointwise f) starts ut batch_size acc s
    = (Ret (acc ++ map f (flat_map (fun i => slice ut i (i + batch_size)) starts)),
       {| cache := store_all f (cache s)
                     (flat_map (fun i => slice ut i (i + batch_size)) starts);
          encode_calls :=
            encode_calls s
            ++ map (fun i => (slice ut i (i + batch_size),
                              Z.min batch_size
                                    (len (slice ut i (i + batch_size)))))
                   starts |}).
Proof.
  induction starts as [|i starts IH]; intros acc s.
  - destruct s. simpl. rewrite !app_nil_r. reflexivity.
  - cbn [encode_batches flat_map map].
    unfold bind at 1, encode, pointwise. cbn [fst].
    unfold bind at 1.
    rewrite (cache_batch_dict_cache _ 0 (slice ut i (i + batch_size)))
      by reflexivity.
    rewrite IH. cbn [cache encode_calls].
    rewrite store_all_app, map_app, <- !app_assoc. reflexivity.
Qed.

Lemma fill_merge (c : gmap string vector) :
  forall (rest : list string) (done : list (option vector)) (i : nat)
         (ui : list nat),
    drop i ui = uncached_indices c (length done) rest ->
    fill i (map f (uncached_texts c rest)) ui
         (done ++ map (fun t => c !! t) rest)
    = Ret (done ++ map (fun t => Some (embedding_of c f t)) rest).
Proof.
  induction rest as [|t rest IH]; intros done i ui Hd.
  - reflexivity.
  - cbn [uncached_texts uncached_indices map] in *.
    unfold embedding_of at 1.
    destruct (c !! t) as [v|] eqn:E.
    + rewrite !(cons_middle _ done), !app_assoc.
      apply IH. rewrite length_app. simpl.
      replace (length done + 1)%nat with (S (length done)) by lia. exact Hd.
    + cbn [map fill].
      assert (Hi : ui !! i = Some (length done)).
      { rewrite <- (Nat.add_0_r i), <- lookup_drop, Hd. reflexivity. }
      unfold index. rewrite Hi. cbn [obind].
      unfold list_assign.
      assert (Hlt : (length done <? length (done ++ None :: map (fun t0 => c !! t0) rest))%nat = true).
      { apply Nat.ltb_lt. rewrite length_app. simpl. lia. }
      rewrite Hlt. cbn [obind].
      rewrite insert_app_r_alt by lia.
      rewrite Nat.sub_diag. cbn [insert list_insert].
      rewrite !(cons_middle _ done), !app_assoc.
      apply IH. rewrite length_app. simpl.
      replace (length done + 1)%nat with (S (length done)) by lia.
      replace (S i) with (i + 1)%nat by lia.
      rewrite <- drop_drop, Hd. reflexivity.
Qed.

Lemma all_cached_embeddings (c : gmap string vector) (texts : list string) :
  uncached_texts c texts = [] ->
  map (fun t => c !! t) texts = map (fun t => Some (embedding_of c f t)) texts.
Proof.
  induction texts as [|t texts IH]; intros H; [reflexivity|].
  simpl in *. unfold embedding_of at 1.
  destruct (c !! t); [|discriminate]. f_equal. apply IH. exact H.
Qed.

Lemma uncached_texts_spec (c : gmap string vector) (texts : list string)
    (t : string) :
  t ∈ uncached_texts c texts <-> t ∈ texts /\ c !! t = None.
Proof.
  induction texts as [|x texts IH]; simpl.
  - split; [intros H; inversion H | intros [H _]; inversion H].
  - destruct (c !! x) as [v|] eqn:E.
    + rewrite IH, elem_of_cons. split.
      * intros [H1 H2]. split; [right; exact H1 | exact H2].
      * intros [[->|H1] H2]; [congruence | split; assumption].
    + rewrite !elem_of_cons, IH. split.
      * intros [->|[H1 H2]]; [split; [left; reflexivity | exact E]|].
        split; [right; exact H1 | exact H2].
      * intros [[->|H1] H2]; [left; reflexivity | right; split; assumption].
Qed.

Lemma uncached_texts_nil (c : gmap string vector) (texts : list string) :
  (forall t, t ∈ texts -> is_Some (c !! t)) -> uncached_texts c texts = [].
Proof.
  induction texts as [|x texts IH]; intros H; [reflexivity|].
  simpl. destruct (H x) as [v ->]; [apply elem_of_cons; left; reflexivity|].
  apply IH. intros t Ht. apply H, elem_of_cons. right. exact Ht.
Qed.

(** Over a dictionary cache and a model that embeds text by text, the batch
    operation returns one vector per text, in input order: the cached vector
    for a hit, the fresh one for a miss.  Only the misses are sent to the
    model, in batches of at most [batch_size], and every fresh vector is in
    the cache afterwards. *)
Lemma generate_embeddings_batch_with_cache (texts : list string)
    (batch_size : Z) (s : env (gmap string vector)) :
  0 < batch_size ->
  exists s',
    generate_embeddings_batch (Some (pointwise f)) dict_cache texts batch_size s
    = (Ret (map (fun t => Some (embedding_of (cache s) f t)) texts), s')
    /\ cache s' = store_all f (cache s) (uncached_texts (cache s) texts)
    /\ encode_calls s'
       = encode_calls s
         ++ map (fun batch => (batch, Z.min batch_size (len batch)))
                (batches (uncached_texts (cache s) texts) batch_size).
Proof.
  intros Hb.
  unfold generate_embeddings_batch, try_except.
  unfold bind at 1. rewrite probe_dict_cache. cbn [app].
  set (ut := uncached_texts (cache s) texts).
  assert (Hgc : forall (all_embeddings : list (option vector))
                       (s1 : env (gmap string vector)),
    exists s',
      (let (o, s'0) :=
         (let! _ := if len texts >? 100
                    then
                      let! gc := attr dict_cache "optimize_gc"
                                      (optimize_gc dict_cache) in
                      let! s0 := get_state in
                      put_state {| cache := gc (cache s0);
                                   encode_calls := encode_calls s0 |}
                    else ret tt in
          ret all_embeddings)%py s1 in
       match o with
       | Ret a => (Ret a, s'0)
       | Raise _ => raise batch_failure s'0
       end) = (Ret all_embeddings, s')
      /\ cache s' = cache s1 /\ encode_calls s' = encode_calls s1).
  { intros all_embeddings s1. destruct (len texts >? 100).
    - eexists. split; [reflexivity|]. split; reflexivity.
    - eexists. split; [reflexivity|]. split; reflexivity. }
  destruct ut as [|u ut'] eqn:Eut; cbn [truthy].
  - unfold bind at 1. cbn [ret].
    rewrite (all_cached_embeddings (cache s) texts) by exact Eut.
    destruct (Hgc (map (fun t => Some (embedding_of (cache s) f t)) texts) s)
      as (s' & Hrun & Hc & He).
    exists s'. split; [exact Hrun|]. split; [exact Hc|].
    rewrite He. unfold batches, batch_starts, range_count, len. simpl.
    rewrite andb_false_r. simpl. rewrite app_nil_r. reflexivity.
  - rewrite <- Eut.
    unfold bind at 1. unfold bind at 1. unfold bind at 1.
    unfold lift at 1, range0.
    destruct (batch_size =? 0) eqn:E0; [lia|].
    unfold bind at 1. rewrite encode_batches_dict_cache. cbn [app].
    fold (batch_starts (len ut) batch_size).
    rewrite flat_map_concat_map.
    fold (batches ut batch_size).
    destruct (batches_partition ut batch_size Hb) as [Hcat _].
    rewrite Hcat. unfold lift.
    rewrite (fill_merge (cache s) texts [] 0) by reflexivity.
    cbn [app].
    edestruct Hgc as (s' & Hrun & Hc & He).
    exists s'. split; [exact Hrun|]. split; [exact Hc|].
    rewrite He. cbn [encode_calls]. unfold batches. rewrite List.map_map.
    reflexivity.
Qed.

(** X15.  Over a dictionary cache and a model that embeds text by text, the
    first call returns one vector per text, in input order: the cached
    vector for a hit and the model's vector for a miss; only the misses are
    sent to the model, in batches of at most [batch_size], and every text
    is in the cache afterwards.  A second call with the same texts returns
    the same vectors and sends nothing to the model. *)
Lemma generate_embeddings_batch_with_cache_twice (texts : list string)
    (batch_size : Z) (s : env (gmap string vector)) :
  0 < batch_size ->
  let first := generate_embeddings_batch (Some (pointwise f)) dict_cache
                 texts batch_size s in
  let second := generate_embeddings_batch (Some (pointwise f)) dict_cache
                  texts batch_size (snd first) in
  (exists vectors, fst first = Ret vectors /\ length vectors = length texts)
  /\ fst second = fst first
  /\ encode_calls (snd second) = encode_calls (snd first)
  /\ fst first = Ret (map (fun t => Some (embedding_of (cache s) f t)) texts)
  /\ encode_calls (snd first)
     = encode_calls s
       ++ map (fun batch => (batch, Z.min batch_size (len batch)))
              (batches (uncached_texts (cache s) texts) batch_size)
  /\ (forall t, t ∈ texts ->
        cache (snd first) !! t = Some (embedding_of (cache s) f t)).
Proof.
  intros Hb first second.
  destruct (generate_embeddings_batch_with_cache texts batch_size s Hb)
    as (s1 & Hrun1 & Hc1 & He1).
  destruct (generate_embeddings_batch_with_cache texts batch_size s1 Hb)
    as (s2 & Hrun2 & Hc2 & He2).
  subst first second. rewrite Hrun1. cbn [fst snd]. rewrite Hrun2. cbn [fst snd].
  assert (Hall : forall t, t ∈ texts ->
            cache s1 !! t = Some (embedding_of (cache s) f t)).
  { intros t Ht. rewrite Hc1, store_all_lookup. unfold embedding_of.
    destruct (bool_decide (t ∈ uncached_texts (cache s) texts)) eqn:E.
    - apply bool_decide_eq_true, uncached_texts_spec in E.
      destruct E as [_ ->]. reflexivity.
    - apply bool_decide_eq_false in E.
      destruct (cache s !! t) as [v|] eqn:Ec; [reflexivity|].
      exfalso. apply E, uncached_texts_spec. split; assumption. }
  split; [eexists; split; [reflexivity | apply length_map]|].
  split; [|split; [|split; [reflexivity|split; [exact He1 | exact Hall]]]].
  - f_equal. apply map_ext_in. intros t Ht.
    apply list_elem_of_In in Ht. unfold embedding_of at 1.
    rewrite (Hall t Ht). reflexivity.
  - rewrite He2, uncached_texts_nil.
    + unfold batches, batch_starts, range_count, len. simpl.
      rewrite andb_false_r. simpl. apply app_nil_r.
    + intros t Ht. rewrite (Hall t Ht). eauto.
Qed.

End WithCache.

(** Odd positions cached beforehand, even positions computed: the output
    keeps the input order and only the two misses reach the model. *)
Example generate_embeddings_batch_mixed :
  let f := fun t : string => if String.eqb t "a" then [1%float] else [3%float] in
  let c : gmap string (list float) := {[ "b" := [2%float]; "d" := [4%float] ]} in
  let out := EmbeddingService.generate_embeddings_batch
               (Some (CacheModel.pointwise f)) CacheModel.dict_cache
               ["a"; "b"; "c"; "d"] 32 (EmbeddingService.Env c []) in
  fst out = Ret [Some [1%float]; Some [2%float]; Some [3%float]; Some [4%float]]
  /\ EmbeddingService.encode_calls (snd out) = [(["a"; "c"], 2)].
Proof. split; vm_compute; reflexivity. Qed.

Section Similarity.
Import EmbeddingService.
Local Open Scope float_scope.

(** C8.  For the opposite unit vectors [[1.0]] and [[-1.0]] the helper
    returns [-1.0], a score below 0. *)
Theorem calculate_similarity_opposite_vectors :
  calculate_similarity [1] [-1] = Ret (-1)
  /\ (-1 <? 0) = true.
Proof. split; vm_compute; reflexivity. Qed.

(** The zero-norm guard: for two vectors of one length, a zero norm on
    either side gives exactly [0.0]. *)
Lemma calculate_similarity_zero_norm (a b : vector) :
  length a = length b ->
  (np_norm a =? 0) || (np_norm b =? 0) = true ->
  calculate_similarity a b = Ret 0.
Proof.
  intros Hlen Hz. unfold calculate_similarity, np_dot.
  rewrite Hlen, Nat.eqb_refl. simpl. rewrite Hz. reflexivity.
Qed.

Example calculate_similarity_zero_vector :
  calculate_similarity [0; 0; 0] [1; 2; 3] = Ret 0.
Proof. vm_compute. reflexivity. Qed.

(** Vectors of different lengths do not reach the guard. *)
Example calculate_similarity_shape_mismatch :
  calculate_similarity [0] [1; 2; 3]
  = Raise (RuntimeError "Failed to calculate similarity").
Proof. vm_compute. reflexivity. Qed.

End Similarity.

(* ===================================================================== *)
(** ** Properties of the similarity search                                *)
(* ===================================================================== *)

Section Search.
Import DatabaseService StoreTrace.
Variable client : store.






End Search.


(** The relaxed retry raises: three requests are made, and the two rows of
    the unranked retrieval come back with the similarity 0.5. *)
Example search_similar_documents_retry_fallback :
  let out := DatabaseService.search_similar_documents
               StoreTrace.retry_down_store [1%float] 5 0.6%float
               (DatabaseService.World [] []) in
  (exists docs,
      fst out = Ret docs
      /\ map (fun d => (d !! "id", d !! "similarity")) docs
         = [(Some (PInt 1), Some (PFloat 0.5%float));
            (Some (PInt 2), Some (PFloat 0.5%float))])
  /\ map (fun ev => StoreTrace.is_rpc (fst ev))
         (DatabaseService.events (snd out))
     = [true; true; false].
Proof.
  split; [eexists; split; vm_compute; reflexivity | vm_compute; reflexivity].
Qed.


(* ===================================================================== *)
(** ** Properties of the batched insert                                   *)
(* ===================================================================== *)


Section BatchInsert.
Import DatabaseService StoreTrace.
Variable client : store.
Variable es : embedder.

Lemma committed_app (l1 l2 : list event) :
  committed (l1 ++ l2) = committed l1 ++ committed l2.
Proof. unfold committed. apply flat_map_app. Qed.

Lemma committed_unconfirmed (ev : event) :
  confirmed ev = false -> committed [ev] = [].
Proof.
  destruct ev as [c [data|e]]; unfold confirmed, committed; simpl.
  - intros ->. destruct c; reflexivity.
  - intros _. destruct c; reflexivity.
Qed.

Lemma committed_confirmed_inserts (good : list event) (bs : list (list dict)) :
  Forall2 inserts_batch good bs ->
  Forall (fun ev => confirmed ev = true) good ->
  committed good = flat_map inserted_rows good.
Proof.
  intros H2. induction H2 as [|ev b good bs Hev _ IH]; intros Hc.
  - reflexivity.
  - inversion Hc as [|? ? Hc1 Hc2]; subst.
    change (ev :: good) with ([ev] ++ good).
    rewrite committed_app, flat_map_app, IH by assumption.
    f_equal. destruct Hev as (rows & Hrows & _).
    destruct ev as [c r]. simpl in Hrows. subst c.
    unfold confirmed in Hc1. simpl in Hc1.
    destruct r as [data|e]; [|discriminate].
    unfold committed, inserted_rows. simpl. rewrite Hc1. reflexivity.
Qed.

Lemma prepare_rows_spec (embeddings : list pyval) :
  forall (batch_docs : list dict) (j : nat) (rows : list dict),
    prepare_rows embeddings j batch_docs = Ret rows ->
    Forall2 row_of rows batch_docs.
Proof.
  induction batch_docs as [|doc rest IH]; intros j rows H; simpl in H.
  - inversion H. constructor.
  - unfold prepare_row, getitem in H.
    destruct (doc !! "content") as [c|] eqn:Ec; simpl in H; [|discriminate].
    destruct (index embeddings j) as [v|]; simpl in H; [|discriminate].
    destruct (prepare_rows embeddings (S j) rest) as [rows'|] eqn:Er;
      simpl in H; [|discriminate].
    inversion H; subst rows. constructor; [|eapply IH; eassumption].
    unfold row_of. rewrite Ec. repeat split; eauto.
Qed.

(** The loop over the batch starts: the requests it sends are the inserts
    of the batches, one after the other; all of them are acknowledged except
    possibly the last one sent, and the loop runs to its end with [True]
    exactly when every batch was sent and acknowledged. *)
Lemma insert_batches_spec (documents : list dict) (batch_size : Z) :
  forall (starts : list Z) (w : world),
  exists r good bad w',
    insert_batches client es starts documents batch_size w = (r, w')
    /\ events w' = events w ++ good ++ bad
    /\ Forall2 inserts_batch (good ++ bad)
         (take (length (good ++ bad))
               (map (fun i => slice documents i (i + batch_size)) starts))
    /\ Forall (fun ev => confirmed ev = true) good
    /\ (bad = [] \/ exists ev, bad = [ev] /\ confirmed ev = false)
    /\ (r = Ret true <-> bad = [] /\ length good = length starts).
Proof.
  induction starts as [|i starts IH]; intros w.
  - exists (Ret true), [], [], w. simpl. rewrite app_nil_r.
    split; [reflexivity|]. split; [reflexivity|].
    split; [constructor|]. split; [constructor|].
    split; [left; reflexivity|].
    split; [intros _; split; reflexivity | reflexivity].
  - cbn [insert_batches]. unfold bind, lift, embed.
    set (batch_docs := slice documents i (i + batch_size)).
    assert (Hstop : forall (e : exn) (w' : world),
               events w' = events w ->
               exists r good bad w'',
                 (Raise e : outcome bool, w') = (r, w'')
                 /\ events w'' = events w ++ good ++ bad
                 /\ Forall2 inserts_batch (good ++ bad)
                      (take (length (good ++ bad))
                         (map (fun i => slice documents i (i + batch_size))
                              (i :: starts)))
                 /\ Forall (fun ev => confirmed ev = true) good
                 /\ (bad = [] \/ exists ev, bad = [ev] /\ confirmed ev = false)
                 /\ (r = Ret true <-> bad = [] /\ length good = length (i :: starts))).
    { intros e w' Hw'. exists (Raise e), [], [], w'. simpl.
      rewrite app_nil_r.
      split; [reflexivity|]. split; [exact Hw'|].
      split; [constructor|]. split; [constructor|].
      split; [left; reflexivity|].
      split; [discriminate | intros [_ H]; discriminate]. }
    destruct (omap (fun doc => getitem doc "content") batch_docs)
      as [contents|e]; [|apply Hstop; reflexivity].
    destruct (es (embed_calls w) contents) as [embeddings|e];
      [|apply Hstop; reflexivity].
    destruct (prepare_rows embeddings 0 batch_docs) as [rows|e] eqn:Erows;
      [|apply Hstop; reflexivity].
    apply prepare_rows_spec in Erows.
    unfold execute at 1. cbn [events embed_calls].
    set (c := Insert "documents" rows).
    set (resp := client (events w) c).
    assert (Hev : inserts_batch (c, resp) batch_docs)
      by (exists rows; split; [reflexivity | exact Erows]).
    destruct resp as [data|e] eqn:Eresp.
    + destruct data as [|d data']; cbn [truthy negb].
      * eexists (Ret false), [], [(c, Ret [])], _.
        split; [reflexivity|]. cbn [events app length take map].
        split; [reflexivity|].
        split; [constructor; [exact Hev | constructor]|].
        split; [constructor|].
        split; [right; eexists; split; reflexivity|].
        split; [discriminate | intros [H _]; discriminate].
      * match goal with
        | |- context [insert_batches client es starts documents batch_size ?w1] =>
            destruct (IH w1) as (r & good & bad & w' & Hrun & Hevs & Hf2 & Hgood & Hbad & Hr)
        end.
        exists r, ((c, Ret (d :: data')) :: good), bad, w'.
        split; [exact Hrun|]. cbn [events] in Hevs.
        split; [rewrite Hevs, <- app_assoc; reflexivity|].
        split; [cbn [app length take map]; constructor; assumption|].
        split; [constructor; [reflexivity | assumption]|].
        split; [exact Hbad|].
        rewrite Hr. cbn [length]. split; intros [H1 H2]; split; auto; lia.
    + eexists (Raise e), [], [(c, Raise e)], _.
      split; [reflexivity|]. cbn [events app length take map].
      split; [reflexivity|].
      split; [constructor; [exact Hev | constructor]|].
      split; [constructor|].
      split; [right; eexists; split; reflexivity|].
      split; [discriminate | intros [H _]; discriminate].
Qed.






End BatchInsert.

Section BatchInsertExamples.
Import DatabaseService StoreTrace.



(** The scenario of the spec: 120 documents in batches of 50, the second
    insert unacknowledged.  The call reports failure after two inserts and
    the 50 rows of the first batch are committed. *)
Example batch_insert_documents_120_by_50 :
  let out := batch_insert_documents second_insert_unconfirmed
               (Some unit_embedder) (numbered_documents 120) 50 (World [] []) in
  fst out = Ret false
  /\ length (events (snd out)) = 2%nat
  /\ map (fun row => row !! "content") (committed (events (snd out)))
     = map (fun doc => doc !! "content") (take 50 (numbered_documents 120)).
Proof. vm_compute. repeat split; reflexivity. Qed.

Example batch_insert_documents_all_confirmed :
  let out := batch_insert_documents accepting_store
               (Some unit_embedder) (numbered_documents 120) 50 (World [] []) in
  fst out = Ret true
  /\ map length (map inserted_rows (events (snd out))) = [50; 50; 20]%nat.
Proof. vm_compute. repeat split; reflexivity. Qed.

(** A negative batch size makes the range empty: success is reported and
    nothing is sent to the store. *)
Example batch_insert_documents_negative_batch_size :
  batch_insert_documents accepting_store (Some unit_embedder)
    (numbered_documents 3) (-1) (World [] [])
  = (Ret true, World [] []).
Proof. reflexivity. Qed.

(** When the embedding service raises on every non-empty batch, no insert
    is sent and the call reports failure. *)
Lemma batch_insert_documents_embedding_failure
    (client : store) (es : embedder) (doc : dict) (documents : list dict)
    (batch_size : Z) (w : world) :
  (forall calls c cs, exists e, es calls (c :: cs) = Raise e) ->
  0 < batch_size ->
  let out := batch_insert_documents client (Some es) (doc :: documents)
               batch_size w in
  fst out = Ret false /\ events (snd out) = events w.
Proof.
  intros Hes Hb out. subst out.
  unfold batch_insert_documents, bind, lift, floordiv, try_except, range0.
  destruct (batch_size =? 0) eqn:E0; [lia|].
  unfold range_count, len. cbn [length].
  destruct (0 <? batch_size) eqn:E1; [|lia]. cbn [andb].
  destruct (0 <? Z.of_nat (S (length documents))) eqn:E2;
    [|apply Z.ltb_ge in E2; lia].
  assert (Hn : exists n, Z.to_nat ((Z.of_nat (S (length documents)) + batch_size - 1)
                                   / batch_size) = S n).
  { assert (Hq : 1 <= (Z.of_nat (S (length documents)) + batch_size - 1)
                      / batch_size)
      by (apply Z.div_le_lower_bound; lia).
    revert Hq.
    generalize ((Z.of_nat (S (length documents)) + batch_size - 1) / batch_size).
    intros q Hq. exists (Z.to_nat q - 1)%nat. lia. }
  destruct Hn as [n ->]. cbn [seq map insert_batches].
  unfold bind, lift, embed.
  assert (Hs : exists rest, slice (doc :: documents) (Z.of_nat 0 * batch_size)
                              (Z.of_nat 0 * batch_size + batch_size)
                            = doc :: rest).
  { rewrite (slice_batch (doc :: documents) 0 batch_size Hb).
    rewrite Nat.mul_0_l, drop_0.
    destruct (Z.to_nat batch_size) as [|k] eqn:Ek; [lia|].
    simpl. eauto. }
  destruct Hs as [rest ->]. cbn [omap].
  destruct (getitem doc "content") as [c|e]; cbn [obind]; [|split; reflexivity].
  destruct (omap (fun d => getitem d "content") rest) as [cs|e]; cbn [obind];
    [|split; reflexivity].
  destruct (Hes (embed_calls w) c cs) as [e ->].
  split; reflexivity.
Qed.

Lemma repository_embedder_raises (m : EmbeddingService.encoder)
    (calls : list (list pyval)) (c : pyval) (cs : list pyval) :
  repository_embedder m calls (c :: cs) = Raise batch_failure.
Proof. reflexivity. Qed.

(** With the repository's own embedding service behind it, an ingestion of
    at least one document never reaches the store. *)
Example batch_insert_documents_repository (m : EmbeddingService.encoder) :
  let out := batch_insert_documents accepting_store
               (Some (repository_embedder m)) (numbered_documents 120) 50
               (World [] []) in
  fst out = Ret false /\ events (snd out) = [].
Proof.
  apply (batch_insert_documents_embedding_failure accepting_store
           (repository_embedder m) _ _ 50 (World [] [])); [|lia].
  intros calls c cs. exists batch_failure. reflexivity.
Qed.

End BatchInsertExamples.

(* ===================================================================== *)
(** ** Properties of the controller                                       *)
(* ===================================================================== *)

Section ListTail.
Context {A : Type}.


End ListTail.

Section History.
Import RAGController ControllerRuns.

Lemma update_conversation_history_lastn (question response : string)
    (h : history) :
  _update_conversation_history question response h
  = (Ret tt, lastn 20 (h ++ [user_turn question; assistant_turn response])).
Proof.
  unfold _update_conversation_history, history_cap, lastn, slice_from,
    adjust_index, len.
  rewrite <- app_assoc. cbn [app].
  set (l := h ++ [user_turn question; assistant_turn response]).
  f_equal. destruct (Z.of_nat (length l) >? 20) eqn:E.
  - change (- (20) <? 0) with true. cbv iota.
    apply Z.gtb_lt in E. f_equal. lia.
  - assert (Z.of_nat (length l) <= 20) by (rewrite Z.gtb_ltb in E; apply Z.ltb_ge in E; lia).
    replace (length l - 20)%nat with 0%nat by lia. reflexivity.
Qed.

Lemma transcript_app (xs ys : list (string * string)) :
  transcript (xs ++ ys) = transcript xs ++ transcript ys.
Proof. unfold transcript. apply flat_map_app. Qed.

Lemma transcript_length (xs : list (string * string)) :
  length (transcript xs) = (2 * length xs)%nat.
Proof. induction xs as [|x xs IH]; simpl; lia. Qed.

Lemma transcript_drop (k : nat) :
  forall xs : list (string * string),
    drop (2 * k) (transcript xs) = transcript (drop k xs).
Proof.
  induction k as [|k IH]; intros xs.
  - reflexivity.
  - destruct xs as [|x xs]; [reflexivity|].
    replace (2 * S k)%nat with (S (S (2 * k))) by lia.
    simpl. apply IH.
Qed.

Lemma transcript_lastn (xs : list (string * string)) :
  lastn 20 (transcript xs) = transcript (lastn 10 xs).
Proof.
  unfold lastn. rewrite transcript_length, <- transcript_drop.
  f_equal. lia.
Qed.

Section Services.
Variable generate_embedding : string -> outcome vector.
Variable search_similar_documents : vector -> Z -> float -> outcome (list dict).
Variable generate_response : string -> list dict -> history -> outcome string.

Abbreviation ask_on := (ask generate_embedding search_similar_documents
                            generate_response).
Abbreviation run := (run_asks generate_embedding search_similar_documents
                              generate_response).

Ltac ask_fails e :=
  eexists _, _; split; [reflexivity|]; right; exists e;
  repeat split; reflexivity.

Ltac ask_succeeds r :=
  unfold bind; rewrite update_conversation_history_lastn;
  eexists _, _; split; [reflexivity|]; left; exists r;
  repeat split; reflexivity.

(** One [ask_question] call never raises.  It either succeeds, and the
    history gains the user turn and then the assistant turn (cut to the last
    20 entries), or it returns the error dictionary and leaves the history
    as it was. *)
Lemma ask_question_step (a : ask_args) (h : history) :
  exists (result : dict) (h' : history),
    ask_on a h = (Ret result, h')
    /\ ((exists response,
           exchange_of (ask_text a) result = Some (ask_text a, response)
           /\ result !! "response" = Some (PStr response)
           /\ result !! "error" = None
           /\ h' = lastn 20 (h ++ [user_turn (ask_text a);
                                   assistant_turn response]))
        \/ (exists e,
              exchange_of (ask_text a) result = None
              /\ result !! "response" = Some (PStr (error_text e))
              /\ result !! "error" = Some (PStr (exn_str e))
              /\ h' = h)).
Proof.
  destruct a as [q uc thr k].
  cbv [ask ask_question try_except bind retrieve_context lift get_state ret
       ask_text ask_use_context ask_threshold ask_max_docs].
  destruct uc.
  - destruct (generate_embedding q) as [v|e]; [|ask_fails e].
    destruct (search_similar_documents v k thr) as [docs|e]; [|ask_fails e].
    destruct (generate_response q docs h) as [r|e]; [ask_succeeds r | ask_fails e].
  - destruct (generate_response q [] h) as [r|e]; [ask_succeeds r | ask_fails e].
Qed.


(** What one [ask_question] call returns and does to the history, read
    off the answers of the three services. *)
Lemma ask_question_run (a : ask_args) (h : history) :
  ask_on a h
  = match retrieved generate_embedding search_similar_documents a with
    | Ret docs =>
        match generate_response (ask_text a) docs h with
        | Ret response =>
            (Ret (answer_of response docs),
             lastn 20 (h ++ [user_turn (ask_text a);
                             assistant_turn response]))
        | Raise e => (Ret (error_of e), h)
        end
    | Raise e => (Ret (error_of e), h)
    end.
Proof.
  destruct a as [q uc thr k].
  cbv [ask ask_question try_except bind retrieve_context lift get_state ret
       retrieved ask_text ask_use_context ask_threshold ask_max_docs].
  destruct uc.
  - destruct (generate_embedding q) as [v|e]; [|reflexivity].
    destruct (search_similar_documents v k thr) as [docs|e]; [|reflexivity].
    destruct (generate_response q docs h) as [r|e]; [|reflexivity].
    rewrite update_conversation_history_lastn. reflexivity.
  - destruct (generate_response q [] h) as [r|e]; [|reflexivity].
    rewrite update_conversation_history_lastn. reflexivity.
Qed.





End Services.

(** A language model that always answers ["ok"], and 25 questions asked
    without retrieval. *)
Example conversation_history_after_25_asks :
  let calls := map (fun k => Ask ("q" ++ pretty k) false 0.6%float 5) (seq 0 25) in
  let out := run_asks (fun _ => Ret []) (fun _ _ _ => Ret [])
                      (fun _ _ _ => Ret "ok"%string) calls [] in
  length (fst out) = 25%nat
  /\ length (snd out) = 20%nat
  /\ map (fun turn => (turn !! "role", turn !! "content")) (snd out)
     = flat_map (fun k => [(Some (PStr "user"), Some (PStr ("q" ++ pretty k)));
                           (Some (PStr "assistant"), Some (PStr "ok"))])
                (seq 15 10).
Proof. split; [|split]; vm_compute; reflexivity. Qed.


(** C6.  A [stream_response] call whose embedding step raises yields the
    error text and then lets [NameError: name 'error_message' is not
    defined] escape to its consumer: the handler's second [yield] reads a
    name that is bound nowhere. *)
Theorem stream_response_failure_escapes
    (search_similar_documents : vector -> Z -> float -> outcome (list dict))
    (llm_stream_response : string -> list dict -> history -> stream)
    (question : string) (similarity_threshold : float) (max_context_docs : Z)
    (h : history) (e : exn) :
  stream_response (fun _ => Raise e) search_similar_documents
                  llm_stream_response question true similarity_threshold
                  max_context_docs h
  = (([error_text e], Some (NameError "error_message")), h).
Proof. reflexivity. Qed.

Example stream_response_embedding_failure :
  stream_response (fun _ => Raise (RuntimeError "Failed to generate embedding"))
                  (fun _ _ _ => Ret []) (fun _ _ _ => (["ok"%string], None))
                  "hi" true 0.6%float 5 []
  = ((["I encountered an error: Failed to generate embedding"%string],
      Some (Exn "NameError" "name 'error_message' is not defined")), []).
Proof. reflexivity. Qed.

(** The successful path of [stream_response]: one fragment, the whole
    response, and a normal end. *)
Example stream_response_success :
  stream_response (fun _ => Ret []) (fun _ _ _ => Ret [])
                  (fun _ _ _ => (["a"; "b"]%string, None))
                  "hi" false 0.6%float 5 []
  = ((["ab"%string], None), [user_turn "hi"; assistant_turn "ab"]).
Proof. vm_compute. reflexivity. Qed.

End History.

(* ===================================================================== *)
(** ** Further properties of the text utilities                           *)
(* ===================================================================== *)

Section Stripping.
Import TextUtils.

Lemma lstrip_idempotent (s : text) : lstrip (lstrip s) = lstrip s.
Proof.
  induction s as [|c s IH]; [reflexivity|].
  simpl. destruct (is_space c) eqn:E; [exact IH|].
  simpl. rewrite E. reflexivity.
Qed.

Lemma lstrip_head (s : text) (c : ascii) (r : text) :
  lstrip s = c :: r -> is_space c = false.
Proof.
  induction s as [|x s IH]; simpl; [discriminate|].
  destruct (is_space x) eqn:E; [exact IH|].
  intros H. inversion H; subst. exact E.
Qed.

Lemma lstrip_suffix (s : text) : exists pre, s = pre ++ lstrip s.
Proof.
  induction s as [|c s [pre IH]]; [exists []; reflexivity|].
  simpl. destruct (is_space c).
  - exists (c :: pre). simpl. f_equal. exact IH.
  - exists []. reflexivity.
Qed.

Lemma lstrip_snoc_nonspace (l : text) (c : ascii) :
  is_space c = false -> exists l', lstrip (l ++ [c]) = l' ++ [c].
Proof.
  intros Hc. induction l as [|x l [l' IH]]; simpl.
  - rewrite Hc. exists []. reflexivity.
  - destruct (is_space x).
    + exists l'. exact IH.
    + exists (x :: l). reflexivity.
Qed.

Lemma rstrip_idempotent (s : text) : rstrip (rstrip s) = rstrip s.
Proof. unfold rstrip. rewrite rev_involutive, lstrip_idempotent. reflexivity. Qed.

Lemma rstrip_prefix (s : text) : exists suf, s = rstrip s ++ suf.
Proof.
  unfold rstrip. destruct (lstrip_suffix (rev s)) as [pre H].
  exists (rev pre). rewrite <- rev_app_distr, <- H, rev_involutive. reflexivity.
Qed.

Lemma rstrip_cons_nonspace (c : ascii) (r : text) :
  is_space c = false -> exists r', rstrip (c :: r) = c :: r'.
Proof.
  intros Hc. unfold rstrip. simpl rev.
  destruct (lstrip_snoc_nonspace (rev r) c Hc) as [l' ->].
  exists (rev l'). rewrite rev_app_distr. reflexivity.
Qed.

(** A stripped text is left alone by both strippers. *)
Lemma strip_trimmed (s : text) :
  lstrip (strip s) = strip s /\ rstrip (strip s) = strip s.
Proof.
  unfold strip. split; [|apply rstrip_idempotent].
  destruct (lstrip s) as [|c r] eqn:E; [reflexivity|].
  apply lstrip_head in E.
  destruct (rstrip_cons_nonspace c r E) as [r' ->].
  simpl. rewrite E. reflexivity.
Qed.

Lemma strip_idempotent (s : text) : strip (strip s) = strip s.
Proof.
  destruct (strip_trimmed s) as [H1 H2].
  unfold strip at 1. rewrite H1. exact H2.
Qed.

(** Stripping keeps a contiguous piece of the text. *)
Lemma strip_infix (s : text) : exists pre suf, s = pre ++ strip s ++ suf.
Proof.
  destruct (lstrip_suffix s) as [pre H1].
  destruct (rstrip_prefix (lstrip s)) as [suf H2].
  exists pre, suf. unfold strip. rewrite <- H2. exact H1.
Qed.

(** X1.  The sentences of a text are never empty and carry no whitespace at
    either end. *)
Theorem split_into_sentences_trimmed (t s : text) :
  In s (split_into_sentences t) ->
  s <> [] /\ strip s = s /\ lstrip s = s /\ rstrip s = s.
Proof.
  unfold split_into_sentences. intros H.
  apply in_map_iff in H. destruct H as (s0 & <- & H0).
  apply filter_In in H0. destruct H0 as [_ Hne].
  destruct (strip_trimmed s0) as [H1 H2].
  split; [intros E; rewrite E in Hne; discriminate|].
  split; [apply strip_idempotent|]. split; assumption.
Qed.

Lemma split_into_sentences_trimmed_witness :
  T "Ok?" <> [] /\ strip (T "Ok?") = T "Ok?".
Proof.
  destruct (split_into_sentences_trimmed
              (T "Mr. Smith went.  He left! Ok? ") (T "Ok?")) as (H1 & H2 & _).
  - vm_compute. right. right. left. reflexivity.
  - split; assumption.
Defined.

End Stripping.

Section ChunkShapes.
Import TextUtils.

Lemma add_sentence_stripped (chunk_size overlap : Z) (chunks : list text)
    (current sentence : text) :
  Forall (fun c => strip c = c) chunks ->
  Forall (fun c => strip c = c)
         (fst (add_sentence chunk_size overlap (chunks, current) sentence)).
Proof.
  intros H. unfold add_sentence.
  destruct ((len current + len sentence >? chunk_size) && truthy current);
    [|exact H].
  assert (H' : Forall (fun c => strip c = c) (chunks ++ [strip current])).
  { apply Forall_app. split; [exact H|].
    constructor; [apply strip_idempotent | constructor]. }
  destruct ((overlap >? 0) && (len current >? overlap)); exact H'.
Qed.

Lemma fold_add_sentence_stripped (chunk_size overlap : Z) :
  forall (sentences chunks : list text) (current : text),
    Forall (fun c => strip c = c) chunks ->
    Forall (fun c => strip c = c)
           (fst (fold_left (add_sentence chunk_size overlap) sentences
                           (chunks, current))).
Proof.
  induction sentences as [|s l IH]; intros chunks current H; [exact H|].
  cbn [fold_left].
  pose proof (add_sentence_stripped chunk_size overlap chunks current s H) as H1.
  destruct (add_sentence chunk_size overlap (chunks, current) s) as [cs cur].
  apply IH. exact H1.
Qed.

(** X2.  With [preserve_sentences] the call returns whatever the fuel; no chunk
    is empty or longer than [chunk_bound]; and when the text is longer than
    [chunk_size] every chunk is free of whitespace at both ends. *)
Theorem chunk_text_sentences_shape (fuel : nat) (t : text)
    (chunk_size overlap : Z) :
  exists chunks,
    chunk_text fuel t chunk_size overlap true = Some chunks
    /\ Forall (fun c => c <> []
                        /\ len c <= chunk_bound chunk_size overlap
                                                (split_into_sentences t)) chunks
    /\ (chunk_size < len t -> Forall (fun c => strip c = c) chunks).
Proof.
  destruct (chunk_text fuel t chunk_size overlap true) as [chunks|] eqn:E.
  2: { unfold chunk_text in E.
       destruct (negb (truthy t) || (len t <=? chunk_size)); discriminate. }
  exists chunks. split; [reflexivity|].
  pose proof (chunk_text_sentences_length_bound fuel t chunk_size overlap
                chunks E) as Hb.
  unfold chunk_text in E.
  destruct (negb (truthy t) || (len t <=? chunk_size)) eqn:Esmall.
  - inversion E; subst chunks. split.
    + destruct t as [|c t']; constructor; [|constructor].
      inversion Hb; subst. split; [discriminate | assumption].
    + intros Hlong. destruct t as [|c t']; [constructor|].
      simpl in Esmall. apply Z.leb_le in Esmall. lia.
  - inversion E; subst chunks. clear E. split.
    + apply Forall_forall. intros c Hc.
      rewrite Forall_forall in Hb. split; [|apply Hb; exact Hc].
      apply list_elem_of_In, filter_In in Hc. destruct Hc as [_ Hc].
      intros ->. discriminate.
    + intros _. unfold sentence_chunks.
      pose proof (fold_add_sentence_stripped chunk_size overlap
                    (split_into_sentences t) [] [] (List.Forall_nil _)) as Hs.
      destruct (fold_left (add_sentence chunk_size overlap)
                          (split_into_sentences t) ([], [])) as [cs cur].
      cbn [fst] in Hs.
      apply Forall_forall. intros c Hc.
      apply list_elem_of_In, filter_In in Hc. destruct Hc as [Hc _].
      rewrite Forall_forall in Hs.
      destruct (truthy cur).
      * apply in_app_or in Hc. destruct Hc as [Hc|[<-|[]]].
        -- apply Hs, list_elem_of_In. exact Hc.
        -- apply strip_idempotent.
      * apply Hs, list_elem_of_In. exact Hc.
Qed.

Lemma slice_window (t : text) (chunk_size start : Z) :
  0 < chunk_size -> 0 <= start < len t ->
  is_window t chunk_size (slice t start (start + chunk_size)).
Proof.
  intros Hcs [H0 Hlt]. unfold is_window, slice, adjust_index, len in *.
  destruct (start <? 0) eqn:E1; [lia|].
  destruct (start + chunk_size <? 0) eqn:E2; [lia|].
  replace (Z.min start (Z.of_nat (length t))) with start by lia.
  split.
  - rewrite length_take, length_drop. lia.
  - exists (take (Z.to_nat start) t).
    eexists. rewrite take_drop. rewrite take_drop. reflexivity.
Qed.

Lemma char_loop_windows (t : text) (chunk_size overlap : Z) :
  0 <= overlap < chunk_size ->
  forall (fuel : nat) (start : Z) (acc r : list text),
    0 <= start ->
    Forall (is_window t chunk_size) acc ->
    char_loop fuel t chunk_size overlap start acc = Some r ->
    Forall (is_window t chunk_size) r.
Proof.
  intros Hov fuel. induction fuel as [|fuel IH]; intros start acc r Hs Hacc H.
  - discriminate.
  - simpl in H. destruct (start <? len t) eqn:E.
    + apply Z.ltb_lt in E. eapply IH; [| |exact H].
      * rewrite next_start_step by lia. lia.
      * apply Forall_app. split; [exact Hacc|].
        constructor; [|constructor]. apply slice_window; lia.
    + inversion H; subst. exact Hacc.
Qed.

Lemma chunk_text_chars_windows_of (fuel : nat) (t : text)
    (chunk_size overlap : Z) (chunks : list text) :
  0 <= overlap < chunk_size ->
  chunk_text fuel t chunk_size overlap false = Some chunks ->
  Forall (fun c => is_window t chunk_size c) chunks
  /\ (chunk_size < len t -> Forall (fun c => strip c <> []) chunks).
Proof.
  intros Hov H. unfold chunk_text in H.
  destruct (negb (truthy t) || (len t <=? chunk_size)) eqn:Esmall.
  - inversion H; subst chunks. split.
    + destruct t as [|c t']; constructor; [|constructor].
      simpl in Esmall. apply Z.leb_le in Esmall.
      split; [unfold len in *; simpl in *; lia|].
      exists [], []. rewrite app_nil_r. reflexivity.
    + intros Hlong. destruct t as [|c t']; [constructor|].
      simpl in Esmall. apply Z.leb_le in Esmall. lia.
  - destruct (char_loop fuel t chunk_size overlap 0 []) as [r|] eqn:Er;
      [|discriminate].
    inversion H; subst chunks.
    pose proof (char_loop_windows t chunk_size overlap Hov fuel 0 [] r
                  ltac:(lia) (List.Forall_nil _) Er) as Hw.
    split.
    + apply Forall_forall. intros c Hc.
      apply list_elem_of_In, filter_In in Hc. destruct Hc as [Hc _].
      rewrite Forall_forall in Hw. apply Hw, list_elem_of_In. exact Hc.
    + intros _. apply Forall_forall. intros c Hc.
      apply list_elem_of_In, filter_In in Hc. destruct Hc as [_ Hc].
      intros E. rewrite E in Hc. discriminate.
Qed.

(** X3.  Without [preserve_sentences], for [0 <= overlap < chunk_size], the
    call returns, the same chunks for any fuel above the length of the
    text; every chunk is a contiguous piece of the text of between one and
    [chunk_size] characters, and is not blank. *)
Theorem chunk_text_chars_windows (t : text) (chunk_size overlap : Z) :
  0 <= overlap < chunk_size ->
  exists chunks,
    (forall fuel, (length t < fuel)%nat ->
       chunk_text fuel t chunk_size overlap false = Some chunks)
    /\ Forall (fun c => is_window t chunk_size c) chunks
    /\ (chunk_size < len t -> Forall (fun c => strip c <> []) chunks).
Proof.
  intros Hov.
  destruct (char_loop_enough_fuel t chunk_size overlap Hov
              (S (length t)) 0 []) as [r Hr]; [lia | unfold len; lia |].
  set (chunks := if negb (truthy t) || (len t <=? chunk_size)
                 then (if truthy t then [t] else [])
                 else List.filter (fun chunk => truthy (strip chunk)) r).
  assert (Hrun : forall fuel, (length t < fuel)%nat ->
             chunk_text fuel t chunk_size overlap false = Some chunks).
  { intros fuel Hf. unfold chunk_text. subst chunks.
    destruct (negb (truthy t) || (len t <=? chunk_size)); [reflexivity|].
    rewrite (char_loop_more_fuel _ _ _ _ _ _ _ Hr fuel) by lia.
    reflexivity. }
  exists chunks. split; [exact Hrun|].
  apply (chunk_text_chars_windows_of (S (length t)) t chunk_size overlap
           chunks Hov).
  apply Hrun. lia.
Qed.

Lemma chunk_text_chars_windows_witness :
  exists chunks,
    chunk_text 27 (T "abcdefghijklmnopqrstuvwxyz") 10 3 false = Some chunks
    /\ Forall (fun c => is_window (T "abcdefghijklmnopqrstuvwxyz") 10 c)
              chunks.
Proof.
  destruct (chunk_text_chars_windows (T "abcdefghijklmnopqrstuvwxyz") 10 3)
    as (chunks & Hrun & Hw & _); [lia|].
  exists chunks. split; [apply Hrun; cbn; lia | exact Hw].
Defined.

End ChunkShapes.

Section Whitespace.
Import TextUtils.

Lemma single_spaced_collapse :
  forall (t : text) (b : bool), single_spaced b (collapse_spaces b t) = true.
Proof.
  induction t as [|c t IH]; intros b; [reflexivity|].
  simpl. destruct (is_space c) eqn:E.
  - destruct b; [apply IH|]. simpl. apply IH.
  - simpl. rewrite E. apply IH.
Qed.

Lemma collapse_single_spaced :
  forall (t : text) (b : bool),
    single_spaced b t = true -> collapse_spaces b t = t.
Proof.
  induction t as [|c t IH]; intros b H; [reflexivity|].
  simpl in *. destruct (is_space c) eqn:E.
  - apply andb_true_iff in H. destruct H as [H H3].
    apply andb_true_iff in H. destruct H as [H1 H2].
    apply bool_decide_eq_true in H1. subst c.
    destruct b; [discriminate|]. f_equal. apply IH. exact H3.
  - f_equal. apply IH. exact H.
Qed.

Lemma single_spaced_weaken :
  forall (t : text) (b : bool),
    single_spaced b t = true -> single_spaced false t = true.
Proof.
  intros [|c t] b H; [reflexivity|]. simpl in *.
  destruct (is_space c); [|exact H].
  apply andb_true_iff in H. destruct H as [H H3].
  apply andb_true_iff in H. destruct H as [H1 _].
  rewrite H1, H3. reflexivity.
Qed.

Lemma single_spaced_lstrip :
  forall (t : text) (b : bool),
    single_spaced b t = true -> single_spaced false (lstrip t) = true.
Proof.
  induction t as [|c t IH]; intros b H; [reflexivity|].
  simpl in *. destruct (is_space c) eqn:E.
  - apply andb_true_iff in H. destruct H as [_ H3]. eapply IH. exact H3.
  - simpl. rewrite E. exact H.
Qed.

Lemma single_spaced_prefix :
  forall (t u : text) (b : bool),
    single_spaced b (t ++ u) = true -> single_spaced b t = true.
Proof.
  induction t as [|c t IH]; intros u b H; [reflexivity|].
  simpl in *. destruct (is_space c).
  - apply andb_true_iff in H. destruct H as [H H3].
    rewrite H. simpl. eapply IH. exact H3.
  - eapply IH. exact H.
Qed.

Lemma single_spaced_strip (t : text) (b : bool) :
  single_spaced b t = true -> single_spaced false (strip t) = true.
Proof.
  intros H. unfold strip.
  apply single_spaced_lstrip in H.
  destruct (rstrip_prefix (lstrip t)) as [suf Hs].
  rewrite Hs in H. eapply single_spaced_prefix. exact H.
Qed.

Lemma single_spaced_no_run :
  forall (t pre post : text) (c d : ascii) (b : bool),
    single_spaced b t = true ->
    t = pre ++ c :: d :: post ->
    is_space c && is_space d = false.
Proof.
  induction t as [|x t IH]; intros pre post c d b H Ht.
  - destruct pre; discriminate.
  - destruct pre as [|p pre]; simpl in Ht; inversion Ht; subst.
    + simpl in H. destruct (is_space c) eqn:Ec; [|reflexivity].
      destruct (is_space d) eqn:Ed; [|reflexivity].
      apply andb_true_iff in H. destruct H as [_ H].
      apply andb_true_iff in H. destruct H as [H _].
      apply andb_true_iff in H. destruct H as [_ H]. discriminate.
    + simpl in H. destruct (is_space p).
      * apply andb_true_iff in H. destruct H as [_ H].
        eapply IH; [exact H | reflexivity].
      * eapply IH; [exact H | reflexivity].
Qed.

Lemma single_spaced_only_spaces :
  forall (t : text) (b : bool) (c : ascii),
    single_spaced b t = true -> In c t -> is_space c = true -> c = " "%char.
Proof.
  induction t as [|x t IH]; intros b c H Hin Hc; [destruct Hin|].
  simpl in H. destruct Hin as [->|Hin].
  - rewrite Hc in H. apply andb_true_iff in H. destruct H as [H _].
    apply andb_true_iff in H. destruct H as [H _].
    apply bool_decide_eq_true in H. exact H.
  - destruct (is_space x).
    + apply andb_true_iff in H. destruct H as [_ H]. eapply IH; eassumption.
    + eapply IH; eassumption.
Qed.

(** X4.  [normalize_whitespace] is idempotent; its result has no whitespace at
    either end, no whitespace character other than the plain space, and no
    two whitespace characters in a row. *)
Theorem normalize_whitespace_normal (t : text) :
  let n := normalize_whitespace t in
  normalize_whitespace n = n
  /\ strip n = n
  /\ (forall c, In c n -> is_space c = true -> c = " "%char)
  /\ (forall pre c d post,
        n = pre ++ c :: d :: post -> is_space c && is_space d = false).
Proof.
  intros n. subst n. unfold normalize_whitespace.
  pose proof (single_spaced_strip _ _ (single_spaced_collapse t false)) as Hs.
  split; [|split; [|split]].
  - rewrite (collapse_single_spaced _ _ Hs). apply strip_idempotent.
  - apply strip_idempotent.
  - intros c. apply (single_spaced_only_spaces _ _ c Hs).
  - intros pre c d post. apply (single_spaced_no_run _ pre post c d _ Hs).
Qed.

Lemma is_printable_space (c : ascii) :
  is_printable c = true -> is_space c = true -> c = " "%char.
Proof.
  destruct c as [[] [] [] [] [] [] [] []]; vm_compute; intros H1 H2;
    try discriminate; reflexivity.
Qed.

Lemma collapse_printable :
  forall (t : text) (b : bool),
    Forall (fun c => is_printable c = true) t ->
    Forall (fun c => is_printable c = true) (collapse_spaces b t).
Proof.
  induction t as [|c t IH]; intros b H; [constructor|].
  inversion H as [|? ? Hc Ht]; subst. simpl.
  destruct (is_space c); [destruct b|].
  - apply IH. exact Ht.
  - constructor; [reflexivity | apply IH; exact Ht].
  - constructor; [exact Hc | apply IH; exact Ht].
Qed.

Lemma strip_Forall (P : ascii -> Prop) (t : text) :
  Forall P t -> Forall P (strip t).
Proof.
  intros H. destruct (strip_infix t) as (pre & suf & Ht).
  rewrite Ht in H. apply Forall_app in H. destruct H as [_ H].
  apply Forall_app in H. destruct H as [H _]. exact H.
Qed.

Lemma filter_all {A} (p : A -> bool) (l : list A) :
  Forall (fun x => p x = true) l -> List.filter p l = l.
Proof.
  induction 1 as [|x l Hx _ IH]; [reflexivity|].
  simpl. rewrite Hx, IH. reflexivity.
Qed.

(** X5.  [clean_text] returns printable ASCII only, and on a text that is
    printable ASCII already it is [normalize_whitespace]. *)
Theorem clean_text_printable (t : text) :
  Forall (fun c => is_printable c = true) (clean_text t)
  /\ (Forall (fun c => is_printable c = true) t ->
      clean_text t = normalize_whitespace t).
Proof.
  unfold clean_text, normalize_whitespace. split.
  - apply Forall_forall. intros c Hc.
    apply list_elem_of_In, filter_In in Hc. apply Hc.
  - intros H. apply filter_all, strip_Forall, collapse_printable. exact H.
Qed.

Lemma clean_text_printable_witness :
  clean_text (T "  a   b ") = normalize_whitespace (T "  a   b ").
Proof.
  apply (clean_text_printable (T "  a   b ")).
  repeat constructor.
Defined.

(** Removing a character between two spaces leaves them side by side:
    [clean_text] is not idempotent. *)
Example clean_text_not_idempotent :
  let t := [ "a"; " "; "001"; " "; "b" ]%char in
  clean_text t = T "a  b" /\ clean_text (clean_text t) = T "a b".
Proof. split; vm_compute; reflexivity. Qed.

(** X6.  A text that fits is returned as it is.  When the suffix itself fits in
    [max_length], a longer text is cut to exactly [max_length] characters:
    its first [max_length - len(suffix)] characters and the suffix. *)
Theorem truncate_text_length (t : text) (max_length : Z) (suffix : text) :
  len suffix <= max_length ->
  len (truncate_text t max_length suffix) <= max_length
  /\ (len t <= max_length -> truncate_text t max_length suffix = t)
  /\ (max_length < len t ->
      truncate_text t max_length suffix
      = take (Z.to_nat (max_length - len suffix)) t ++ suffix
      /\ len (truncate_text t max_length suffix) = max_length).
Proof.
  intros Hs. unfold truncate_text.
  destruct (len t <=? max_length) eqn:E.
  - apply Z.leb_le in E. split; [exact E|]. split; [reflexivity | lia].
  - apply Z.leb_gt in E.
    assert (Hslice : slice t 0 (max_length - len suffix)
                     = take (Z.to_nat (max_length - len suffix)) t).
    { unfold slice, adjust_index, len in *.
      destruct (max_length - Z.of_nat (length suffix) <? 0) eqn:E2; [lia|].
      change (0 <? 0) with false. cbv iota.
      replace (Z.min 0 (Z.of_nat (length t))) with 0 by lia.
      change (Z.to_nat 0) with 0%nat. rewrite drop_0.
      destruct (Z_le_gt_dec (max_length - Z.of_nat (length suffix))
                            (Z.of_nat (length t))) as [Hle|Hgt].
      - f_equal. lia.
      - lia. }
    rewrite Hslice.
    assert (Hlen : len (take (Z.to_nat (max_length - len suffix)) t ++ suffix)
                   = max_length).
    { unfold len in *. rewrite length_app, length_take. lia. }
    split; [lia|]. split; [lia|]. intros _. split; [reflexivity | exact Hlen].
Qed.

Lemma truncate_text_length_witness :
  truncate_text (T "abcdefghijkl") 8 (T "...") = T "abcde...".
Proof.
  destruct (truncate_text_length (T "abcdefghijkl") 8 (T "...")) as (_ & _ & H).
  - vm_compute. discriminate.
  - destruct H as [H _]; [reflexivity|]. exact H.
Defined.

(** A suffix longer than [max_length] turns the cut into a slice from the
    end, and the "truncated" text comes out longer than the original. *)
Example truncate_text_short_limit :
  truncate_text (T "abcdefghijkl") 2 (T "...") = T "abcdefghijk...".
Proof. vm_compute. reflexivity. Qed.

End Whitespace.

Section Words.
Import TextUtils.

Lemma is_space_not_word (c : ascii) : is_space c = true -> is_word c = false.
Proof.
  destruct c as [[] [] [] [] [] [] [] []]; vm_compute; intros H;
    try discriminate; reflexivity.
Qed.

Lemma word_runs_app_sep (b : text) (sep : ascii) :
  is_word sep = false ->
  forall (a cur : text),
    word_runs cur (a ++ sep :: b) = word_runs cur a ++ word_runs [] b.
Proof.
  intros Hsep. induction a as [|c a IH]; intros cur; simpl.
  - rewrite Hsep. reflexivity.
  - destruct (is_word c); [apply IH|].
    rewrite IH, app_assoc. reflexivity.
Qed.

Lemma word_runs_no_word (suf : text) :
  Forall (fun c => is_word c = false) suf -> word_runs [] suf = [].
Proof.
  induction 1 as [|x suf Hx _ IH]; [reflexivity|].
  simpl. rewrite Hx. exact IH.
Qed.

Lemma word_runs_trailing (suf : text) :
  Forall (fun c => is_word c = false) suf ->
  forall (a cur : text), word_runs cur (a ++ suf) = word_runs cur a.
Proof.
  intros Hsuf. induction a as [|c a IH]; intros cur; simpl.
  - destruct Hsuf as [|x suf Hx Hs]; [reflexivity|].
    simpl. rewrite Hx, (word_runs_no_word suf Hs). apply app_nil_r.
  - destruct (is_word c); [apply IH|]. rewrite IH. reflexivity.
Qed.

Lemma word_runs_collapse :
  forall t : text,
    word_runs [] (collapse_spaces true t) = word_runs [] t
    /\ forall cur, word_runs cur (collapse_spaces false t) = word_runs cur t.
Proof.
  induction t as [|c t [IH1 IH2]]; [split; reflexivity|].
  simpl. destruct (is_space c) eqn:E.
  - rewrite (is_space_not_word c E). split.
    + simpl. exact IH1.
    + intros cur. simpl. rewrite IH1. reflexivity.
  - split.
    + simpl. destruct (is_word c); rewrite IH2; reflexivity.
    + intros cur. simpl. destruct (is_word c); rewrite IH2; reflexivity.
Qed.

Lemma word_runs_lstrip (t : text) : word_runs [] (lstrip t) = word_runs [] t.
Proof.
  induction t as [|c t IH]; [reflexivity|].
  simpl. destruct (is_space c) eqn:E; [|reflexivity].
  rewrite (is_space_not_word c E). simpl. exact IH.
Qed.

Lemma lstrip_dropped (s : text) :
  exists pre, s = pre ++ lstrip s /\ Forall (fun c => is_space c = true) pre.
Proof.
  induction s as [|c s (pre & IH & Hpre)]; [exists []; split; [reflexivity | constructor]|].
  simpl. destruct (is_space c) eqn:E.
  - exists (c :: pre). split; [simpl; f_equal; exact IH | constructor; assumption].
  - exists []. split; [reflexivity | constructor].
Qed.

Lemma rstrip_dropped (s : text) :
  exists suf, s = rstrip s ++ suf /\ Forall (fun c => is_space c = true) suf.
Proof.
  unfold rstrip. destruct (lstrip_dropped (rev s)) as (pre & H & Hpre).
  exists (rev pre). split.
  - rewrite <- rev_app_distr, <- H, rev_involutive. reflexivity.
  - apply Forall_forall. intros c Hc.
    rewrite Forall_forall in Hpre. apply Hpre.
    apply list_elem_of_In. apply list_elem_of_In in Hc.
    apply in_rev. exact Hc.
Qed.

Lemma word_runs_strip (t : text) : word_runs [] (strip t) = word_runs [] t.
Proof.
  unfold strip. rewrite <- (word_runs_lstrip t).
  destruct (rstrip_dropped (lstrip t)) as (suf & H & Hsuf).
  rewrite H at 2. symmetry. apply word_runs_trailing.
  eapply Forall_impl; [exact Hsuf|]. apply is_space_not_word.
Qed.

Lemma word_runs_words :
  forall (t cur : text),
    Forall (fun c => is_word c = true) cur ->
    Forall (fun w => w <> [] /\ Forall (fun c => is_word c = true) w)
           (word_runs cur t).
Proof.
  assert (Hclose : forall cur,
             Forall (fun c => is_word c = true) cur ->
             Forall (fun w => w <> [] /\ Forall (fun c => is_word c = true) w)
                    (close_run cur)).
  { intros cur Hcur. unfold close_run. destruct cur as [|c cur]; simpl.
    - constructor.
    - constructor; [|constructor]. split.
      + intros H. apply (f_equal (@length ascii)) in H.
        rewrite length_app in H. simpl in H. lia.
      + apply Forall_app. split.
        * apply Forall_forall. intros x Hx. rewrite Forall_forall in Hcur.
          apply Hcur. apply list_elem_of_In. right.
          apply list_elem_of_In in Hx. apply in_rev. exact Hx.
        * inversion Hcur; subst. constructor; [assumption | constructor]. }
  induction t as [|c t IH]; intros cur Hcur; simpl.
  - apply Hclose. exact Hcur.
  - destruct (is_word c) eqn:E.
    + apply IH. constructor; assumption.
    + apply Forall_app. split; [apply Hclose; exact Hcur|].
      apply IH. constructor.
Qed.

(** X7.  The words counted are the maximal runs of word characters: the count
    adds up over a separator that is no word character, and normalising
    the whitespace does not change it. *)
Theorem count_words_runs (t : text) :
  (forall (a b : text) (sep : ascii),
      is_word sep = false ->
      count_words (a ++ sep :: b) = count_words a + count_words b)
  /\ count_words (normalize_whitespace t) = count_words t
  /\ Forall (fun w => w <> [] /\ Forall (fun c => is_word c = true) w)
            (word_runs [] t).
Proof.
  split; [|split].
  - intros a b sep Hsep. unfold count_words, len.
    rewrite (word_runs_app_sep b sep Hsep), length_app. lia.
  - unfold count_words, normalize_whitespace.
    rewrite word_runs_strip. destruct (word_runs_collapse t) as [_ H].
    rewrite H. reflexivity.
  - apply word_runs_words. constructor.
Qed.

Lemma count_words_runs_witness :
  count_words (T "two words" ++ ","%char :: T "and three more")
  = count_words (T "two words") + count_words (T "and three more").
Proof.
  apply (count_words_runs []). reflexivity.
Defined.

Lemma text_eqb_eq (a b : text) : text_eqb a b = true <-> a = b.
Proof. unfold text_eqb. apply bool_decide_eq_true. Qed.

Lemma text_eqb_neq (a b : text) : text_eqb a b = false <-> a <> b.
Proof. unfold text_eqb. apply bool_decide_eq_false. Qed.

Lemma occurrences_snoc (k w : text) (seen : list text) :
  occurrences k (seen ++ [w])
  = occurrences k seen + (if text_eqb k w then 1 else 0).
Proof.
  unfold occurrences, len. rewrite List.filter_app, length_app. simpl.
  destruct (text_eqb k w); simpl; lia.
Qed.

Lemma occurrences_absent (w : text) (seen : list text) :
  ~ In w seen -> occurrences w seen = 0.
Proof.
  intros H. unfold occurrences, len.
  induction seen as [|x seen IH]; [reflexivity|].
  simpl. destruct (text_eqb w x) eqn:E.
  - apply text_eqb_eq in E. subst x. exfalso. apply H. left. reflexivity.
  - apply IH. intros Hin. apply H. right. exact Hin.
Qed.

Lemma bump_keys (w : text) (freq : list (text * Z)) (k : text) :
  In k (map fst (bump w freq)) <-> k = w \/ In k (map fst freq).
Proof.
  induction freq as [|[x n] freq IH]; simpl.
  - split; [intros [H|[]]; left; auto | intros [H|[]]; left; auto].
  - destruct (text_eqb x w) eqn:E; simpl.
    + apply text_eqb_eq in E. subst x. split; [auto|].
      intros [-> | H]; [left; reflexivity | exact H].
    + rewrite IH. split.
      * intros [H|[H|H]]; auto.
      * intros [H|[H|H]]; auto.
Qed.

Lemma bump_NoDup (w : text) (freq : list (text * Z)) :
  List.NoDup (map fst freq) -> List.NoDup (map fst (bump w freq)).
Proof.
  induction freq as [|[x n] freq IH]; simpl; intros H.
  - constructor; [intros [] | constructor].
  - inversion H as [|? ? Hx Hrest]; subst.
    destruct (text_eqb x w) eqn:E; simpl.
    + constructor; assumption.
    + constructor; [|apply IH; exact Hrest].
      rewrite bump_keys. intros [-> | Hin]; [|contradiction].
      apply text_eqb_neq in E. congruence.
Qed.

(** The counts kept in the dictionary are the numbers of occurrences. *)
Lemma bump_counts (w : text) (seen : list text) :
  forall freq : list (text * Z),
    List.NoDup (map fst freq) ->
    (In w (map fst freq) \/ occurrences w seen = 0) ->
    Forall (fun e => snd e = occurrences (fst e) seen) freq ->
    Forall (fun e => snd e = occurrences (fst e) (seen ++ [w])) (bump w freq).
Proof.
  induction freq as [|[x n] freq IH]; simpl; intros Hnd Hw Hok.
  - constructor; [|constructor]. simpl.
    rewrite occurrences_snoc.
    destruct Hw as [[] | ->].
    rewrite (proj2 (text_eqb_eq w w) eq_refl). reflexivity.
  - inversion Hnd as [|? ? Hx Hrest]; subst.
    inversion Hok as [|? ? Hn Hok']; subst. simpl in Hn.
    destruct (text_eqb x w) eqn:E.
    + apply text_eqb_eq in E. subst x.
      constructor.
      * simpl. rewrite occurrences_snoc, (proj2 (text_eqb_eq w w) eq_refl). lia.
      * apply Forall_forall. intros e He.
        rewrite Forall_forall in Hok'. rewrite occurrences_snoc, <- (Hok' e He).
        destruct (text_eqb (fst e) w) eqn:E2; [|lia].
        apply text_eqb_eq in E2. exfalso. apply Hx. rewrite <- E2.
        apply in_map. apply list_elem_of_In. exact He.
    + constructor.
      * simpl. rewrite occurrences_snoc, E. lia.
      * apply IH; [exact Hrest | | exact Hok'].
        destruct Hw as [[Hw|Hw]|Hw]; [|left; exact Hw | right; exact Hw].
        apply text_eqb_neq in E. congruence.
Qed.

Lemma word_freq_spec :
  forall (keywords seen : list text) (freq : list (text * Z)),
    List.NoDup (map fst freq) ->
    (forall k, In k (map fst freq) <-> In k seen) ->
    Forall (fun e => snd e = occurrences (fst e) seen) freq ->
    let freq' := fold_left (fun f word => bump word f) keywords freq in
    List.NoDup (map fst freq')
    /\ (forall k, In k (map fst freq') <-> In k (seen ++ keywords))
    /\ Forall (fun e => snd e = occurrences (fst e) (seen ++ keywords)) freq'.
Proof.
  induction keywords as [|w keywords IH]; intros seen freq Hnd Hkeys Hok.
  - simpl. rewrite app_nil_r. auto.
  - cbn [fold_left].
    replace (seen ++ w :: keywords) with ((seen ++ [w]) ++ keywords)
      by (rewrite <- app_assoc; reflexivity).
    apply IH.
    + apply bump_NoDup. exact Hnd.
    + intros k. rewrite bump_keys, in_app_iff, Hkeys. simpl.
      split; [intros [-> | H]; auto | intros [H | [-> | []]]; auto].
    + apply bump_counts; [exact Hnd | | exact Hok].
      destruct (List.in_dec (List.list_eq_dec ascii_dec) w seen) as [Hin|Hnin].
      * left. apply Hkeys. exact Hin.
      * right. apply occurrences_absent. exact Hnin.
Qed.

Lemma insert_by_count_perm (x : text * Z) (l : list (text * Z)) :
  Permutation (x :: l) (insert_by_count x l).
Proof.
  induction l as [|y l IH]; simpl; [reflexivity|].
  destruct (snd y <? snd x); [reflexivity|].
  rewrite <- IH. apply perm_swap.
Qed.

Lemma sort_by_count_perm_gen :
  forall (items acc : list (text * Z)),
    Permutation (acc ++ items)
                (fold_left (fun sorted x => insert_by_count x sorted) items acc).
Proof.
  induction items as [|x items IH]; intros acc; simpl.
  - rewrite app_nil_r. reflexivity.
  - rewrite <- IH, <- insert_by_count_perm.
    simpl. symmetry. apply Permutation_middle.
Qed.

Lemma insert_by_count_sorted (x : text * Z) (l : list (text * Z)) :
  StronglySorted (fun a b => snd b <= snd a) l ->
  StronglySorted (fun a b => snd b <= snd a) (insert_by_count x l).
Proof.
  induction l as [|y l IH]; simpl; intros H.
  - constructor; constructor.
  - inversion H as [|? ? Hl Hy]; subst.
    destruct (snd y <? snd x) eqn:E.
    + apply Z.ltb_lt in E. constructor; [exact H|].
      constructor; [lia|].
      eapply Forall_impl; [exact Hy|]. simpl. intros z Hz. lia.
    + apply Z.ltb_ge in E. constructor; [apply IH; exact Hl|].
      rewrite <- insert_by_count_perm. constructor; assumption.
Qed.

Lemma sort_by_count_sorted_gen :
  forall (items acc : list (text * Z)),
    StronglySorted (fun a b => snd b <= snd a) acc ->
    StronglySorted (fun a b => snd b <= snd a)
      (fold_left (fun sorted x => insert_by_count x sorted) items acc).
Proof.
  induction items as [|x items IH]; intros acc H; [exact H|].
  simpl. apply IH, insert_by_count_sorted. exact H.
Qed.

Lemma StronglySorted_take {A} (R : A -> A -> Prop) (n : nat) :
  forall l : list A, StronglySorted R l -> StronglySorted R (take n l).
Proof.
  induction n as [|n IH]; intros l H; [constructor|].
  destruct l as [|x l]; [constructor|].
  inversion H as [|? ? Hl Hx]; subst. simpl. constructor; [apply IH; exact Hl|].
  apply Forall_take. exact Hx.
Qed.

Lemma StronglySorted_map_fst (f : text -> Z) (l : list (text * Z)) :
  Forall (fun e => snd e = f (fst e)) l ->
  StronglySorted (fun a b => snd b <= snd a) l ->
  StronglySorted (fun a b => f b <= f a) (map fst l).
Proof.
  intros Hok H. induction H as [|x l Hl IH Hx]; [constructor|].
  inversion Hok as [|? ? Hx0 Hok']; subst.
  simpl. constructor; [apply IH; exact Hok'|].
  apply Forall_forall. intros k Hk.
  apply list_elem_of_In, in_map_iff in Hk. destruct Hk as (e & <- & He).
  rewrite Forall_forall in Hx, Hok'. apply list_elem_of_In in He.
  rewrite <- Hx0, <- (Hok' e He). apply Hx. exact He.
Qed.

(** X8.  [extract_keywords] returns distinct words, at most [max_keywords] of
    them when that is not negative; each is a lower-case word of the text of
    three characters or more that is no stop word; and they come most
    frequent first. *)
Theorem extract_keywords_spec (t : text) (max_keywords : Z) :
  let keywords := keyword_candidates t in
  let result := extract_keywords t max_keywords in
  List.NoDup result
  /\ (0 <= max_keywords -> len result <= max_keywords)
  /\ (forall w, In w result ->
        In w (word_runs [] (lower t))
        /\ (3 <= length w)%nat
        /\ is_stop_word w = false)
  /\ StronglySorted
       (fun a b => occurrences b keywords <= occurrences a keywords) result.
Proof.
  intros keywords result. subst result. unfold extract_keywords.
  fold keywords.
  set (freq := fold_left (fun f word => bump word f) keywords []).
  destruct (word_freq_spec keywords [] [] (List.NoDup_nil _)
              ltac:(intros k; reflexivity) (List.Forall_nil _))
    as (Hnd & Hkeys & Hok).
  fold freq in Hnd, Hkeys, Hok. cbn [app] in Hkeys, Hok.
  pose proof (sort_by_count_perm_gen freq []) as Hperm. cbn [app] in Hperm.
  fold (sort_by_count freq) in Hperm.
  pose proof (sort_by_count_sorted_gen freq [] (SSorted_nil _)) as Hsorted.
  fold (sort_by_count freq) in Hsorted.
  assert (Hslice : exists n, slice (sort_by_count freq) 0 max_keywords
                             = take n (sort_by_count freq)
                             /\ (0 <= max_keywords -> Z.of_nat n <= max_keywords)).
  { exists (Z.to_nat (adjust_index (len (sort_by_count freq)) max_keywords)).
    split.
    - unfold slice.
      assert (H0 : adjust_index (len (sort_by_count freq)) 0 = 0).
      { unfold adjust_index. change (0 <? 0) with false. cbv iota.
        unfold len. lia. }
      rewrite H0. change (Z.to_nat 0) with 0%nat. rewrite drop_0.
      rewrite Z.sub_0_r. reflexivity.
    - intros H0. unfold adjust_index.
      destruct (max_keywords <? 0) eqn:E; [lia|]. unfold len. lia. }
  destruct Hslice as (n & -> & Hn).
  assert (Hsub : forall e, In e (take n (sort_by_count freq)) -> In e freq).
  { intros e He. apply list_elem_of_In in He.
    apply list_elem_of_In. rewrite Hperm.
    rewrite <- (take_drop n (sort_by_count freq)).
    apply elem_of_app. left. exact He. }
  split; [|split; [|split]].
  - assert (Hnd' : List.NoDup (map fst (sort_by_count freq))).
    { eapply Permutation_NoDup; [|exact Hnd].
      apply Permutation_map. exact Hperm. }
    rewrite <- (take_drop n (sort_by_count freq)), map_app in Hnd'.
    apply NoDup_app_remove_r in Hnd'. exact Hnd'.
  - intros H0. specialize (Hn H0). unfold len.
    rewrite length_map, length_take. lia.
  - intros w Hw. apply in_map_iff in Hw. destruct Hw as (e & <- & He).
    apply Hsub in He.
    assert (Hk : In (fst e) keywords) by (apply Hkeys, in_map; exact He).
    unfold keywords, keyword_candidates in Hk.
    apply filter_In in Hk. destruct Hk as [Hk Hstop].
    apply filter_In in Hk. destruct Hk as [Hk Hlen].
    split; [exact Hk|]. split.
    + apply Nat.leb_le. exact Hlen.
    + apply negb_true_iff. exact Hstop.
  - apply StronglySorted_map_fst.
    + apply Forall_forall. intros e He. rewrite Forall_forall in Hok.
      apply Hok. apply list_elem_of_In, Hsub, list_elem_of_In. exact He.
    + apply StronglySorted_take. exact Hsorted.
Qed.

Lemma extract_keywords_spec_witness :
  len (extract_keywords
         (T "The cat and the Cat sat; dog dog dog CAT bird a an it") 3) <= 3.
Proof.
  pose proof (extract_keywords_spec
                (T "The cat and the Cat sat; dog dog dog CAT bird a an it") 3)
    as H.
  cbv zeta in H. destruct H as (_ & H & _). apply H. lia.
Defined.

Example extract_keywords_example :
  extract_keywords (T "The cat and the Cat sat; dog dog dog CAT bird a an it") 3
  = [T "cat"; T "dog"; T "sat"].
Proof. vm_compute. reflexivity. Qed.

End Words.

(* ===================================================================== *)
(** ** Properties of the single-document and knowledge paths              *)
(* ===================================================================== *)

Section Knowledge.
Import DatabaseService StoreTrace RAGController KnowledgeRuns.

Lemma committed_insert (table : string) (rows : list dict)
    (answer : outcome (list dict)) :
  committed [(Insert table rows, answer)]
  = if confirmed (Insert table rows, answer) then rows else [].
Proof.
  unfold committed, confirmed. simpl.
  destruct answer as [data|e]; simpl; [|reflexivity].
  destruct (truthy data); simpl; [apply app_nil_r | reflexivity].
Qed.

Lemma insert_document_run (client : store)
    (generate_embedding : string -> outcome vector)
    (content : string) (metadata : option dict) (w : world) :
  insert_document client generate_embedding content metadata w
  = match generate_embedding content with
    | Raise _ => (Ret None, w)
    | Ret embedding =>
        let c := Insert "documents"
                        [document_row content embedding metadata] in
        let answer := client (events w) c in
        (Ret (match answer with
              | Ret (first :: _) => Some first
              | _ => None
              end),
         {| events := events w ++ [(c, answer)];
            embed_calls := embed_calls w |})
    end.
Proof.
  unfold insert_document, try_except, bind, lift, execute.
  destruct (generate_embedding content) as [embedding|e]; [|reflexivity].
  cbv zeta.
  destruct (client (events w)
              (Insert "documents" [document_row content embedding metadata]))
    as [[|first rest]|e]; reflexivity.
Qed.

(** X9.  [insert_document] never raises and never touches the batch
    embedder.  When the embedding fails nothing is sent to the store and
    the result is [None].  Otherwise exactly one request is sent, the
    insert of the one row built from the content; the result is the first
    row of the answer when the store acknowledged with data, and [None]
    when it did not or raised; the row is committed exactly when the result
    is not [None]. *)
Theorem insert_document_outcome (client : store)
    (generate_embedding : string -> outcome vector)
    (content : string) (metadata : option dict) (w : world) :
  exists (r : option dict) (w' : world),
    insert_document client generate_embedding content metadata w = (Ret r, w')
    /\ embed_calls w' = embed_calls w
    /\ match generate_embedding content with
       | Raise _ => r = None /\ events w' = events w
       | Ret embedding =>
           let row := document_row content embedding metadata in
           let c := Insert "documents" [row] in
           let answer := client (events w) c in
           events w' = events w ++ [(c, answer)]
           /\ (is_Some r <-> confirmed (c, answer) = true)
           /\ (forall first, r = Some first <->
                 exists rest, answer = Ret (first :: rest))
           /\ committed (events w')
              = committed (events w)
                ++ match r with Some _ => [row] | None => [] end
       end.
Proof.
  rewrite insert_document_run.
  destruct (generate_embedding content) as [embedding|e].
  - cbv zeta.
    set (c := Insert "documents" [document_row content embedding metadata]).
    set (answer := client (events w) c).
    set (w1 := {| events := events w ++ [(c, answer)];
                  embed_calls := embed_calls w |}).
    exists (match answer with Ret (first :: _) => Some first | _ => None end), w1.
    split; [reflexivity|].
    split; [reflexivity|]. split; [reflexivity|].
    assert (Hc : committed (events w1)
                 = committed (events w)
                   ++ (if confirmed (c, answer)
                       then [document_row content embedding metadata]
                       else [])).
    { subst w1. cbn [events]. rewrite committed_app. f_equal.
      apply committed_insert. }
    rewrite Hc. unfold confirmed. cbn [snd].
    destruct answer as [[|first rest]|e]; cbn [truthy].
    + split; [split; [intros [x Hx]; discriminate | discriminate]|].
      split; [|reflexivity].
      intros first. split; [discriminate | intros [rest Hr]; discriminate].
    + split; [split; [reflexivity | eauto]|].
      split; [|reflexivity].
      intros f. split.
      * intros [= <-]. eauto.
      * intros [rest' [= <- _]]. reflexivity.
    + split; [split; [intros [x Hx]; discriminate | discriminate]|].
      split; [|reflexivity].
      intros first. split; [discriminate | intros [rest Hr]; discriminate].
  - exists None, w. split; [reflexivity|].
    split; [reflexivity|]. split; reflexivity.
Qed.

(** X10.  [add_knowledge] over [insert_document] never raises and reports
    [(True, 1)] or [(False, 0)].  It reports success exactly when the
    embedding was computed and the store answered the insert with data
    whose first row is not empty, and the row of the content is then
    committed; at most one request is sent. *)
Theorem add_knowledge_outcome (client : store)
    (generate_embedding : string -> outcome vector)
    (content : string) (metadata : option dict) (w : world) :
  exists (ok : bool) (w' : world),
    add_knowledge (insert_document client generate_embedding) content
                  metadata w
    = (Ret (ok, if ok then 1 else 0), w')
    /\ (length (events w') <= length (events w) + 1)%nat
    /\ (ok = true <->
        exists embedding first rest,
          generate_embedding content = Ret embedding
          /\ client (events w)
                (Insert "documents"
                        [document_row content embedding metadata])
             = Ret (first :: rest)
          /\ first <> ∅)
    /\ (ok = true ->
        exists row, committed (events w') = committed (events w) ++ [row]
                    /\ row !! "content" = Some (PStr content)).
Proof.
  unfold add_knowledge, try_except, bind. rewrite insert_document_run.
  destruct (generate_embedding content) as [embedding|e].
  - cbv zeta.
    destruct (client (events w)
                (Insert "documents"
                        [document_row content embedding metadata]))
      as [[|first rest]|e] eqn:E.
    + exists false. eexists. split; [reflexivity|]. cbn [events].
      split; [rewrite length_app; simpl; lia|].
      split; [|discriminate].
      split; [discriminate|].
      intros (embedding' & first & rest & [= <-] & Hans & _).
      rewrite E in Hans. discriminate.
    + exists (negb (bool_decide (first = ∅))). eexists.
      split; [cbn [truthy_row];
              destruct (negb (bool_decide (first = ∅))); reflexivity|].
      cbn [events].
      split; [rewrite length_app; simpl; lia|].
      split.
      * split.
        { intros Hok. exists embedding, first, rest.
          split; [reflexivity|]. split; [exact E|].
          apply negb_true_iff, bool_decide_eq_false in Hok. exact Hok. }
        { intros (embedding' & first' & rest' & [= <-] & Hans & Hne).
          rewrite E in Hans. injection Hans as <- _.
          apply negb_true_iff, bool_decide_eq_false. exact Hne. }
      * intros _. exists (document_row content embedding metadata).
        split.
        { rewrite committed_app, committed_insert. reflexivity. }
        { unfold document_row. rewrite lookup_insert_eq. reflexivity. }
    + exists false. eexists. split; [reflexivity|]. cbn [events].
      split; [rewrite length_app; simpl; lia|].
      split; [|discriminate].
      split; [discriminate|].
      intros (embedding' & first & rest & [= <-] & Hans & _).
      rewrite E in Hans. discriminate.
  - exists false, w. split; [reflexivity|].
    split; [lia|].
    split; [|discriminate].
    split; [discriminate|].
    intros (embedding' & first & rest & H & _). discriminate.
Qed.

(** A store that acknowledges with an empty row makes [add_knowledge]
    report failure although the document was committed. *)
Example add_knowledge_empty_row :
  let out := add_knowledge
               (insert_document empty_row_store (fun _ => Ret [1%float]))
               "alpha" (Some (source_metadata "text_input")) (World [] []) in
  fst out = Ret (false, 0)
  /\ length (committed (events (snd out))) = 1%nat.
Proof. vm_compute. split; reflexivity. Qed.

(** X11.  [batch_add_knowledge] over [batch_insert_documents] never raises.  Its
    count is all or nothing: the number of documents when every batch of 50
    was sent and acknowledged, and 0 otherwise, whatever the number of rows
    the acknowledged batches committed before the failure. *)
Theorem batch_add_knowledge_outcome (client : store) (es : embedder)
    (documents : list dict) (w : world) :
  let parts := batches documents 50 in
  exists (ok : bool) (good bad : list event) (w' : world),
    batch_add_knowledge (batch_insert_default client es) documents w
    = (Ret (ok, if ok then len documents else 0), w')
    /\ events w' = events w ++ good ++ bad
    /\ Forall2 inserts_batch (good ++ bad)
         (take (length (good ++ bad)) parts)
    /\ Forall (fun ev => confirmed ev = true) good
    /\ (bad = [] \/ exists ev, bad = [ev] /\ confirmed ev = false)
    /\ (ok = true <-> bad = [] /\ length good = length parts)
    /\ committed (events w')
       = committed (events w) ++ flat_map inserted_rows good.
Proof.
  intros parts. unfold batch_add_knowledge.
  destruct documents as [|doc documents].
  - exists true, [], [], w. cbn [truthy negb ret].
    split; [reflexivity|]. split; [rewrite !app_nil_r; reflexivity|].
    split; [constructor|]. split; [constructor|].
    split; [left; reflexivity|].
    split; [split; [split; reflexivity | reflexivity]|].
    simpl. rewrite app_nil_r. reflexivity.
  - cbn [truthy negb].
    set (docs := doc :: documents) in *.
    unfold try_except, bind, batch_insert_default, batch_insert_documents,
      bind, lift, floordiv, try_except, range0.
    change (50 =? 0) with false. cbv iota.
    destruct (insert_batches_spec client es docs 50
                (batch_starts (len docs) 50) w)
      as (r & good & bad & w' & Hrun & Hevs & Hf2 & Hgood & Hbad & Hr).
    unfold batch_starts in Hrun. rewrite Hrun.
    assert (Hlen : length parts = length (batch_starts (len docs) 50))
      by (subst parts; unfold batches; rewrite length_map; reflexivity).
    assert (Hcommit : committed (events w')
                      = committed (events w) ++ flat_map inserted_rows good).
    { rewrite Hevs, !committed_app. f_equal.
      apply Forall2_app_inv_l in Hf2.
      destruct Hf2 as (bs1 & bs2 & Hg & Hbd & _).
      rewrite (committed_confirmed_inserts good bs1 Hg Hgood).
      destruct Hbad as [-> | (ev & -> & Hev)].
      - simpl. rewrite app_nil_r. reflexivity.
      - rewrite committed_unconfirmed by exact Hev.
        rewrite app_nil_r. reflexivity. }
    destruct Hr as [Hr1 Hr2].
    destruct r as [[|]|e].
    + exists true, good, bad, w'. cbn [ret].
      split; [reflexivity|]. split; [exact Hevs|]. split; [exact Hf2|].
      split; [exact Hgood|]. split; [exact Hbad|].
      split; [|exact Hcommit].
      split; [intros _; destruct (Hr1 eq_refl) as [H1 H2]; split; [exact H1 | lia]
             | reflexivity].
    + exists false, good, bad, w'. cbn [ret].
      split; [reflexivity|]. split; [exact Hevs|]. split; [exact Hf2|].
      split; [exact Hgood|]. split; [exact Hbad|].
      split; [|exact Hcommit].
      split; [discriminate|].
      intros [H1 H2].
      assert (Ret false = Ret true) as Hb'
        by (apply Hr2; split; [exact H1 | lia]).
      discriminate.
    + exists false, good, bad, w'. cbn [ret].
      split; [reflexivity|]. split; [exact Hevs|]. split; [exact Hf2|].
      split; [exact Hgood|]. split; [exact Hbad|].
      split; [|exact Hcommit].
      split; [discriminate|].
      intros [H1 H2].
      assert (@Raise bool e = Ret true) as Hb'
        by (apply Hr2; split; [exact H1 | lia]).
      discriminate.
Qed.

(** 120 documents, the second batch unacknowledged: the count reported is
    0 while the 50 rows of the first batch are committed. *)
Example batch_add_knowledge_partial :
  let out := batch_add_knowledge
               (batch_insert_default second_insert_unconfirmed unit_embedder)
               (numbered_documents 120) (World [] []) in
  fst out = Ret (false, 0)
  /\ length (committed (events (snd out))) = 50%nat.
Proof. vm_compute. split; reflexivity. Qed.

(** X12.  With the embedding service of the repository behind the database
    service, [batch_add_knowledge] of at least one document reports
    [(False, 0)] and nothing reaches the store. *)
Theorem batch_add_knowledge_repository (client : store)
    (m : EmbeddingService.encoder) (doc : dict) (documents : list dict)
    (w : world) :
  let out := batch_add_knowledge
               (batch_insert_default client (repository_embedder m))
               (doc :: documents) w in
  fst out = Ret (false, 0) /\ events (snd out) = events w.
Proof.
  intros out. subst out.
  unfold batch_add_knowledge. cbn [truthy negb].
  unfold try_except, bind, batch_insert_default.
  pose proof (batch_insert_documents_embedding_failure client
                (repository_embedder m) doc documents 50 w) as H.
  cbv zeta in H.
  destruct H as [H1 H2].
  - intros calls c cs. exists batch_failure.
    apply repository_embedder_raises.
  - lia.
  - destruct (batch_insert_documents client (Some (repository_embedder m))
                (doc :: documents) 50 w) as [r w'].
    cbn [fst snd] in H1, H2. subst r. cbn [ret fst snd].
    split; [reflexivity | exact H2].
Qed.

(** X13.  A negative batch size makes [batch_insert_documents] report success
    without embedding or sending anything. *)
Theorem batch_insert_documents_negative_step (client : store)
    (es : embedder) (documents : list dict) (batch_size : Z) (w : world) :
  batch_size < 0 ->
  batch_insert_documents client (Some es) documents batch_size w
  = (Ret true, w).
Proof.
  intros Hb.
  unfold batch_insert_documents, bind, lift, floordiv, try_except, range0.
  destruct (batch_size =? 0) eqn:E0; [lia|].
  unfold range_count.
  destruct (0 <? batch_size) eqn:E1; [lia|].
  reflexivity.
Qed.

Lemma batch_insert_documents_negative_step_witness :
  batch_insert_documents accepting_store (Some unit_embedder)
    (numbered_documents 3) (-1) (World [] [])
  = (Ret true, World [] []).
Proof.
  apply (batch_insert_documents_negative_step accepting_store
           unit_embedder (numbered_documents 3) (-1) (World [] [])).
  lia.
Defined.

End Knowledge.

(* ===================================================================== *)
(** ** Properties of the LLM service                                      *)
(* ===================================================================== *)

Section LLM.
Import LLMService LLMRuns.
Variable server : ollama.
Variable model_name host system_prompt : string.
Variable format_3f : pyval -> outcome string.
Variable str : pyval -> string.
Variable _build_prompt : string -> list dict -> list dict -> outcome string.
Variable MAX_CONVERSATION_HISTORY : Z.
Variable get_ollama_options : bool -> outcome dict.

Lemma new_requests_app (s s' : service) (new : list request) :
  requests s' = requests s ++ new -> new_requests s s' = new.
Proof. unfold new_requests. intros ->. rewrite drop_app_length. reflexivity. Qed.

Ltac finish_client :=
  rewrite <- ?app_assoc; cbn [app];
  split; [reflexivity|]; split; [reflexivity|];
  split; [simpl; lia | reflexivity].

Lemma get_client_spec (s : service) :
  (exists new,
      _get_client server host s
      = (Ret (Some tt), {| client := Some tt; requests := requests s ++ new |})
      /\ List.filter is_chat new = [] /\ (length new <= 3)%nat
      /\ (is_Some (client s) -> new = []))
  \/ (exists new,
         _get_client server host s
         = (Raise (connection_failure host),
            {| client := None; requests := requests s ++ new |})
         /\ List.filter is_chat new = [] /\ (length new <= 3)%nat
         /\ client s = None).
Proof.
  destruct s as [[[]|] reqs]; cbn [client requests].
  - left. exists []. rewrite app_nil_r. split; [reflexivity|].
    split; [reflexivity|]. split; [simpl; lia | reflexivity].
  - unfold _get_client, bind, get_state, try_except, send, set_client,
      model_names, bind, lift, send, ret, raise, connection_failure.
    cbn [client requests].
    destruct (new_client server reqs host) as [[]|e1]; cbn [client requests].
    2: { right. exists [NewClient host]. finish_client. }
    destruct (list_models server (reqs ++ [NewClient host])) as [models|e2];
      cbn [client requests].
    2: { right. exists [NewClient host; ListModels]. finish_client. }
    destruct (omap (fun m : dict => getitem m "name") models) as [names|e3];
      cbn [client requests].
    2: { right. exists [NewClient host; ListModels]. finish_client. }
    destruct (list_models server ((reqs ++ [NewClient host]) ++ [ListModels]))
      as [models'|e4]; cbn [client requests].
    2: { right. exists [NewClient host; ListModels; ListModels]. finish_client. }
    destruct (omap (fun m : dict => getitem m "name") models') as [names'|e5];
      cbn [client requests].
    2: { right. exists [NewClient host; ListModels; ListModels]. finish_client. }
    left. exists [NewClient host; ListModels; ListModels].
    rewrite <- ?app_assoc. cbn [app].
    split; [reflexivity|]. split; [reflexivity|].
    split; [simpl; lia|]. intros [x Hx]. discriminate.
Qed.


(** X17.  [generate_response] never answers: the first statement of its body
    reads [self._build_prompt], which the class does not define, so every
    call returns the apology for that [AttributeError] and neither sets up
    a client nor sends a request. *)
Theorem generate_response_never_answers (user_message : string)
    (context conversation_history : list dict) (s : service) :
  generate_response server model_name host system_prompt _build_prompt
    MAX_CONVERSATION_HISTORY get_ollama_options
    user_message context conversation_history s
  = (Ret (apology missing_build_prompt), s).
Proof. reflexivity. Qed.

(** X18.  [stream_response] of the service yields exactly one fragment, an error
    text, and ends without raising; no chat request is ever sent.  When the
    messages cannot be built, the error is that failure and nothing
    happened; otherwise it is the connection failure, or, with a client in
    place, the [AttributeError] for [PerformanceConfig.get_ollama_options]. *)
Theorem llm_stream_response_single_error (user_message : string)
    (context conversation_history : list dict) (s : service) :
  exists (e : exn) (s' : service),
    stream_response server model_name host system_prompt format_3f str
      get_ollama_options user_message context conversation_history s
    = (([stream_error e], None), s')
    /\ List.filter is_chat (new_requests s s') = []
    /\ match _build_messages system_prompt format_3f str user_message
                context conversation_history with
       | Raise e' => e = e' /\ s' = s
       | Ret _ =>
           (e = connection_failure host /\ client s' = None)
           \/ (e = missing_get_ollama_options /\ client s' = Some tt)
       end.
Proof.
  unfold stream_response, stream_body, bind, lift, ret.
  destruct (_build_messages system_prompt format_3f str user_message context
              conversation_history) as [messages|e].
  - destruct (get_client_spec s) as [(new & -> & Hf & _)
                                    | (new & -> & Hf & _)].
    + exists missing_get_ollama_options. eexists.
      split; [reflexivity|].
      rewrite (new_requests_app s _ new) by reflexivity.
      split; [exact Hf|]. right. split; reflexivity.
    + exists (connection_failure host). eexists.
      split; [reflexivity|].
      rewrite (new_requests_app s _ new) by reflexivity.
      split; [exact Hf|]. left. split; reflexivity.
  - exists e, s. split; [reflexivity|].
    split; [|split; reflexivity].
    unfold new_requests. rewrite drop_all. reflexivity.
Qed.

Lemma stream_response_fragment (user_message : string)
    (context conversation_history : list dict) (s : service) :
  exists e,
    fst (stream_response server model_name host system_prompt format_3f str
           get_ollama_options user_message context conversation_history s)
    = ([stream_error e], None).
Proof.
  unfold stream_response, stream_body, bind, lift, ret.
  destruct (_build_messages system_prompt format_3f str user_message context
              conversation_history) as [messages|e].
  - destruct (get_client_spec s) as [(new & -> & _) | (new & -> & _)].
    + exists missing_get_ollama_options. reflexivity.
    + exists (connection_failure host). reflexivity.
  - exists e. reflexivity.
Qed.

Lemma slice_from_lastn {A} (l : list A) (n : nat) :
  (0 < n)%nat -> slice_from l (- Z.of_nat n) = lastn n l.
Proof.
  intros Hn. unfold slice_from, lastn, adjust_index, len.
  destruct (- Z.of_nat n <? 0) eqn:E; [|apply Z.ltb_ge in E; lia].
  f_equal. lia.
Qed.

Lemma context_lines_raise (e : exn) :
  forall (context : list dict) (i : nat) (context_str : string),
    context_lines format_3f str i context context_str = Raise e ->
    exists doc, In doc context
                /\ format_3f (dict_get doc "similarity" (PInt 0)) = Raise e.
Proof.
  induction context as [|doc context IH]; intros i context_str H.
  - discriminate.
  - cbn [context_lines] in H. unfold context_line in H.
    destruct (format_3f (dict_get doc "similarity" (PInt 0)))
      as [shown|e'] eqn:E; cbn [obind] in H.
    + destruct (IH _ _ H) as (d & Hd & He).
      exists d. split; [right; exact Hd | exact He].
    + injection H as ->. exists doc. split; [left; reflexivity | exact E].
Qed.

(** X19.  The messages [_build_messages] returns are the system prompt, the last
    six turns of the history at most, and one user turn; without context
    that turn is the message itself, with context it ends with the
    question.  Building them fails only when the similarity of a context
    document cannot be formatted. *)
Theorem build_messages_shape (user_message : string)
    (context conversation_history : list dict) :
  match _build_messages system_prompt format_3f str user_message context
          conversation_history with
  | Ret messages =>
      exists prompt,
        messages = system_turn system_prompt
                   :: lastn 6 conversation_history ++ [user_turn prompt]
        /\ length messages = (2 + Nat.min 6 (length conversation_history))%nat
        /\ (context = [] -> prompt = user_message)
        /\ (context <> [] ->
            exists context_str,
              prompt = (context_str ++ newline ++ "User question: "
                        ++ user_message)%string)
  | Raise e =>
      exists doc, In doc context
                  /\ format_3f (dict_get doc "similarity" (PInt 0)) = Raise e
  end.
Proof.
  unfold _build_messages.
  assert (Hm : (if truthy conversation_history
                then [system_turn system_prompt]
                     ++ slice_from conversation_history (- 6)
                else [system_turn system_prompt])
               = system_turn system_prompt :: lastn 6 conversation_history).
  { destruct conversation_history as [|turn rest]; [reflexivity|].
    cbn [truthy app]. f_equal.
    apply (slice_from_lastn (turn :: rest) 6). lia. }
  rewrite Hm.
  assert (Hlen : forall prompt,
             length ((system_turn system_prompt
                      :: lastn 6 conversation_history) ++ [user_turn prompt])
             = (2 + Nat.min 6 (length conversation_history))%nat).
  { intros prompt. rewrite length_app. cbn [length].
    unfold lastn. rewrite length_drop. lia. }
  destruct context as [|doc context]; cbn [truthy obind].
  - exists user_message. split; [reflexivity|]. split; [apply Hlen|].
    split; [reflexivity|]. intros H. congruence.
  - destruct (context_lines format_3f str 1 (doc :: context) _)
      as [context_str|e] eqn:E; cbn [obind].
    + eexists. split; [reflexivity|]. split; [apply Hlen|].
      split; [discriminate|]. intros _. eexists. reflexivity.
    + apply (context_lines_raise e _ _ _ E).
Qed.

End LLM.

(* ===================================================================== *)
(** ** The controller over the LLM service; the conversation as a whole   *)
(* ===================================================================== *)

Section Assistant.
Import RAGController ControllerRuns ControllerOps LLMRuns.
Variable generate_embedding : string -> outcome vector.
Variable search_similar_documents : vector -> Z -> float -> outcome (list dict).

Section OverLLMService.
Variable server : LLMService.ollama.
Variable model_name host system_prompt : string.
Variable format_3f : pyval -> outcome string.
Variable str : pyval -> string.
Variable _build_prompt : string -> list dict -> list dict -> outcome string.
Variable MAX_CONVERSATION_HISTORY : Z.
Variable get_ollama_options : bool -> outcome dict.
(** The state the LLM service is in when the controller calls it. *)
Variable s : LLMService.service.

Abbreviation llm_generate_response :=
  (fun user_message context conversation_history =>
     fst (LLMService.generate_response server model_name host system_prompt
            _build_prompt MAX_CONVERSATION_HISTORY get_ollama_options
            user_message context conversation_history s)).

Abbreviation llm_stream :=
  (fun user_message context conversation_history =>
     fst (LLMService.stream_response server model_name host system_prompt
            format_3f str get_ollama_options
            user_message context conversation_history s)).

(** X20.  Over the LLM service of the repository [ask_question] never
    returns an answer of the model.  When retrieval works (the embedding
    and the search answer, or no context is asked for), the response is the
    service's apology for its missing [_build_prompt], reported without an
    [error] key, with the documents found, and recorded in the history as
    the assistant's turn; when the embedding or the search raises, the
    result is the controller's error dictionary for that exception and the
    history stays as it was. *)
Theorem ask_question_over_llm_service (question : string)
    (use_context : bool) (similarity_threshold : float)
    (max_context_docs : Z) (h : history) :
  let sorry := LLMService.apology missing_build_prompt in
  ask_question generate_embedding search_similar_documents
    llm_generate_response question use_context similarity_threshold
    max_context_docs h
  = match retrieved generate_embedding search_similar_documents
            (Ask question use_context similarity_threshold
                 max_context_docs) with
    | Ret docs =>
        (Ret (answer_of sorry docs),
         lastn 20 (h ++ [user_turn question; assistant_turn sorry]))
    | Raise e => (Ret (error_of e), h)
    end
  /\ (forall docs,
        answer_of sorry docs !! "response" = Some (PStr sorry)
        /\ answer_of sorry docs !! "error" = None)
  /\ (forall e,
        error_of e !! "response" = Some (PStr (error_text e))
        /\ error_of e !! "error" = Some (PStr (exn_str e))).
Proof.
  intros sorry. split; [|split; [intros docs | intros e]; split; reflexivity].
  pose proof (ask_question_run generate_embedding search_similar_documents
                llm_generate_response
                (Ask question use_context similarity_threshold
                     max_context_docs) h) as H.
  cbv [ask ask_text ask_use_context ask_threshold ask_max_docs] in H.
  cbv beta in H. rewrite H.
  destruct (retrieved generate_embedding search_similar_documents
              (Ask question use_context similarity_threshold
                   max_context_docs)) as [docs|e]; reflexivity.
Qed.

(** X21.  Over the LLM service of the repository the controller's
    [stream_response] yields a single fragment that is an error text.
    When retrieval works (the embedding and the search answer, or no
    context is asked for), the fragment is the one error text the service
    yields for the documents found, it is recorded in the history as the
    assistant's turn, and the stream ends normally; when the embedding or
    the search raises, the fragment is the controller's error text for
    that exception, the stream ends with the [NameError] of the handler
    and the history stays as it was. *)
Theorem stream_response_over_llm_service (question : string)
    (use_context : bool) (similarity_threshold : float)
    (max_context_docs : Z) (h : history) :
  match retrieved generate_embedding search_similar_documents
          (Ask question use_context similarity_threshold
               max_context_docs) with
  | Ret docs =>
      exists e,
        llm_stream question docs h = ([LLMService.stream_error e], None)
        /\ stream_response generate_embedding search_similar_documents
             llm_stream question use_context similarity_threshold
             max_context_docs h
           = (([LLMService.stream_error e], None),
              lastn 20 (h ++ [user_turn question;
                              assistant_turn (LLMService.stream_error e)]))
  | Raise e =>
      stream_response generate_embedding search_similar_documents
        llm_stream question use_context similarity_threshold
        max_context_docs h
      = (([error_text e], Some (NameError "error_message")), h)
  end.
Proof.
  assert (Hs : forall docs, exists e,
             fst (LLMService.stream_response server model_name host
                    system_prompt format_3f str get_ollama_options
                    question docs h s)
             = ([LLMService.stream_error e], None))
    by (intros docs; apply stream_response_fragment).
  cbv [stream_response stream_body bind retrieve_context lift get_state ret
       retrieved ask_text ask_use_context ask_threshold ask_max_docs].
  destruct use_context.
  - destruct (generate_embedding question) as [v|e]; [|reflexivity].
    destruct (search_similar_documents v max_context_docs
                similarity_threshold) as [docs|e]; [|reflexivity].
    destruct (Hs docs) as [e He]. exists e. split; [exact He|].
    rewrite He. cbn [consume String.concat].
    rewrite update_conversation_history_lastn. reflexivity.
  - destruct (Hs []) as [e He]. exists e. split; [exact He|].
    rewrite He. cbn [consume String.concat].
    rewrite update_conversation_history_lastn. reflexivity.
Qed.

End OverLLMService.

Section Conversation.
Variable generate_response : string -> list dict -> history -> outcome string.
Variable llm_stream_response : string -> list dict -> history -> stream.

Lemma stream_response_step (question : string) (use_context : bool)
    (similarity_threshold : float) (max_context_docs : Z) (h : history) :
  let h' := snd (stream_response generate_embedding search_similar_documents
                   llm_stream_response question use_context
                   similarity_threshold max_context_docs h) in
  h' = h
  \/ exists response,
       h' = lastn 20 (h ++ [user_turn question; assistant_turn response]).
Proof.
  cbv [stream_response stream_body bind retrieve_context lift get_state ret].
  destruct use_context.
  - destruct (generate_embedding question) as [v|e]; [|left; reflexivity].
    destruct (search_similar_documents v max_context_docs
                similarity_threshold) as [docs|e]; [|left; reflexivity].
    destruct (consume (llm_stream_response question docs h))
      as [fragments|e]; [|left; reflexivity].
    rewrite update_conversation_history_lastn. right. eexists. reflexivity.
  - destruct (consume (llm_stream_response question [] h))
      as [fragments|e]; [|left; reflexivity].
    rewrite update_conversation_history_lastn. right. eexists. reflexivity.
Qed.

Lemma lastn_length_le {A} (n : nat) (l : list A) : (length (lastn n l) <= n)%nat.
Proof. unfold lastn. rewrite length_drop. lia. Qed.

Lemma whole_exchanges_add (h : history) (question response : string) :
  whole_exchanges h ->
  whole_exchanges
    (lastn 20 (h ++ [user_turn question; assistant_turn response])).
Proof.
  intros (xs & -> & _).
  exists (lastn 10 (xs ++ [(question, response)])).
  split; [|apply lastn_length_le].
  rewrite <- transcript_lastn, transcript_app. reflexivity.
Qed.

Lemma run_op_whole_exchanges (h : history) (o : op) :
  whole_exchanges h ->
  whole_exchanges
    (run_op generate_embedding search_similar_documents generate_response
            llm_stream_response h o).
Proof.
  intros Hh. destruct o as [a|a| |]; cbn [run_op].
  - destruct (ask_question_step generate_embedding search_similar_documents
                generate_response a h)
      as (result & h' & Hask & [(r & _ & _ & _ & ->) | (e & _ & _ & _ & ->)]);
      unfold ask in Hask; rewrite Hask; cbn [snd].
    + apply whole_exchanges_add. exact Hh.
    + exact Hh.
  - destruct (stream_response_step (ask_text a) (ask_use_context a)
                (ask_threshold a) (ask_max_docs a) h) as [-> | [r ->]].
    + exact Hh.
    + apply whole_exchanges_add. exact Hh.
  - exists []. split; [reflexivity | simpl; lia].
  - exact Hh.
Qed.

(** X22.  Whatever the services do, and in whatever order questions are asked,
    streamed, the history cleared or read, the history of a controller is
    always made of whole exchanges, a user turn followed by the assistant's
    turn, and of at most ten of them. *)
Theorem conversation_history_whole_exchanges (ops : list op) :
  let h := run_ops generate_embedding search_similar_documents
             generate_response llm_stream_response ops [] in
  whole_exchanges h
  /\ (length h <= 20)%nat
  /\ Nat.even (length h) = true.
Proof.
  intros h.
  assert (H : whole_exchanges h).
  { subst h. unfold run_ops.
    assert (Hgen : forall ops0 h0,
               whole_exchanges h0 ->
               whole_exchanges
                 (fold_left (run_op generate_embedding search_similar_documents
                               generate_response llm_stream_response)
                            ops0 h0)).
    { induction ops0 as [|o ops0 IH]; intros h0 Hh0; [exact Hh0|].
      cbn [fold_left]. apply IH, run_op_whole_exchanges. exact Hh0. }
    apply Hgen. exists []. split; [reflexivity | simpl; lia]. }
  split; [exact H|].
  destruct H as (xs & -> & Hlen). rewrite transcript_length.
  split; [lia|].
  rewrite Nat.even_mul. reflexivity.
Qed.

End Conversation.
End Assistant.

(* ===================================================================== *)
(** ** Properties of the file utilities and of file ingestion             *)
(* ===================================================================== *)

Section FileNames.
Import TextUtils FileUtils.

Lemma lstrip_chars_idempotent (s : text) :
  lstrip_chars (lstrip_chars s) = lstrip_chars s.
Proof.
  induction s as [|c s IH]; [reflexivity|].
  simpl. destruct (is_space_or_dot c) eqn:E; [exact IH|].
  simpl. rewrite E. reflexivity.
Qed.

Lemma lstrip_chars_head (s : text) (c : ascii) (r : text) :
  lstrip_chars s = c :: r -> is_space_or_dot c = false.
Proof.
  induction s as [|x s IH]; simpl; [discriminate|].
  destruct (is_space_or_dot x) eqn:E; [exact IH|].
  intros H. inversion H; subst. exact E.
Qed.

Lemma lstrip_chars_suffix (s : text) : exists pre, s = pre ++ lstrip_chars s.
Proof.
  induction s as [|c s [pre IH]]; [exists []; reflexivity|].
  simpl. destruct (is_space_or_dot c).
  - exists (c :: pre). simpl. f_equal. exact IH.
  - exists []. reflexivity.
Qed.

Lemma lstrip_chars_snoc (l : text) (c : ascii) :
  is_space_or_dot c = false ->
  exists l', lstrip_chars (l ++ [c]) = l' ++ [c].
Proof.
  intros Hc. induction l as [|x l [l' IH]]; simpl.
  - rewrite Hc. exists []. reflexivity.
  - destruct (is_space_or_dot x).
    + exists l'. exact IH.
    + exists (x :: l). reflexivity.
Qed.

Lemma rstrip_chars_idempotent (s : text) :
  rstrip_chars (rstrip_chars s) = rstrip_chars s.
Proof.
  unfold rstrip_chars. rewrite rev_involutive, lstrip_chars_idempotent.
  reflexivity.
Qed.

Lemma rstrip_chars_prefix (s : text) : exists suf, s = rstrip_chars s ++ suf.
Proof.
  unfold rstrip_chars. destruct (lstrip_chars_suffix (rev s)) as [pre H].
  exists (rev pre). rewrite <- rev_app_distr, <- H, rev_involutive.
  reflexivity.
Qed.

Lemma rstrip_chars_cons (c : ascii) (r : text) :
  is_space_or_dot c = false -> exists r', rstrip_chars (c :: r) = c :: r'.
Proof.
  intros Hc. unfold rstrip_chars. simpl rev.
  destruct (lstrip_chars_snoc (rev r) c Hc) as [l' ->].
  exists (rev l'). rewrite rev_app_distr. reflexivity.
Qed.

Lemma strip_chars_trimmed (s : text) :
  lstrip_chars (strip_chars s) = strip_chars s
  /\ rstrip_chars (strip_chars s) = strip_chars s.
Proof.
  unfold strip_chars. split; [|apply rstrip_chars_idempotent].
  destruct (lstrip_chars s) as [|c r] eqn:E; [reflexivity|].
  apply lstrip_chars_head in E.
  destruct (rstrip_chars_cons c r E) as [r' ->].
  simpl. rewrite E. reflexivity.
Qed.

Lemma strip_chars_infix (s : text) :
  exists pre suf, s = pre ++ strip_chars s ++ suf.
Proof.
  destruct (lstrip_chars_suffix s) as [pre H1].
  destruct (rstrip_chars_prefix (lstrip_chars s)) as [suf H2].
  exists pre, suf. unfold strip_chars. rewrite <- H2. exact H1.
Qed.

Lemma replace_invalid_valid (filename : text) :
  Forall (fun c => is_invalid c = false) (replace_invalid filename).
Proof.
  unfold replace_invalid. apply Forall_forall. intros c Hc.
  apply list_elem_of_In, in_map_iff in Hc. destruct Hc as (x & <- & _).
  destruct (is_invalid x) eqn:E; [reflexivity | exact E].
Qed.

Lemma replace_invalid_id (filename : text) :
  Forall (fun c => is_invalid c = false) filename ->
  replace_invalid filename = filename.
Proof.
  induction 1 as [|c l Hc _ IH]; [reflexivity|].
  unfold replace_invalid in *. simpl. rewrite Hc, IH. reflexivity.
Qed.

Lemma clean_name_cases (filename : text) :
  (clean_name filename = strip_chars (replace_invalid filename)
   /\ strip_chars (replace_invalid filename) <> [])
  \/ (clean_name filename = T "untitled"
      /\ strip_chars (replace_invalid filename) = []).
Proof.
  unfold clean_name.
  destruct (strip_chars (replace_invalid filename)) as [|c r].
  - right. split; reflexivity.
  - left. split; [reflexivity | discriminate].
Qed.

Lemma clean_name_valid (filename : text) :
  Forall (fun c => is_invalid c = false) (clean_name filename).
Proof.
  destruct (clean_name_cases filename) as [[-> _] | [-> _]].
  - pose proof (replace_invalid_valid filename) as H.
    destruct (strip_chars_infix (replace_invalid filename))
      as (pre & suf & Hs).
    rewrite Hs in H. apply Forall_app in H. destruct H as [_ H].
    apply Forall_app in H. destruct H as [H _]. exact H.
  - repeat constructor.
Qed.

Lemma clean_name_nonempty (filename : text) : clean_name filename <> [].
Proof.
  destruct (clean_name_cases filename) as [[-> H] | [-> _]];
    [exact H | discriminate].
Qed.

Lemma clean_name_trimmed (filename : text) :
  lstrip_chars (clean_name filename) = clean_name filename
  /\ rstrip_chars (clean_name filename) = clean_name filename.
Proof.
  destruct (clean_name_cases filename) as [[-> _] | [-> _]].
  - apply strip_chars_trimmed.
  - split; reflexivity.
Qed.

Lemma clean_name_idempotent (filename : text) :
  clean_name (clean_name filename) = clean_name filename.
Proof.
  pose proof (clean_name_valid filename) as Hv.
  pose proof (clean_name_nonempty filename) as Hne.
  destruct (clean_name_trimmed filename) as [Hl Hr].
  unfold clean_name at 1.
  rewrite (replace_invalid_id _ Hv).
  unfold strip_chars. rewrite Hl, Hr.
  destruct (clean_name filename); [congruence | reflexivity].
Qed.

Lemma rfind_from_bounds (c : ascii) :
  forall (p : text) (i found : Z),
    -1 <= found < i ->
    -1 <= rfind_from i c p found < i + len p.
Proof.
  induction p as [|x p IH]; intros i found H; cbn [rfind_from].
  - unfold len. simpl. lia.
  - specialize (IH (i + 1) (if Ascii.eqb x c then i else found)).
    unfold len in *. cbn [length].
    destruct (Ascii.eqb x c); lia.
Qed.

Lemma rfind_bounds (c : ascii) (p : text) : -1 <= rfind c p < len p.
Proof.
  unfold rfind.
  pose proof (rfind_from_bounds c p 0 (-1) ltac:(lia)) as H. lia.
Qed.

Lemma slice_split {A} (l : list A) (d : Z) :
  0 <= d <= len l -> slice l 0 d ++ slice_from l d = l.
Proof.
  intros Hd. unfold slice, slice_from, adjust_index, len in *.
  change (0 <? 0) with false. cbv iota.
  destruct (d <? 0) eqn:E; [lia|].
  replace (Z.min 0 (Z.of_nat (length l))) with 0 by lia.
  rewrite Z.sub_0_r. change (Z.to_nat 0) with 0%nat. rewrite drop_0.
  apply take_drop.
Qed.

(** The two parts [splitext] returns make up the path. *)
Lemma splitext_app (p : text) : fst (splitext p) ++ snd (splitext p) = p.
Proof.
  unfold splitext.
  destruct ((rfind "." p >? rfind "/" p)
            && existsb (fun c => negb (Ascii.eqb c ".")) _) eqn:E;
    cbn [fst snd]; [|apply app_nil_r].
  apply andb_true_iff in E. destruct E as [E _].
  apply Z.gtb_lt in E.
  pose proof (rfind_bounds "." p). pose proof (rfind_bounds "/" p).
  apply slice_split. lia.
Qed.

Lemma slice_prefix_length {A} (l : list A) (m : Z) :
  len (slice l 0 m)
  = if m <? 0 then Z.max 0 (m + len l) else Z.min m (len l).
Proof.
  unfold slice, adjust_index, len.
  change (0 <? 0) with false. cbv iota.
  replace (Z.min 0 (Z.of_nat (length l))) with 0 by lia.
  change (Z.to_nat 0) with 0%nat. rewrite drop_0, length_take.
  destruct (m <? 0) eqn:E; lia.
Qed.

Lemma slice_prefix_sub {A} (l : list A) (m : Z) :
  exists rest, l = slice l 0 m ++ rest.
Proof.
  unfold slice, adjust_index, len.
  change (0 <? 0) with false. cbv iota.
  replace (Z.min 0 (Z.of_nat (length l))) with 0 by lia.
  change (Z.to_nat 0) with 0%nat. rewrite drop_0.
  eexists. symmetry. apply take_drop.
Qed.

(** X23.  [sanitize_filename] returns a name that is not empty and holds none of
    the characters it replaces.  The name has at most 255 characters exactly
    when the extension of the cleaned name has: a longer extension is kept
    whole.  A cleaned name of at most 255 characters is returned as it is,
    without a space or a dot at either end, and sanitising it again changes
    nothing. *)
Theorem sanitize_filename_spec (filename : text) :
  let cleaned := clean_name filename in
  let result := sanitize_filename filename in
  result <> []
  /\ Forall (fun c => is_invalid c = false) result
  /\ (len result <= 255 <-> len (snd (splitext cleaned)) <= 255)
  /\ (len cleaned <= 255 ->
      result = cleaned
      /\ lstrip_chars result = result
      /\ rstrip_chars result = result
      /\ sanitize_filename result = result).
Proof.
  intros cleaned result. subst result. unfold sanitize_filename.
  fold cleaned.
  pose proof (clean_name_valid filename) as Hv. fold cleaned in Hv.
  pose proof (clean_name_nonempty filename) as Hne. fold cleaned in Hne.
  pose proof (splitext_app cleaned) as Happ.
  destruct (len cleaned >? 255) eqn:E.
  - apply Z.gtb_lt in E.
    destruct (splitext cleaned) as [name ext] eqn:Es. cbn [fst snd] in *.
    assert (Hlen : len name + len ext = len cleaned)
      by (rewrite <- Happ; unfold len; rewrite length_app; lia).
    pose proof (slice_prefix_length name (255 - len ext)) as Hs.
    split; [|split; [|split]].
    + destruct ext as [|c ext]; [|intros H; apply app_eq_nil in H;
                                  destruct H; discriminate].
      rewrite app_nil_r in *. subst name.
      intros H. rewrite H in Hs. unfold len in Hs, E. cbn [length] in Hs.
      change (255 - Z.of_nat 0 <? 0) with false in Hs. cbv iota in Hs. lia.
    + rewrite <- Happ in Hv. apply Forall_app in Hv. destruct Hv as [Hn He].
      apply Forall_app. split; [|exact He].
      destruct (slice_prefix_sub name (255 - len ext)) as [rest Hr].
      rewrite Hr in Hn. apply Forall_app in Hn. apply Hn.
    + assert (Hr : len (slice name 0 (255 - len ext) ++ ext)
                   = len (slice name 0 (255 - len ext)) + len ext)
        by (unfold len; rewrite length_app; lia).
      rewrite Hr, Hs.
      assert (0 <= len name) by (unfold len; lia).
      destruct (255 - len ext <? 0) eqn:E2.
      * apply Z.ltb_lt in E2. split; lia.
      * apply Z.ltb_ge in E2. split; lia.
    + lia.
  - rewrite Z.gtb_ltb in E. apply Z.ltb_ge in E.
    split; [exact Hne|]. split; [exact Hv|]. split.
    + split; [|intros _; exact E].
      intros _.
      assert (len (snd (splitext cleaned)) <= len cleaned); [|lia].
      rewrite <- Happ at 2. unfold len. rewrite length_app. lia.
    + intros _. split; [reflexivity|].
      destruct (clean_name_trimmed filename) as [Hl Hr].
      fold cleaned in Hl, Hr. split; [exact Hl|]. split; [exact Hr|].
      unfold cleaned. rewrite clean_name_idempotent. fold cleaned.
      destruct (len cleaned >? 255) eqn:E2; [|reflexivity].
      apply Z.gtb_lt in E2. lia.
Qed.

Lemma sanitize_filename_spec_witness :
  sanitize_filename (sanitize_filename (T " ..my:file?.txt. "))
  = sanitize_filename (T " ..my:file?.txt. ").
Proof.
  pose proof (sanitize_filename_spec (T " ..my:file?.txt. ")) as H.
  cbv zeta in H. destruct H as (_ & _ & _ & H).
  destruct H as (_ & _ & _ & H); [vm_compute; discriminate | exact H].
Defined.

Example sanitize_filename_example :
  sanitize_filename (T " ..my:file?.txt. ") = T "my_file_.txt".
Proof. vm_compute. reflexivity. Qed.

(** An extension of more than 255 characters survives the truncation: the
    result is longer than the limit. *)
Example sanitize_filename_long_extension :
  len (sanitize_filename (T "a." ++ repeat "x"%char 300)) = 301.
Proof. vm_compute. reflexivity. Qed.

(** The truncation can leave a space at the end of the name. *)
Example sanitize_filename_trailing_space :
  last (sanitize_filename (repeat "a"%char 254 ++ T " b"))
  = Some " "%char.
Proof. vm_compute. reflexivity. Qed.

End FileNames.

Section FileIngestion.
Import DatabaseService StoreTrace RAGController KnowledgeRuns FileUtils.

Section AnyDatabase.
Context {W : Type}.
Variable batch_insert_documents : list dict -> M W bool.
Variable remove_error : string -> option exn.

Lemma cleanup_spec (file_path : string) (s : system W) :
  cleanup remove_error file_path s
  = (Ret tt,
     {| database := database s;
        files := match remove_error file_path with
                 | None => delete file_path (files s)
                 | Some _ => files s
                 end |}).
Proof.
  unfold cleanup, try_except, remove_if_exists, ret.
  destruct s as [w fs]. cbn [database files].
  destruct (fs !! file_path) as [f|] eqn:E.
  - destruct (remove_error file_path); reflexivity.
  - destruct (remove_error file_path); [reflexivity|].
    rewrite (delete_id fs file_path E). reflexivity.
Qed.

Lemma batch_add_knowledge_returns (documents : list dict) (w : W) :
  exists (ok : bool) (w' : W),
    batch_add_knowledge batch_insert_documents documents w
    = (Ret (ok, if ok then len documents else 0), w').
Proof.
  unfold batch_add_knowledge, try_except, bind, ret.
  destruct documents as [|doc documents]; cbn [truthy negb].
  - exists true, w. reflexivity.
  - destruct (batch_insert_documents (doc :: documents) w) as [[[|]|e] w'].
    + exists true, w'. reflexivity.
    + exists false, w'. reflexivity.
    + exists false, w'. reflexivity.
Qed.

Lemma chunk_text_sentences_some (fuel : nat) (t : TextUtils.text)
    (chunk_size overlap : Z) :
  exists chunks,
    TextUtils.chunk_text fuel t chunk_size overlap true = Some chunks.
Proof.
  unfold TextUtils.chunk_text.
  destruct (negb (truthy t) || (len t <=? chunk_size)); eexists; reflexivity.
Qed.

(** The text read from the file, by its extension. *)
Abbreviation read_by_extension file_path s :=
  (if endswith file_path ".txt" || endswith file_path ".md"
   then Some (read_text_file (files s) file_path)
   else if endswith file_path ".pdf"
        then Some (read_pdf_file (files s) file_path)
        else None).

Lemma add_file_knowledge_cases (fuel : nat) (file_path : string)
    (s : system W) :
  (add_file_knowledge batch_insert_documents remove_error fuel file_path s
   = Some (Ret (false, 0), snd (cleanup remove_error file_path s))
   /\ forall c content,
        read_by_extension file_path s <> Some (Some (c :: content)))
  \/ (exists c content chunks (ok : bool) w',
         read_by_extension file_path s = Some (Some (c :: content))
         /\ TextUtils.chunk_text fuel (c :: content) 1000 100 true
            = Some chunks
         /\ batch_add_knowledge batch_insert_documents
              (file_documents chunks (basename file_path)) (database s)
            = (Ret (ok, if ok then len chunks else 0), w')
         /\ add_file_knowledge batch_insert_documents remove_error fuel
              file_path s
            = Some (Ret (ok, if ok then len chunks else 0),
                    snd (cleanup remove_error file_path
                           {| database := w'; files := files s |}))).
Proof.
  unfold add_file_knowledge.
  destruct (read_by_extension file_path s) as [[[|c content]|]|] eqn:E;
    try (left; split; [reflexivity | intros; discriminate]).
  right.
  destruct (chunk_text_sentences_some fuel (c :: content) 1000 100)
    as [chunks Hc].
  destruct (batch_add_knowledge_returns
              (file_documents chunks (basename file_path)) (database s))
    as (ok & w' & Hrun).
  assert (Hl : len (file_documents chunks (basename file_path)) = len chunks)
    by (unfold file_documents, len; rewrite length_map; reflexivity).
  rewrite Hl in Hrun.
  exists c, content, chunks, ok, w'.
  split; [reflexivity|]. split; [exact Hc|]. split; [exact Hrun|].
  rewrite Hc. unfold try_except, on_database. rewrite Hrun. reflexivity.
Qed.

(** X24.  [add_file_knowledge] returns for every fuel and never raises.
    Whatever happened before, the file is gone afterwards unless its
    removal fails, and no other file is touched: a file of an unsupported
    type, an unreadable and an empty one are removed as well, without a
    request to the database.  Otherwise the result is that of
    [batch_add_knowledge] on one document per chunk of the text read: the
    number of chunks on success and 0 on failure. *)
Theorem add_file_knowledge_outcome (fuel : nat) (file_path : string)
    (s : system W) :
  exists (ok : bool) (count : Z) (s' : system W),
    add_file_knowledge batch_insert_documents remove_error fuel file_path s
    = Some (Ret (ok, count), s')
    /\ files s' = match remove_error file_path with
                  | None => delete file_path (files s)
                  | Some _ => files s
                  end
    /\ ((ok = false /\ count = 0 /\ database s' = database s
         /\ forall c content,
              read_by_extension file_path s <> Some (Some (c :: content)))
        \/ (exists c content chunks,
               read_by_extension file_path s = Some (Some (c :: content))
               /\ TextUtils.chunk_text fuel (c :: content) 1000 100 true
                  = Some chunks
               /\ batch_add_knowledge batch_insert_documents
                    (file_documents chunks (basename file_path)) (database s)
                  = (Ret (ok, count), database s')
               /\ count = if ok then len chunks else 0)).
Proof.
  destruct (add_file_knowledge_cases fuel file_path s)
    as [[Hrun Hread] | (c & content & chunks & ok & w' & Hread & Hc & Hb & Hrun)];
    rewrite Hrun, cleanup_spec; cbn [snd database files].
  - exists false, 0. eexists. split; [reflexivity|].
    cbn [files database]. split; [reflexivity|]. left.
    split; [reflexivity|]. split; [reflexivity|].
    split; [reflexivity | exact Hread].
  - exists ok, (if ok then len chunks else 0). eexists.
    split; [reflexivity|]. cbn [files database]. split; [reflexivity|].
    right. exists c, content, chunks.
    split; [exact Hread|]. split; [exact Hc|]. split; [exact Hb | reflexivity].
Qed.

End AnyDatabase.

Lemma batch_add_knowledge_embedding_down (client : store)
    (m : EmbeddingService.encoder) (documents : list dict) (w : world) :
  exists ok w',
    batch_add_knowledge (batch_insert_default client (repository_embedder m))
                        documents w
    = (Ret (ok, 0), w')
    /\ events w' = events w.
Proof.
  destruct documents as [|doc documents].
  - exists true, w. split; reflexivity.
  - unfold batch_add_knowledge. cbn [truthy negb].
    unfold try_except, bind, batch_insert_default.
    pose proof (batch_insert_documents_embedding_failure client
                  (repository_embedder m) doc documents 50 w) as H.
    cbv zeta in H.
    destruct H as [H1 H2].
    + intros calls c cs. exists batch_failure.
      apply repository_embedder_raises.
    + lia.
    + destruct (batch_insert_documents client (Some (repository_embedder m))
                  (doc :: documents) 50 w) as [r w'].
      cbn [fst snd] in H1, H2. subst r. cbn [ret].
      exists false, w'. split; [reflexivity | exact H2].
Qed.

(** X25.  With the services wired as in [api.py], file ingestion never stores
    anything: for every file the count returned is 0, no request reaches
    the store, and the file is removed all the same. *)
Theorem add_file_knowledge_repository (client : store)
    (m : EmbeddingService.encoder) (remove_error : string -> option exn)
    (fuel : nat) (file_path : string) (s : system world) :
  exists (ok : bool) (s' : system world),
    add_file_knowledge (batch_insert_default client (repository_embedder m))
                       remove_error fuel file_path s
    = Some (Ret (ok, 0), s')
    /\ events (database s') = events (database s)
    /\ files s' = match remove_error file_path with
                  | None => delete file_path (files s)
                  | Some _ => files s
                  end.
Proof.
  destruct (add_file_knowledge_cases
              (batch_insert_default client (repository_embedder m))
              remove_error fuel file_path s)
    as [[Hrun _] | (c & content & chunks & ok & w' & _ & _ & Hb & Hrun)];
    rewrite Hrun, cleanup_spec; cbn [snd database files].
  - exists false. eexists. split; [reflexivity|]. split; reflexivity.
  - destruct (batch_add_knowledge_embedding_down client m
                (file_documents chunks (basename file_path)) (database s))
      as (ok' & w'' & Hrun' & Hev).
    rewrite Hrun' in Hb. injection Hb as Hok Hcount Hw. subst ok' w''.
    exists ok. eexists. rewrite <- Hcount.
    split; [reflexivity|]. split; [exact Hev | reflexivity].
Qed.

(** A text file of one sentence, ingested over an accepting store and a
    working embedder: one document is stored and the file is removed. *)
Example add_file_knowledge_text_file :
  let fs : file_system :=
    {[ "temp-storage/notes.txt" :=
         File (Some (TextUtils.T "Rocq checks proofs.")) None ]} in
  let out := add_file_knowledge
               (batch_insert_default accepting_store unit_embedder)
               (fun _ => None) 0 "temp-storage/notes.txt"
               (System (World [] []) fs) in
  exists s',
    out = Some (Ret (true, 1), s')
    /\ files s' !! "temp-storage/notes.txt" = None
    /\ map (fun row => (row !! "content", row !! "metadata"))
           (committed (events (database s')))
       = [(Some (PStr "Rocq checks proofs."),
           Some (PDict {[ "source" := PStr "notes.txt" ]}))].
Proof.
  eexists. split; [vm_compute; reflexivity|].
  split; vm_compute; reflexivity.
Qed.

End FileIngestion.

(* ===================================================================== *)
(** ** Properties of the response cache                                   *)
(* ===================================================================== *)

Section ResponseCaching.
Import ApiOptimizer.
Context {R : Type}.

Lemma set_ttl (cleanup_time now : float) (key : string) (response : R)
    (c : response_cache R) :
  ttl (set cleanup_time now key response c) = ttl c.
Proof.
  unfold set. destruct (Z.of_nat (size (cache c)) >=? max_size c); reflexivity.
Qed.

Lemma set_lookup (cleanup_time now : float) (key : string) (response : R)
    (c : response_cache R) :
  cache (set cleanup_time now key response c) !! key
  = Some (Item response now).
Proof. unfold set. cbn [cache]. apply lookup_insert_eq. Qed.

(** X26.  A response that was set is found again exactly while it is fresh: a
    [get] at a time [later] with [later - now < ttl] returns it and leaves
    the cache alone; any other [get] returns [None] and deletes the entry.
    This holds whatever the cache held and however full it was. *)
Theorem response_cache_round_trip (cleanup_time now later : float)
    (key : string) (response : R) (c : response_cache R) :
  let stored := set cleanup_time now key response c in
  let out := get later key stored in
  fst out = (if (later - now <? ttl c)%float then Some response else None)
  /\ cache (snd out) !! key
     = (if (later - now <? ttl c)%float
        then Some (Item response now) else None)
  /\ forall other, other <> key ->
       cache (snd out) !! other = cache stored !! other.
Proof.
  intros stored out. subst out. unfold get.
  assert (Hl : cache stored !! key = Some (Item response now))
    by apply set_lookup.
  rewrite Hl. unfold fresh. cbn [timestamp ApiOptimizer.response].
  assert (Ht : ttl stored = ttl c) by apply set_ttl.
  rewrite !Ht.
  destruct (later - now <? ttl c)%float; cbn [fst snd cache].
  - split; [reflexivity|]. split; [exact Hl | reflexivity].
  - split; [reflexivity|]. split; [apply lookup_delete_eq|].
    intros other Hne. apply lookup_delete_ne. congruence.
Qed.

(** X27.  [max_size] is no bound.  [set] removes expired entries only, and only
    when the cache is full: an entry that is not expired at the time of the
    cleanup outlives every [set] of another key, so that setting a new key
    in a cache without expired entries makes it one entry larger, however
    large it was. *)
Theorem response_cache_set_keeps_live (cleanup_time now : float)
    (key : string) (response : R) (c : response_cache R) :
  let stored := set cleanup_time now key response c in
  (forall k value,
     cache c !! k = Some value -> k <> key ->
     expired c cleanup_time value = false ->
     cache stored !! k = Some value)
  /\ ((forall k value, cache c !! k = Some value ->
                       expired c cleanup_time value = false) ->
      cache c !! key = None ->
      size (cache stored) = S (size (cache c))).
Proof.
  intros stored. subst stored. unfold set.
  assert (Hall : (forall k value, cache c !! k = Some value ->
                                  expired c cleanup_time value = false) ->
                 cache (_cleanup_expired cleanup_time c) = cache c).
  { intros H. unfold _cleanup_expired. cbn [cache].
    apply map_filter_id. intros k value Hk. cbn [snd]. apply (H k value Hk). }
  split.
  - intros k value Hk Hne Hlive. cbn [cache].
    rewrite lookup_insert_ne by congruence.
    destruct (Z.of_nat (size (cache c)) >=? max_size c); [|exact Hk].
    unfold _cleanup_expired. cbn [cache].
    apply map_lookup_filter_Some. split; [exact Hk | exact Hlive].
  - intros Hlive Hnew. cbn [cache].
    assert (Hc : cache (if Z.of_nat (size (cache c)) >=? max_size c
                        then _cleanup_expired cleanup_time c else c)
                 = cache c).
    { destruct (Z.of_nat (size (cache c)) >=? max_size c);
        [apply Hall; exact Hlive | reflexivity]. }
    rewrite Hc. apply map_size_insert_None. exact Hnew.
Qed.

Section Counting.
Variable truth : R -> bool.

(** X28.  Every [cache_get] counts once, as a hit or as a miss.  It is a hit
    exactly when the key holds a fresh response that is true; a cached
    response that is false (an empty body) is reported as a miss and
    [None] is returned, although the entry stays in the cache. *)
Theorem cache_get_counts (now : float) (r : request) (o : api_optimizer) :
  let out := cache_get truth now r o in
  let o' := snd out in
  cache_hits o' + cache_misses o' = cache_hits o + cache_misses o + 1
  /\ (forall found, fst out = Some found <->
        exists value,
          cache (response_cache_of o) !! get_cache_key r = Some value
          /\ fresh (response_cache_of o) now value = true
          /\ response value = found
          /\ truth found = true)
  /\ (cache_hits o' = cache_hits o + 1 <-> is_Some (fst out))
  /\ (forall value,
        cache (response_cache_of o) !! get_cache_key r = Some value ->
        fresh (response_cache_of o) now value = true ->
        truth (response value) = false ->
        fst out = None
        /\ cache (response_cache_of o') !! get_cache_key r = Some value).
Proof.
  intros out o'. subst o' out. unfold cache_get, get.
  destruct (cache (response_cache_of o) !! get_cache_key r) as [value|] eqn:E.
  - destruct (fresh (response_cache_of o) now value) eqn:Ef.
    + destruct (truth (response value)) eqn:Et; cbn [fst snd cache_hits
                                                      cache_misses
                                                      response_cache_of].
      * split; [lia|]. split.
        { intros found. split.
          - intros [= <-]. exists value. repeat split; assumption.
          - intros (v & [= <-] & _ & <- & _). reflexivity. }
        split; [split; [eauto | lia]|].
        intros v [= <-] _ Hf. congruence.
      * split; [lia|]. split.
        { intros found. split; [discriminate|].
          intros (v & [= <-] & _ & <- & Ht). congruence. }
        split; [split; [lia | intros [x Hx]; discriminate]|].
        intros v [= <-] _ _. split; [reflexivity | exact E].
    + cbn [fst snd cache_hits cache_misses response_cache_of].
      split; [lia|]. split.
      { intros found. split; [discriminate|].
        intros (v & [= <-] & Hf & _). congruence. }
      split; [split; [lia | intros [x Hx]; discriminate]|].
      intros v [= <-] Hf _. congruence.
  - cbn [fst snd cache_hits cache_misses response_cache_of].
    split; [lia|]. split.
    { intros found. split; [discriminate|].
      intros (v & Hv & _). discriminate. }
    split; [split; [lia | intros [x Hx]; discriminate]|].
    intros v Hv. discriminate.
Qed.

End Counting.
End ResponseCaching.

Lemma response_cache_set_keeps_live_witness :
  let c : ApiOptimizer.response_cache string :=
    ApiOptimizer.ResponseCache
      {[ "GET:/a:" := ApiOptimizer.Item "first"%string 100%float ]}
      1 300%float in
  size (ApiOptimizer.cache
          (ApiOptimizer.set 150%float 150%float "GET:/b:" "second"%string c))
  = 2%nat.
Proof.
  intros c.
  destruct (response_cache_set_keeps_live 150%float 150%float "GET:/b:"
              "second"%string c) as [_ H].
  apply H.
  - intros k value Hk. subst c. cbn [ApiOptimizer.cache] in Hk.
    apply lookup_singleton_Some in Hk. destruct Hk as [_ <-].
    vm_compute. reflexivity.
  - subst c. cbn [ApiOptimizer.cache].
    apply lookup_singleton_ne. discriminate.
Defined.

(** Two different requests with one cache key. *)
Example get_cache_key_collision :
  ApiOptimizer.get_cache_key (ApiOptimizer.Request "GET" "/a:b" "")
  = ApiOptimizer.get_cache_key (ApiOptimizer.Request "GET" "/a" "b:").
Proof. reflexivity. Qed.

(* ===================================================================== *)
(** ** Properties of the single embedding                                 *)
(* ===================================================================== *)

Section SingleEmbedding.
Import EmbeddingService DatabaseService RAGController CacheModel.

(** X14.  [generate_embedding] raises nothing but [RuntimeError]: without a model
    the message is that the model is not loaded, and whatever the model
    raises is replaced by the failure message; otherwise the vector of the
    model is returned.  When it raises, [add_knowledge] over it reports
    [(False, 0)] and nothing is sent to the store. *)
Theorem generate_embedding_outcome (model : option text_encoder)
    (client : store) (content : string) (metadata : option dict)
    (w : world) :
  match generate_embedding model content with
  | Ret v => exists encode_text,
               model = Some encode_text /\ encode_text content = Ret v
  | Raise e =>
      ((e = RuntimeError "Embedding model not loaded" /\ model = None)
       \/ (e = RuntimeError "Failed to generate embedding"
           /\ exists encode_text e',
                model = Some encode_text /\ encode_text content = Raise e'))
      /\ add_knowledge (insert_document client (generate_embedding model))
                       content metadata w
         = (Ret (false, 0), w)
  end.
Proof.
  assert (Hfail : forall e, generate_embedding model content = Raise e ->
            add_knowledge (insert_document client (generate_embedding model))
                          content metadata w
            = (Ret (false, 0), w)).
  { intros e He.
    unfold add_knowledge, insert_document, try_except, bind, lift.
    rewrite He. reflexivity. }
  destruct (generate_embedding model content) as [v|e] eqn:E.
  - unfold generate_embedding in E. destruct model as [encode_text|];
      [|discriminate].
    exists encode_text. split; [reflexivity|].
    destruct (encode_text content); [congruence | discriminate].
  - split; [|apply (Hfail e); reflexivity].
    unfold generate_embedding in E. destruct model as [encode_text|].
    + right. destruct (encode_text content) as [v|e'] eqn:Ec; [discriminate|].
      split; [congruence|]. exists encode_text, e'. split; [reflexivity | exact Ec].
    + left. split; [congruence | reflexivity].
Qed.

Lemma generate_embeddings_batch_with_cache_twice_witness :
  let f := fun _ : string => [1%float] in
  let s := Env (∅ : gmap string vector) [] in
  let first := generate_embeddings_batch (Some (pointwise f)) dict_cache
                 ["a"; "b"; "a"]%string 2 s in
  let second := generate_embeddings_batch (Some (pointwise f)) dict_cache
                  ["a"; "b"; "a"]%string 2 (snd first) in
  encode_calls (snd second) = encode_calls (snd first).
Proof.
  intros f s first second.
  destruct (generate_embeddings_batch_with_cache_twice f
              ["a"; "b"; "a"]%string 2 s) as (_ & _ & H & _);
    [lia | exact H].
Defined.

End SingleEmbedding.
